(** * adapt-authoring-content: the content hierarchy mutation engine

    A shallow embedding of [lib/ContentModule.js].  Documents are records,
    the collection is a list in natural (insertion) order, and every
    asynchronous method is a computation in a state-and-exception monad
    over the collection.  A failed computation keeps the writes it made
    before failing: the store has no transactions. *)

From Stdlib Require Import String Bool Arith PeanoNat ZArith Lia List Permutation.
Import ListNotations.

Local Open Scope Z_scope.
Local Open Scope list_scope.

Set Implicit Arguments.

(** ** Data model *)

(** Identifiers are opaque; the store hands them out in increasing order. *)
Definition Id := nat.

Inductive ctype : Type :=
  | course | config | menu | page | article | block | component.

Inductive layout : Type := Lfull | Lleft | Lright.

(** A plugin name as it sits in a JS array: [None] is [undefined]. *)
Definition plugin := option string.

(** A content document, or a payload on its way to the store.  [None] in an
    optional field is JS [undefined]. *)
Record ContentNode : Type := mkNode {
  _id : option Id;
  _type : ctype;
  _parentId : option Id;
  _courseId : option Id;
  _sortOrder : option Z;
  _layout : option layout;
  _component : plugin;
  _enabledPlugins : list plugin;
  _menu : plugin;
  _theme : plugin;
  _trackingId : option string;
  createdBy : option string;
  title : option string;
  body : option string;
  _lang : option string;
  _defaultLanguage : option string
}.

(** A partial object: update data, [customData], [globalData].  The outer
    [None] means the key is absent; [Some None] sets the field to
    [undefined]. *)
Record Delta : Type := mkDelta {
  d_type : option ctype;
  d_parentId : option (option Id);
  d_courseId : option (option Id);
  d_sortOrder : option (option Z);
  d_layout : option (option layout);
  d_component : option plugin;
  d_enabledPlugins : option (list plugin);
  d_menu : option plugin;
  d_theme : option plugin;
  d_trackingId : option (option string);
  d_createdBy : option (option string);
  d_title : option (option string);
  d_body : option (option string);
  d_lang : option (option string);
  d_defaultLanguage : option (option string)
}.

(** [{}] *)
Definition emptyDelta : Delta :=
  mkDelta None None None None None None None None None None None None None None None.

Definition orElse {A} (o : option A) (a : A) : A :=
  match o with Some v => v | None => a end.

(** [Object.assign(n, d)] / [{ ...n, ...d }]: a shallow merge that never
    touches [_id]. *)
Definition assign (n : ContentNode) (d : Delta) : ContentNode :=
  {| _id := _id n;
     _type := orElse (d_type d) (_type n);
     _parentId := orElse (d_parentId d) (_parentId n);
     _courseId := orElse (d_courseId d) (_courseId n);
     _sortOrder := orElse (d_sortOrder d) (_sortOrder n);
     _layout := orElse (d_layout d) (_layout n);
     _component := orElse (d_component d) (_component n);
     _enabledPlugins := orElse (d_enabledPlugins d) (_enabledPlugins n);
     _menu := orElse (d_menu d) (_menu n);
     _theme := orElse (d_theme d) (_theme n);
     _trackingId := orElse (d_trackingId d) (_trackingId n);
     createdBy := orElse (d_createdBy d) (createdBy n);
     title := orElse (d_title d) (title n);
     body := orElse (d_body d) (body n);
     _lang := orElse (d_lang d) (_lang n);
     _defaultLanguage := orElse (d_defaultLanguage d) (_defaultLanguage n) |}.

(** [{ _type }]: an object with only its type set. *)
Definition blank (t : ctype) : ContentNode :=
  mkNode None t None None None None None [] None None None None None None None None.

Definition set_id (i : option Id) (n : ContentNode) : ContentNode :=
  mkNode i (_type n) (_parentId n) (_courseId n) (_sortOrder n) (_layout n)
    (_component n) (_enabledPlugins n) (_menu n) (_theme n) (_trackingId n)
    (createdBy n) (title n) (body n) (_lang n) (_defaultLanguage n).

(** Deltas the module itself writes. *)
Definition dSortOrder (k : option Z) : Delta :=
  mkDelta None None None (Some k) None None None None None None None None None None None.
Definition dCourseId (c : option Id) : Delta :=
  mkDelta None None (Some c) None None None None None None None None None None None None.
Definition dEnabledPlugins (ps : list plugin) : Delta :=
  mkDelta None None None None None None (Some ps) None None None None None None None None.
Definition dCut (p : option Id) (k : option Z) : Delta :=
  mkDelta None (Some p) None (Some k) None None None None None None None None None None None.

(** ** Decidable equalities *)

Definition ctype_eqb (a b : ctype) : bool :=
  match a, b with
  | course, course | config, config | menu, menu | page, page
  | article, article | block, block | component, component => true
  | _, _ => false
  end.

Definition layout_eqb (a b : layout) : bool :=
  match a, b with
  | Lfull, Lfull | Lleft, Lleft | Lright, Lright => true
  | _, _ => false
  end.

Definition option_eqb {A} (eqb : A -> A -> bool) (a b : option A) : bool :=
  match a, b with
  | Some x, Some y => eqb x y
  | None, None => true
  | _, _ => false
  end.

Definition oid_eqb : option Id -> option Id -> bool := option_eqb Nat.eqb.
Definition plugin_eqb : plugin -> plugin -> bool := option_eqb String.eqb.

(** [l.includes(x)] *)
Definition includes {A} (eqb : A -> A -> bool) (l : list A) (x : A) : bool :=
  existsb (eqb x) l.

(** [Array.from(new Set(l))]: first occurrences, in order. *)
Fixpoint uniq {A} (eqb : A -> A -> bool) (seen l : list A) : list A :=
  match l with
  | [] => []
  | x :: l' => if includes eqb seen x then uniq eqb seen l'
               else x :: uniq eqb (seen ++ [x]) l'
  end.

(** ** The store and the monad *)

Inductive error : Type :=
  | NOT_FOUND          (* app.errors.NOT_FOUND *)
  | INVALID_PARENT     (* app.errors.INVALID_PARENT *)
  | ValidationFailure  (* raised by the schema collaborator *)
  | PlainError         (* a bare [Error()] with no code *)
  | TypeError          (* a property read on [undefined] *)
  | OutOfFuel.         (* the call does not return *)

Inductive Write : Type :=
  | WInsert (doc : ContentNode)
  | WUpdate (i : option Id) (d : Delta)
  | WDelete (i : option Id).

(** [docs] is the collection; [nextId] the next identifier the store will
    assign; [writes] the history of store writes, oldest first. *)
Record Store : Type := mkStore {
  docs : list ContentNode;
  nextId : Id;
  writes : list Write
}.

Inductive outcome (A : Type) : Type :=
  | Ok (a : A)
  | Throw (e : error).
Arguments Ok {A} a.
Arguments Throw {A} e.

Definition M (A : Type) : Type := Store -> outcome A * Store.

Definition ret {A} (a : A) : M A := fun s => (Ok a, s).
Definition throw {A} (e : error) : M A := fun s => (Throw e, s).
Definition bind {A B} (m : M A) (k : A -> M B) : M B :=
  fun s => match m s with
           | (Ok a, s') => k a s'
           | (Throw e, s') => (Throw e, s')
           end.

Notation "x <- m ;; k" := (bind m (fun x => k))
  (at level 61, m at next level, right associativity).
Notation "m ;;; k" := (bind m (fun _ => k))
  (at level 61, right associativity).

(** [await Promise.all([a, b])] for two tasks that touch disjoint fields:
    both run, also when the first one rejects; the first rejection wins. *)
Definition both (a b : M unit) : M unit :=
  fun s => match a s with
           | (Ok _, s1) => b s1
           | (Throw e, s1) => (Throw e, snd (b s1))
           end.

Definition when (c : bool) (m : M unit) : M unit := if c then m else ret tt.

(** A query is the predicate it denotes. *)
Definition Query := ContentNode -> bool.

Definition by_id (i : option Id) : Query := fun n => oid_eqb (_id n) i.
Definition by_parent (p : option Id) : Query := fun n => oid_eqb (_parentId n) p.
Definition by_course (c : option Id) : Query := fun n => oid_eqb (_courseId n) c.
Definition by_type (t : ctype) : Query := fun n => ctype_eqb (_type n) t.
Definition qand (p q : Query) : Query := fun n => p n && q n.
Definition qnot (p : Query) : Query := fun n => negb (p n).

(** [this.find(query)]: all matches, in natural order. *)
Definition find (q : Query) : M (list ContentNode) :=
  fun s => (Ok (filter q (docs s)), s).

(** Replace the first element satisfying [q]. *)
Fixpoint replaceFirst (q : Query) (f : ContentNode -> ContentNode)
    (l : list ContentNode) : option (ContentNode * list ContentNode) :=
  match l with
  | [] => None
  | x :: l' =>
      if q x then Some (f x, f x :: l')
      else match replaceFirst q f l' with
           | Some (y, r) => Some (y, x :: r)
           | None => None
           end
  end.

(** Remove the first element satisfying [q]. *)
Fixpoint removeFirst (q : Query) (l : list ContentNode) : list ContentNode :=
  match l with
  | [] => []
  | x :: l' => if q x then l' else x :: removeFirst q l'
  end.

(** ** Sorting *)

(** The store's ascending sort on [_sortOrder] ([sort: { _sortOrder: 1 }]):
    a missing value sorts before every number, ties keep natural order. *)
Definition so_leb (a b : option Z) : bool :=
  match a, b with
  | None, _ => true
  | Some _, None => false
  | Some x, Some y => x <=? y
  end.

(** lodash's [_.sortBy(l, '_sortOrder')]: [undefined] sorts last. *)
Definition lodash_leb (a b : option Z) : bool :=
  match a, b with
  | _, None => true
  | None, Some _ => false
  | Some x, Some y => x <=? y
  end.

Fixpoint insertBy (leb : option Z -> option Z -> bool) (x : ContentNode)
    (l : list ContentNode) : list ContentNode :=
  match l with
  | [] => [x]
  | y :: l' => if leb (_sortOrder x) (_sortOrder y) then x :: l
               else y :: insertBy leb x l'
  end.

Definition sortBy (leb : option Z -> option Z -> bool) (l : list ContentNode)
    : list ContentNode :=
  fold_right (insertBy leb) [] l.

(** [l.splice(i, 0, x)] for [i >= 0]: past the end it appends. *)
Definition splice {A} (i : nat) (x : A) (l : list A) : list A :=
  firstn i l ++ x :: skipn i l.

(** [l.indexOf(x)], [-1] when absent. *)
Fixpoint indexOf (x : ctype) (l : list ctype) : Z :=
  match l with
  | [] => -1
  | y :: l' => if ctype_eqb y x then 0
               else let r := indexOf x l' in if r <? 0 then -1 else r + 1
  end.

(** [l.slice(a, b)] for [0 <= a]. *)
Definition slice {A} (a b : Z) (l : list A) : list A :=
  firstn (Z.to_nat (b - a)) (skipn (Z.to_nat a) l).

Definition type_name (t : ctype) : string :=
  match t with
  | course => "course" | config => "config" | menu => "menu" | page => "page"
  | article => "article" | block => "block" | component => "component"
  end%string.

Definition isSome {A} (o : option A) : bool :=
  match o with Some _ => true | None => false end.

(** JS truthiness of a string-or-undefined. *)
Definition truthy (o : option string) : bool :=
  match o with
  | Some s => negb (String.eqb s ""%string)
  | None => false
  end.

(** [options] as the module reads it. *)
Record Options : Type := mkOptions {
  o_updateSortOrder : bool;        (* [options.updateSortOrder !== false] *)
  o_updateEnabledPlugins : bool;   (* [options.updateEnabledPlugins !== false] *)
  o_stringLocalisation : option string
}.

Definition noOptions : Options := mkOptions true true None.

(** ** The document store adapter *)

Section ContentModule.

(** Collaborators outside the module. *)
Variable validate : ContentNode -> bool.
Variable extensionNames : list plugin.
Variable getPluginSchemas : plugin -> list string.
Variable schemaSource : string -> option string.
Variable translate : option string -> string -> string.
Variable defaultLanguage : option string.

(** Modelled from the spec: [AbstractApiModule.insert] (package
    adapt-authoring-api, section 6 "insert(partialNode) -> ContentNode:
    assigns _id, persists, returns full node"); a payload the schema
    collaborator rejects fails with a validation error and stores nothing. *)
Definition super_insert (data : ContentNode) : M ContentNode :=
  fun s =>
    if validate data then
      let doc := set_id (Some (nextId s)) data in
      (Ok doc, mkStore (docs s ++ [doc]) (S (nextId s)) (writes s ++ [WInsert doc]))
    else (Throw ValidationFailure, s).

(** Modelled from the spec: [AbstractApiModule.update] (section 6
    "update(idOrQuery, delta) -> ContentNode: applies shallow field merge,
    returns updated node"), on the first match; no match is [NOT_FOUND]. *)
Definition super_update (q : Query) (d : Delta) : M ContentNode :=
  fun s =>
    match replaceFirst q (fun n => assign n d) (docs s) with
    | Some (doc, l) => (Ok doc, mkStore l (nextId s) (writes s ++ [WUpdate (_id doc) d]))
    | None => (Throw NOT_FOUND, s)
    end.

(** Modelled from the spec: [AbstractApiModule.delete] by [_id] (section 6
    "delete(idOrQuery) -> void"); deleting an absent document is not an
    error. *)
Definition super_delete (i : option Id) : M unit :=
  fun s => (Ok tt, mkStore (removeFirst (by_id i) (docs s)) (nextId s)
                     (writes s ++ [WDelete i])).

(** [findSiblings(parentId, excludeId)] with the default [shouldSort]. *)
Definition findSiblings (parentId : option Id) (excludeId : option Id)
    : M (list ContentNode) :=
  l <- find (match excludeId with
             | Some _ => qand (by_parent parentId) (qnot (by_id excludeId))
             | None => by_parent parentId
             end) ;;
  ret (sortBy so_leb l).

(** ** Sort-order maintainer *)

(** The numbering loop of [updateSortOrder], from index [s]. *)
Fixpoint renumber (s : nat) (siblings : list ContentNode) : M unit :=
  match siblings with
  | [] => ret tt
  | sibling :: rest =>
      let so := Some (Z.of_nat s + 1) in
      (if option_eqb Z.eqb (_sortOrder sibling) so then ret tt
       else super_update (by_id (_id sibling)) (dSortOrder so) ;;; ret tt) ;;;
      renumber (S s) rest
  end.

(** [updateData] is only tested for truthiness: [true] for insert and
    update, [false] for deletion. *)
Definition updateSortOrder (item : ContentNode) (updateData : bool) : M unit :=
  if ctype_eqb (_type item) config || ctype_eqb (_type item) course
     || negb (isSome (_parentId item))
  then ret tt
  else
    found <- find (by_id (_parentId item)) ;;
    siblings <-
      (if updateData then
         sibs <- findSiblings (_parentId item) (_id item) ;;
         let newSO :=
           match _sortOrder item with
           | Some k => if k - 1 >? -1 then Z.to_nat (k - 1) else length sibs
           | None => length sibs
           end in
         ret (splice newSO item sibs)
       else
         match found with
         | parent :: _ => findSiblings (_id parent) None
         | [] => throw TypeError
         end) ;;
    renumber 0 siblings.

(** ** Plugin-usage reconciler *)

Definition pushType (m : list string) (t : option string) : list string :=
  let name := orElse t ""%string in
  if truthy t && negb (String.eqb name "component"%string)
     && negb (includes String.eqb m name)
  then m ++ [name] else m.

Definition schemaTypes (types : list string) (pluginSchemaName : string)
    : list string :=
  let type := schemaSource pluginSchemaName in
  fold_left pushType
    (if option_eqb String.eqb type (Some "contentobject"%string)
     then [Some "menu"; Some "page"]%string else [type])
    types.

(** [Promise.all(l.map(f))] for store calls. *)
Fixpoint allOf (l : list (M unit)) : M unit :=
  match l with
  | [] => ret tt
  | m :: l' => both m (allOf l')
  end.

(** The candidate [_enabledPlugins] of a course. *)
Definition candidatePlugins (cfg : ContentNode) (contentItems : list ContentNode)
    : list plugin :=
  uniq plugin_eqb []
    (filter (includes plugin_eqb extensionNames) (_enabledPlugins cfg)
     ++ map _component (filter (by_type component) contentItems)
     ++ [_menu cfg; _theme cfg]).

Definition updateEnabledPlugins (item : ContentNode) (forceUpdate : bool) : M unit :=
  let courseId := _courseId item in
  contentItems <- find (by_course courseId) ;;
  match List.find (by_type config) contentItems with
  | None => ret tt
  | Some cfg =>
      let enabled := candidatePlugins cfg contentItems in
      if negb forceUpdate
         && (length (_enabledPlugins cfg) =? length enabled)%nat
         && forallb (includes plugin_eqb enabled) (_enabledPlugins cfg)
      then ret tt
      else
        let types :=
          fold_left schemaTypes
            (flat_map getPluginSchemas
               (filter (fun p => forceUpdate
                                 || negb (includes plugin_eqb (_enabledPlugins cfg) p))
                       enabled))
            [] in
        super_update (qand (by_course courseId) (by_type config))
                     (dEnabledPlugins enabled) ;;;
        if (0 <? length types)%nat then
          toUpdate <- find (qand (by_course courseId)
                              (fun n => includes String.eqb types (type_name (_type n)))) ;;
          allOf (map (fun c => super_update (by_id (_id c)) emptyDelta ;;; ret tt) toUpdate)
        else ret tt
  end.

(** ** insert, update, delete *)

Definition update (query : Query) (data : Delta) : M ContentNode :=
  doc <- super_update query data ;;
  both (updateSortOrder doc true)
       (updateEnabledPlugins doc (isSome (d_enabledPlugins data))) ;;;
  ret doc.

Definition insert (data : ContentNode) (options : Options) : M ContentNode :=
  let isCourse := ctype_eqb (_type data) course in
  let isConfig := ctype_eqb (_type data) config in
  (if negb isCourse && negb isConfig then
     found <- find (by_id (_parentId data)) ;;
     match found with
     | [] => throw PlainError
     | _ => ret tt
     end
   else ret tt) ;;;
  doc <- super_insert data ;;
  if isCourse then
    update (by_id (_id doc)) (dCourseId (_id doc))
  else
    both (when (o_updateSortOrder options) (updateSortOrder doc true))
         (when (o_updateEnabledPlugins options) (updateEnabledPlugins doc false)) ;;;
    ret doc.

(** ** Hierarchy navigator *)

(** One round of the [reduce] in [getDescendants]: the children, among
    [courseItems], of every item of the frontier.  [i._id.toString()] is
    evaluated inside the filter callback, so only when [courseItems] is not
    empty. *)
Fixpoint expand (courseItems items : list ContentNode) : outcome (list ContentNode) :=
  match items with
  | [] => Ok []
  | i :: rest =>
      match courseItems, _id i with
      | _ :: _, None => Throw TypeError
      | _, _ =>
          match expand courseItems rest with
          | Ok r => Ok (filter (by_parent (_id i)) courseItems ++ r)
          | Throw e => Throw e
          end
      end
  end.

(** The [do ... while (items.length)] loop of [getDescendants]; the loop has
    no bound of its own, so the model takes one. *)
Fixpoint bfs (fuel : nat) (courseItems items : list ContentNode)
    : outcome (list ContentNode) :=
  match fuel with
  | O => Throw OutOfFuel
  | S f =>
      match expand courseItems items with
      | Throw e => Throw e
      | Ok [] => Ok []
      | Ok next =>
          match bfs f courseItems next with
          | Ok r => Ok (next ++ r)
          | Throw e => Throw e
          end
      end
  end.

(** The result array may hold [undefined] ([None]): the config lookup is
    pushed as it comes. *)
Definition getDescendants (fuel : nat) (rootItem : ContentNode)
    : M (list (option ContentNode)) :=
  courseItems <- find (by_course (_courseId rootItem)) ;;
  match bfs fuel courseItems [rootItem] with
  | Throw e => throw e
  | Ok ds =>
      let descendants := map Some ds in
      ret (if ctype_eqb (_type rootItem) course
           then descendants ++ [List.find (by_type config) courseItems]
           else descendants)
  end.

(** [l.map(d => super.delete({ _id: d._id }))]: the callback reads [d._id],
    so an [undefined] entry throws after the deletes before it were issued. *)
Fixpoint deleteAll (l : list (option ContentNode)) : M unit :=
  match l with
  | [] => ret tt
  | Some d :: rest => super_delete (_id d) ;;; deleteAll rest
  | None :: _ => throw TypeError
  end.

Definition delete (fuel : nat) (query : Query) : M (list (option ContentNode)) :=
  found <- find query ;;
  match found with
  | [] => throw NOT_FOUND
  | targetDoc :: _ =>
      descendants <- getDescendants fuel targetDoc ;;
      deleteAll (descendants ++ [Some targetDoc]) ;;;
      both (updateEnabledPlugins targetDoc false)
           (updateSortOrder targetDoc false) ;;;
      ret (Some targetDoc :: descendants)
  end.

Definition otype_eqb (t : ctype) (o : option ctype) : bool :=
  match o with Some u => ctype_eqb t u | None => false end.

Fixpoint descendToType (fuel : nat) (node : ContentNode) (type : option ctype)
    : M ContentNode :=
  match fuel with
  | O => throw OutOfFuel
  | S f =>
      children <- find (by_parent (_id node)) ;;
      match rev (sortBy lodash_leb children) with
      | [] => ret node
      | lastChild :: _ =>
          if otype_eqb (_type lastChild) type then ret lastChild
          else descendToType f lastChild type
      end
  end.

Fixpoint ascendToType (fuel : nat) (node : ContentNode) (type : option ctype)
    : M ContentNode :=
  match fuel with
  | O => throw OutOfFuel
  | S f =>
      found <- find (by_id (_parentId node)) ;;
      match rev found with
      | [] => throw INVALID_PARENT
      | parent :: _ =>
          if otype_eqb (_type parent) type then ret parent
          else ascendToType f parent type
      end
  end.

(** ** Tree mutation engine *)

Definition dTitle (t : string) : Delta :=
  mkDelta None None None None None None None None None None None (Some (Some t))
    None None None.

Definition defaultData (loc : option string) (t : ctype) : Delta :=
  match t with
  | page => dTitle (translate loc "app.newpagetitle")
  | article => dTitle (translate loc "app.newarticletitle")
  | block => dTitle (translate loc "app.newblocktitle")
  | component =>
      mkDelta None None None None (Some (Some Lfull))
        (Some (Some "adapt-contrib-text"%string)) None None None None None
        (Some (Some (translate loc "app.newtextcomponenttitle")))
        (Some (Some (translate loc "app.newtextcomponentbody"))) None None
  | _ => emptyDelta
  end.

Definition dCreatedBy (u : option string) : Delta :=
  mkDelta None None None None None None None None None None (Some u) None None None None.

(** [{ _parentId, _courseId, _lang }] as [insertRecursive] sets them. *)
Definition dPlace (p c : option Id) (lang : option string) : Delta :=
  mkDelta None (Some p) (Some c) None None None None None None None None None None
    (Some lang) None.

Definition dDefaultLanguage (l : option string) : Delta :=
  mkDelta None None None None None None None None None None None None None None (Some l).

(** The [for (const _type of childTypes)] loop of [insertRecursive]; [acc]
    is [newItems] so far. *)
Fixpoint insertChain (childTypes : list ctype) (parent : option ContentNode)
    (createdBy' : option string) (customData : Delta) (options : Options)
    (acc : list ContentNode) : M (list ContentNode) :=
  match childTypes with
  | [] => ret acc
  | t :: rest =>
      let loc := match o_stringLocalisation options with
                 | Some l => Some l
                 | None => defaultLanguage
                 end in
      let data := assign (assign (blank t) (dCreatedBy createdBy')) (defaultData loc t) in
      match parent with
      | None => throw TypeError
      | Some p =>
          match _id p, _courseId p with
          | Some pid, Some cid =>
              let data := assign (assign data (dPlace (Some pid) (Some cid) (_lang p)))
                                 customData in
              let data :=
                if ctype_eqb t config
                then assign data (dDefaultLanguage
                                    (if truthy (_lang p) then _lang p else defaultLanguage))
                else data in
              item <- insert data options ;;
              insertChain rest (if ctype_eqb t config then parent else Some item)
                          createdBy' emptyDelta options (acc ++ [item])
          | _, _ => throw TypeError
          end
      end
  end.

Definition fullHierarchy : list ctype := [course; menu; page; article; block; component].

Definition insertRecursive (rootId : option Id) (createdBy' : option string)
    (customData : Delta) (isMenu : bool) (childTypes : option (list ctype))
    (options : Options) : M (list ContentNode) :=
  match rootId with
  | None =>
      parent <- insert (assign (assign (blank course) (dCreatedBy createdBy')) customData)
                       noOptions ;;
      insertChain [config; page; article; block; component] (Some parent)
                  createdBy' emptyDelta options [parent]
  | Some _ =>
      found <- find (by_id rootId) ;;
      let parent := hd_error found in
      match childTypes with
      | Some ts => insertChain ts parent createdBy' customData options []
      | None =>
          if isMenu then
            insertChain (tl fullHierarchy) parent createdBy' customData options []
          else
            match parent with
            | None => throw TypeError
            | Some p =>
                let ts := if ctype_eqb (_type p) course
                          then [course; page; article; block; component]
                          else fullHierarchy in
                insertChain (slice (indexOf (_type p) ts + 1) (Z.of_nat (length ts)) ts)
                            parent createdBy' customData options []
            end
      end
  end.

(** [userId.toString()]: a [TypeError] when [userId] is [undefined]. *)
Definition toString (u : option string) : M (option string) :=
  match u with
  | Some _ => ret u
  | None => throw TypeError
  end.

Definition oindexOf (t : option ctype) (l : list ctype) : Z :=
  match t with Some u => indexOf u l | None => -1 end.

Definition constructToType (node : ContentNode) (type : option ctype)
    (userId : option string) (options : Options) : M (list ContentNode) :=
  let typeHierarchy := [course; page; article; block; component] in
  let filteredTypes :=
    slice (indexOf (_type node) typeHierarchy + 1) (oindexOf type typeHierarchy + 1)
          typeHierarchy in
  createdBy' <- toString userId ;;
  insertRecursive (_id node) createdBy' emptyDelta false (Some filteredTypes) options.

(** [cut]: [_courseId] is not part of the update. *)
Definition cut (parent child : ContentNode) (sortOrder : option Z) : M ContentNode :=
  match _id parent with
  | None => throw TypeError
  | Some pid => update (by_id (_id child)) (dCut (Some pid) sortOrder)
  end.

(** [append]: [stringifyValues] is the identity on this data model, and
    [schemaName] only tells the schema collaborator what to validate against. *)
Definition append (parent : option ContentNode) (child : ContentNode) (isCut : bool)
    (options : Options) : M ContentNode :=
  match parent with
  | None => throw TypeError
  | Some p =>
      if isCut then cut p child (_sortOrder child)
      else
        insert (assign child (mkDelta None (Some (_id p)) (Some (_courseId p)) None None
                                None None None None None None None None None None))
               options
  end.

Definition hasLayout (l : layout) : Query :=
  fun n => option_eqb layout_eqb (_layout n) (Some l).

Definition dLayout (l : layout) : Delta :=
  mkDelta None None None None (Some (Some l)) None None None None None None None None
    None None.

(** In the cut branch the source passes [options] where [cut] expects
    [sortOrder]; with no options given that is [undefined]. *)
Definition appendToBlock (block' : ContentNode) (component' : ContentNode)
    (userId : option string) (isCut : bool) (options : Options) : M ContentNode :=
  children <- find (by_parent (_id block')) ;;
  let leftChild := List.find (hasLayout Lleft) children in
  let rightChild := List.find (hasLayout Lright) children in
  placed <-
    (if isSome leftChild && negb (isSome rightChild) then
       ret (Some block', assign component' (dLayout Lright))
     else if negb (isSome leftChild) && isSome rightChild then
       ret (Some block', assign component' (dLayout Lleft))
     else if (0 <? length children)%nat then
       createdBy' <- toString userId ;;
       created <- insertRecursive (_parentId block') createdBy'
                    (dSortOrder (option_map (fun k => k + 1) (_sortOrder block')))
                    false (Some [block]) options ;;
       ret (hd_error created, component')
     else ret (Some block', component')) ;;
  let (target, comp) := placed in
  if isCut then
    match target with
    | None => throw TypeError
    | Some b => cut b comp None
    end
  else append target comp isCut options.

(** [l[i]] for an integer index, [undefined] out of range. *)
Definition at_index (l : list ctype) (i : Z) : option ctype :=
  if i <? 0 then None else nth_error l (Z.to_nat i).

(** JS truthiness of a number-or-undefined. *)
Definition truthyNum (o : option Z) : bool :=
  match o with Some k => negb (k =? 0) | None => false end.

(** [{ ...originalDoc, _trackingId: undefined, createdBy: userId }] *)
Definition dCloneBase (userId : option string) : Delta :=
  mkDelta None None None None None None None None None (Some None) (Some userId)
    None None None None.

(** [clone]; [customData] and [globalData] default to [{}].  Identifiers are
    compared by value, as the strings the request handlers pass.  The
    recursion follows the stored tree, so the model bounds it. *)
Fixpoint clone (fuel : nat) (userId : option string) (id parentId : option Id)
    (customData globalData : Delta) (isCut : bool) (options : Options)
    : M ContentNode :=
  match fuel with
  | O => throw OutOfFuel
  | S f =>
      found <- find (by_id id) ;;
      match found with
      | [] => throw NOT_FOUND
      | originalDoc :: _ =>
          parents <- (if isSome parentId then find (by_id parentId) else ret []) ;;
          let isComponent := ctype_eqb (_type originalDoc) component in
          newData <-
            match parents with
            | [] =>
                if negb (ctype_eqb (_type originalDoc) course)
                   && negb (ctype_eqb (_type originalDoc) config)
                then throw INVALID_PARENT
                else
                  (* clone course/config *)
                  insert (assign (assign (assign
                            (set_id None originalDoc)
                            (mkDelta None (Some parentId) (Some None) None None None None
                               None None (Some None) (Some userId) None None None None))
                            customData) globalData)
                         options
            | parent :: _ =>
                let typeHierarchy := fullHierarchy in
                let sourceType := _type originalDoc in
                let indexOfSourceType := indexOf (_type originalDoc) typeHierarchy in
                let indexOfMenuType := indexOf menu typeHierarchy in
                let indexOfPageType := indexOf page typeHierarchy in
                let indexOfGivenTargetType := indexOf (_type parent) typeHierarchy in
                let requiredTargetType := at_index typeHierarchy (indexOfSourceType - 1) in
                let isGivenTargetGrandparentType :=
                  indexOfGivenTargetType <? indexOfSourceType - 1 in
                let proposedData0 :=
                  assign (assign (assign originalDoc (dCloneBase userId)) customData)
                         globalData in
                let proposedData :=
                  if isCut then proposedData0 else set_id None proposedData0 in
                let isSourceMenu := indexOfSourceType =? indexOfMenuType in
                let isSourcePage := indexOfSourceType =? indexOfPageType in
                let isGivenTargetMenu := indexOfGivenTargetType =? indexOfMenuType in
                let isCloneMenuIntoMenu := isSourceMenu && isGivenTargetMenu in
                let isClonePageIntoAncestor :=
                  isSourcePage && (indexOfGivenTargetType <? indexOfPageType) in
                let isCloneChildIntoParent :=
                  indexOfGivenTargetType =? indexOfSourceType - 1 in
                if isCloneMenuIntoMenu || isClonePageIntoAncestor || isCloneChildIntoParent
                then
                  (* scenario 1 *)
                  if isComponent
                  then appendToBlock parent proposedData userId isCut options
                  else append (Some parent) proposedData isCut options
                else if isGivenTargetGrandparentType then
                  (* scenario 2 *)
                  let withOrder := truthyNum (orElse (d_sortOrder customData) None) in
                  let proposedData :=
                    if withOrder then assign proposedData (dSortOrder None)
                    else proposedData in
                  node <-
                    (if withOrder then
                       createdBy' <- toString userId ;;
                       created <- insertRecursive parentId createdBy'
                                    (dSortOrder (orElse (d_sortOrder customData) None))
                                    false
                                    (Some (match at_index typeHierarchy
                                                   (indexOfGivenTargetType + 1) with
                                           | Some t => [t]
                                           | None => []
                                           end))
                                    options ;;
                       ret (hd_error created)
                     else
                       n <- descendToType f parent requiredTargetType ;;
                       ret (Some n)) ;;
                  match node with
                  | None => throw TypeError
                  | Some node =>
                      if negb (otype_eqb (_type node) requiredTargetType) then
                        built <- constructToType node requiredTargetType userId options ;;
                        append (hd_error (rev built)) proposedData isCut options
                      else if isComponent
                      then appendToBlock node proposedData userId isCut options
                      else append (Some node) proposedData isCut options
                  end
                else
                  (* scenario 3 *)
                  ancestorOfSourceType <- ascendToType f parent (Some sourceType) ;;
                  node <- ascendToType f parent requiredTargetType ;;
                  if isComponent
                  then appendToBlock node proposedData userId isCut options
                  else append (Some node)
                         (assign proposedData
                            (dSortOrder (option_map (fun k => k + 1)
                                           (_sortOrder ancestorOfSourceType))))
                         isCut options
            end ;;
          if isCut then ret newData
          else
            children <- find (by_parent id) ;;
            let children := filter (fun i => negb (oid_eqb (_id i) (_id newData))) children in
            (fix each (l : list ContentNode) : M unit :=
               match l with
               | [] => ret tt
               | c :: rest =>
                   clone f userId (_id c) (_id newData) emptyDelta globalData false options ;;;
                   each rest
               end) children ;;;
            ret newData
      end
  end.

(** [crossCourseCut]: copy under the target, then delete the source; no
    [globalData] and no [options] are passed on.  The bound serves the copy
    and the deletion alike. *)
Definition crossCourseCut (fuel : nat) (userId : option string) (id parentId : option Id)
    (customData : Delta) : M ContentNode :=
  newData <- clone fuel userId id parentId customData emptyDelta false noOptions ;;
  delete fuel (by_id id) ;;;
  ret newData.

End ContentModule.

(** ** Schema resolution *)

(** The keys [getSchemaName] and [getSchema] read from their [data]; [None]
    is an absent key. *)
Record SchemaData : Type := mkSchemaData {
  s_id : option Id;
  s_type : option ctype;
  s_component : plugin;
  s_courseId : option Id
}.

(** [str.slice(1)] *)
Definition slice1 (str : string) : string :=
  match str with
  | EmptyString => EmptyString
  | String _ rest => rest
  end.

(** [try { x = await m } catch (e) {}]: on a throw [x] keeps its value. *)
Definition attempt {A} (m : M A) (x : A) : M A :=
  fun s => match m s with
           | (Ok a, s') => (Ok a, s')
           | (Throw _, s') => (Ok x, s')
           end.

Section Schemas.

(** Collaborators: [super.getSchemaName], the [targetAttribute] of the first
    content plugin of a given name, the schemas a plugin registers, and the
    test for a plugin schema. *)
Variable superSchemaName : SchemaData -> string.
Variable pluginTarget : plugin -> option string.
Variable getPluginSchemas : plugin -> list string.
Variable isPluginSchema : string -> bool.

Definition getSchemaName (data : SchemaData) : M (option string) :=
  let defaultSchemaName := superSchemaName data in
  known <-
    (if isSome (s_id data)
        && (negb (isSome (s_type data)) || negb (truthy (s_component data)))
     then
       found <- find (by_id (s_id data)) ;;
       match found with
       | item :: _ => ret (Some (_type item), _component item)
       | [] => ret (s_type data, s_component data)
       end
     else ret (s_type data, s_component data)) ;;
  let (type, comp) := known : option ctype * plugin in
  if negb (isSome type) && negb (truthy comp) then ret (Some defaultSchemaName)
  else if negb (otype_eqb component type) then
    ret (if otype_eqb page type || otype_eqb menu type
         then Some "contentobject"%string
         else option_map type_name type)
  else
    ret (match pluginTarget comp with
         | Some targetAttribute => Some (slice1 targetAttribute ++ "-component")%string
         | None => Some defaultSchemaName
         end).

(** [getSchema]: the two arguments it hands to [jsonschema.getSchema], the
    schema name and the [extensionFilter]. *)
Definition getSchema (schemaName : option string) (data : SchemaData)
    : M (option string * (string -> bool)) :=
  schemaName <- attempt (getSchemaName data) schemaName ;;
  courseId <-
    (match s_courseId data with
     | Some c => ret (Some c)
     | None =>
         if isSome (s_id data) then
           found <- find (by_id (s_id data)) ;;
           ret (match found with
                | item :: _ => _courseId item
                | [] => None
                end)
         else ret None
     end) ;;
  enabledPluginSchemas <-
    (if isSome courseId then
       attempt
         (found <- find (qand (by_type config) (by_course courseId)) ;;
          match found with
          | cfg :: _ => ret (flat_map getPluginSchemas (_enabledPlugins cfg))
          | [] => throw TypeError
          end)
         []
     else ret []) ;;
  ret (schemaName,
       fun s => if isPluginSchema s then includes String.eqb enabledPluginSchemas s
                else true).

End Schemas.

(** * Specification vocabulary *)

(** With unique identifiers, an update by [_id] is a [map]. *)
Definition onId (i : option Id) (f : ContentNode -> ContentNode) (n : ContentNode)
    : ContentNode :=
  if oid_eqb (_id n) i then f n else n.

(** The parent links of [l] have no cycle: some rank, bounded by [B],
    strictly grows from parent to child. *)
Definition ranked (rk : option Id -> nat) (B : nat) (l : list ContentNode) : Prop :=
  forall c, In c l ->
    _id c <> None /\ (rk (_parentId c) < rk (_id c))%nat /\ (rk (_id c) <= B)%nat.

(** [holds P R m]: started in a store satisfying [P], the computation [m]
    leaves a store related to the initial one by [R], whether it returns or
    throws. *)
Definition holds {A} (P : Store -> Prop) (R : Store -> Store -> Prop) (m : M A)
    : Prop :=
  forall s, P s -> R s (snd (m s)).

(** Documents keep their place and change only as [rel] allows; nothing is
    inserted or deleted. *)
Definition revises (rel : ContentNode -> ContentNode -> Prop) (s s' : Store) : Prop :=
  nextId s' = nextId s /\ Forall2 rel (docs s) (docs s').

(** A computation that only revises documents in place, each as [rel] allows. *)
Definition revising (rel : ContentNode -> ContentNode -> Prop) {A} (m : M A) : Prop :=
  holds (fun _ => True) (revises rel) m.

(** What [renumber k sibs] makes of a stored document [n]: the entry of
    [sibs] with the same [_id], if any, decides. *)
Fixpoint numbered (k : nat) (sibs : list ContentNode) (n : ContentNode) : ContentNode :=
  match sibs with
  | [] => n
  | x :: rest =>
      if oid_eqb (_id n) (_id x) then
        if option_eqb Z.eqb (_sortOrder x) (Some (Z.of_nat k + 1)) then n
        else assign n (dSortOrder (Some (Z.of_nat k + 1)))
      else numbered (S k) rest n
  end.

(** The writes [renumber k sibs] issues. *)
Fixpoint renumberWrites (k : nat) (sibs : list ContentNode) : list Write :=
  match sibs with
  | [] => []
  | x :: rest =>
      (if option_eqb Z.eqb (_sortOrder x) (Some (Z.of_nat k + 1)) then []
       else [WUpdate (_id x) (dSortOrder (Some (Z.of_nat k + 1)))])
      ++ renumberWrites (S k) rest
  end.

Definition needsOrder (item : ContentNode) : bool :=
  negb (ctype_eqb (_type item) config || ctype_eqb (_type item) course
        || negb (isSome (_parentId item))).

(** The sibling list the insert/update branch numbers. *)
Definition upsertOrder (item : ContentNode) (l : list ContentNode) : list ContentNode :=
  let sibs := sortBy so_leb
                (filter (qand (by_parent (_parentId item)) (qnot (by_id (_id item)))) l) in
  splice (match _sortOrder item with
          | Some k => if k - 1 >? -1 then Z.to_nat (k - 1) else length sibs
          | None => length sibs
          end) item sibs.

(** The sibling list the deletion branch numbers. *)
Definition deleteOrder (p : option Id) (l : list ContentNode) : list ContentNode :=
  sortBy so_leb (filter (by_parent p) l).

Definition soLe (a b : ContentNode) : Prop :=
  so_leb (_sortOrder a) (_sortOrder b) = true.
Definition soLt (a b : ContentNode) : Prop :=
  so_leb (_sortOrder b) (_sortOrder a) = false.

Inductive sorted (r : ContentNode -> ContentNode -> Prop) : list ContentNode -> Prop :=
  | sorted_nil : sorted r []
  | sorted_cons x l : Forall (r x) l -> sorted r l -> sorted r (x :: l).

(** The list [updateSortOrder] numbers, in list order. *)
Definition orderOf (item : ContentNode) (updateData : bool) (l : list ContentNode)
    : list ContentNode :=
  if updateData then upsertOrder item l else deleteOrder (_parentId item) l.

(** "Identical as a set": same size, same membership. *)
Definition sameSet (a b : list plugin) : Prop :=
  length a = length b /\ forall p, In p a <-> In p b.

(** The documents whose [_parentId] is [p] carry exactly the sort orders
    [1..N]. *)
Definition contiguous (l : list ContentNode) (p : option Id) : Prop :=
  Permutation (map _sortOrder (filter (by_parent p) l))
              (map (fun k => Some (Z.of_nat k)) (seq 1 (length (filter (by_parent p) l)))).

(** Documents that agree on [_parentId] and [_sortOrder], place by place. *)
Definition sameOrder (n n' : ContentNode) : Prop :=
  _id n' = _id n /\ _parentId n' = _parentId n /\ _sortOrder n' = _sortOrder n.

(** Store well-formedness: identifiers are unique and were issued by the
    store. *)
Definition WF (s : Store) : Prop :=
  NoDup (map _id (docs s))
  /\ forall n, In n (docs s) -> exists i, _id n = Some i /\ (i < nextId s)%nat.

Inductive Mutation : Type :=
  | MInsert (data : ContentNode) (options : Options)
  | MUpdate (query : Query) (data : Delta)
  | MDelete (fuel : nat) (query : Query).

Section Mutations.

Variable validate : ContentNode -> bool.
Variable extensionNames : list plugin.
Variable getPluginSchemas : plugin -> list string.
Variable schemaSource : string -> option string.

(** Run a mutation; the result is the document it inserted, updated or
    deleted. *)
Definition perform (m : Mutation) : M ContentNode :=
  match m with
  | MInsert data options =>
      insert validate extensionNames getPluginSchemas schemaSource data options
  | MUpdate query data =>
      update extensionNames getPluginSchemas schemaSource query data
  | MDelete fuel query =>
      r <- delete extensionNames getPluginSchemas schemaSource fuel query ;;
      match r with
      | Some targetDoc :: _ => ret targetDoc
      | _ => throw TypeError
      end
  end.


End Mutations.

(** Equal except, possibly, for [_enabledPlugins]. *)
Definition sameButPlugins (n n' : ContentNode) : Prop :=
  n' = assign n (dEnabledPlugins (_enabledPlugins n')).

(** Same [_id], same [_courseId]. *)
Definition sameCourse (n n' : ContentNode) : Prop :=
  _id n' = _id n /\ _courseId n' = _courseId n.

Definition isDelete (w : Write) : bool :=
  match w with WDelete _ => true | _ => false end.

(** [c] is a transitive descendant of [r] among the documents of [l]. *)
Inductive descendant (l : list ContentNode) (r : ContentNode) : ContentNode -> Prop :=
  | desc_child c : In c l -> _parentId c = _id r -> descendant l r c
  | desc_step m c :
      In m l -> _parentId m = _id r -> descendant l m c -> descendant l r c.

(** Whether [n] is one of the documents of [l], by [_id]. *)
Definition among (l : list ContentNode) (n : ContentNode) : bool :=
  existsb (fun d => oid_eqb (_id n) (_id d)) l.

Definition sameId (n n' : ContentNode) : Prop := _id n' = _id n.


(** What one renumbering followed by the plugin reconciler keeps of a
    document. *)
Definition tracks (L : list ContentNode) (n n' : ContentNode) : Prop :=
  _id n' = _id n /\ _type n' = _type n /\ _parentId n' = _parentId n
  /\ _layout n' = _layout n /\ _sortOrder n' = _sortOrder (numbered 0 L n).

(** [{ _parentId, _courseId }] as [append] sets them. *)
Definition dAppend (parent : ContentNode) : Delta :=
  mkDelta None (Some (_id parent)) (Some (_courseId parent)) None None None None None
    None None None None None None None.






Definition loLe (a b : ContentNode) : Prop :=
  lodash_leb (_sortOrder a) (_sortOrder b) = true.

Definition lastChildOf (l : list ContentNode) (n c : ContentNode) : Prop :=
  In c l /\ _parentId c = _id n
  /\ forall c', In c' l -> _parentId c' = _id n ->
                lodash_leb (_sortOrder c') (_sortOrder c) = true.

Inductive lastLine (l : list ContentNode) (n : ContentNode) : ContentNode -> Prop :=
  | last_here : lastLine l n n
  | last_down c r : lastChildOf l n c -> lastLine l c r -> lastLine l n r.

(** Where [updateSortOrder] puts a new document and its siblings-to-be. *)
Definition landing (so : option Z) (N : nat) : nat :=
  Nat.min (match so with
           | Some k => if k - 1 >? -1 then Z.to_nat (k - 1) else N
           | None => N
           end) N.

(** Each created item hangs under the one before it (a config hangs beside),
    in the same course; a course roots its own. *)
Fixpoint linked (parent : ContentNode) (items : list ContentNode) : Prop :=
  match items with
  | [] => True
  | i :: rest =>
      _parentId i = _id parent
      /\ _courseId i = (if ctype_eqb (_type i) course then _id i else _courseId parent)
      /\ linked (if ctype_eqb (_type i) config then parent else i) rest
  end.

(** The chain [insertRecursive] infers below a stored root of type [t]. *)
Definition inferredTypes (t : ctype) : list ctype :=
  match t with
  | course | menu => [page; article; block; component]
  | page => [article; block; component]
  | article => [block; component]
  | block => [component]
  | component => []
  | config => [course; menu; page; article; block; component]
  end.

(** A computation that leaves a well-formed store well-formed, whether it
    returns or throws. *)
Definition keepsWF {A} (m : M A) : Prop :=
  holds (fun _ => True) (fun s s' => WF s -> WF s') m.

(** The list [updateSortOrder] numbers, told from the stored documents [l]
    alone.  On insert or update: the item's other stored siblings in
    ascending [_sortOrder], with the item put in at its landing place.  On
    deletion: the stored siblings in ascending [_sortOrder]. *)
Definition siblingList (item : ContentNode) (updateData : bool)
    (l L : list ContentNode) : Prop :=
  if updateData then
    exists before after,
      L = before ++ item :: after
      /\ Permutation (before ++ after)
           (filter (qand (by_parent (_parentId item)) (qnot (by_id (_id item)))) l)
      /\ sorted soLe (before ++ after)
      /\ length before = landing (_sortOrder item) (length (before ++ after))
  else
    Permutation L (filter (by_parent (_parentId item)) l) /\ sorted soLe L.

(** [n'] is [n] but for its [_sortOrder], and is [n] itself outside the
    sibling group under [p]. *)
Definition renumbered (p : option Id) (n n' : ContentNode) : Prop :=
  n' = assign n (dSortOrder (_sortOrder n'))
  /\ (_parentId n <> p -> n' = n).

(** Neither a course nor a config. *)
Definition isContent (n : ContentNode) : bool :=
  negb (ctype_eqb (_type n) course) && negb (ctype_eqb (_type n) config).

(** The sibling group under [p]: the documents whose [_parentId] is [p],
    courses and configs left out. *)
Definition siblingGroup (l : list ContentNode) (p : Id) : list ContentNode :=
  filter (qand (by_parent (Some p)) isContent) l.

(** The sibling group under [p] carries exactly the sort orders [1..N]. *)
Definition groupOrdered (l : list ContentNode) (p : Id) : Prop :=
  Permutation (map _sortOrder (siblingGroup l p))
              (map (fun k => Some (Z.of_nat k)) (seq 1 (length (siblingGroup l p)))).


(** The sibling groups a mutation leaves without renumbering although they
    lose a member or their parent: the group an update moves its document
    out of, and the documents left behind under a parent that a delete
    removes. *)
Definition vacated (m : Mutation) (s s' : Store) (p : Id) : Prop :=
  match m with
  | MInsert _ _ => False
  | MUpdate query data =>
      exists x, hd_error (filter query (docs s)) = Some x
                /\ _parentId x = Some p /\ _parentId (assign x data) <> Some p
  | MDelete _ _ =>
      In (Some p) (map _id (docs s)) /\ ~ In (Some p) (map _id (docs s'))
      /\ siblingGroup (docs s') p <> []
  end.


(** What identifies a child in its block: [_id], side and position. *)
Definition placed (n : ContentNode) : option Id * option layout * option Z :=
  (_id n, _layout n, _sortOrder n).

(** * Example stores *)

(** A bare document of course 1. *)
Definition c10_doc (i : Id) (t : ctype) (p : option Id) : ContentNode :=
  mkNode (Some i) t p (Some 1%nat) None None None [] None None None None None None
    None None.

(** A course with one page and no config. *)
Definition c10_store : Store :=
  mkStore [c10_doc 1%nat course None; c10_doc 2%nat page (Some 1%nat)] 3%nat [].

(** A course alone. *)
Definition c7_store : Store :=
  mkStore [c10_doc 1%nat course None] 2%nat [].

(** A component whose [_parentId] names no stored document. *)
Definition c7_data : ContentNode :=
  mkNode None component (Some 10%nat) (Some 1%nat) None None None [] None None None
    None None None None None.

(** A stored document with the fields the hierarchy reads. *)
Definition mk (i : Id) (t : ctype) (p c : option Id) (so : option Z)
    (lay : option layout) : ContentNode :=
  mkNode (Some i) t p c so lay None [] None None None None None None None None.
Arguments mk i%_nat t p c so lay.

(** A block stored last among three, with [_sortOrder] 4. *)
Definition c9_item : ContentNode :=
  mk 4 block (Some 1%nat) (Some 9%nat) (Some 4) None.

(** An article with three blocks, the last one out of sequence. *)
Definition c9_store : Store :=
  mkStore [ mk 1 article (Some 8%nat) (Some 9%nat) (Some 1) None;
            mk 2 block (Some 1%nat) (Some 9%nat) (Some 1) None;
            mk 3 block (Some 1%nat) (Some 9%nat) (Some 2) None;
            c9_item ] 5%nat [].

(** A config document. *)
Definition cfgNode (i : Id) (c : option Id) (enabled : list plugin) (m t : plugin)
    : ContentNode :=
  mkNode (Some i) config None c None None None enabled m t None None None None None None.
Arguments cfgNode i%_nat c enabled m t.

(** The installed extensions. *)
Definition c6_ext : list plugin := [Some "adapt-contrib-trickle"%string].

(** A course whose config lists one extension and names a menu and a theme. *)
Definition c6_ok_store : Store :=
  mkStore [ cfgNode 1 (Some 2%nat) [Some "adapt-contrib-trickle"%string]
                    (Some "adapt-contrib-boxMenu"%string) (Some "adapt-contrib-vanilla"%string);
            mk 2 course None (Some 2%nat) None None ] 3%nat [].

(** A config whose list names the same extension twice. *)
Definition c6_store : Store :=
  mkStore [ cfgNode 1 (Some 2%nat)
                    [Some "adapt-contrib-trickle"; Some "adapt-contrib-trickle"]%string
                    (Some "adapt-contrib-boxMenu"%string) (Some "adapt-contrib-boxMenu"%string);
            mk 2 course None (Some 2%nat) None None ] 3%nat [].

(** Two articles under one page; the first holds three blocks. *)
Definition c4_store : Store :=
  mkStore [ mk 1 article (Some 9%nat) (Some 8%nat) (Some 1) None;
            mk 2 article (Some 9%nat) (Some 8%nat) (Some 2) None;
            mk 3 block (Some 1%nat) (Some 8%nat) (Some 1) None;
            mk 4 block (Some 1%nat) (Some 8%nat) (Some 2) None;
            mk 5 block (Some 1%nat) (Some 8%nat) (Some 3) None ] 6%nat [].



(** Course 1 holds block 4 with component 5; course 10 holds article 13. *)
Definition c2_child : ContentNode := mk 4 block (Some 3%nat) (Some 1%nat) (Some 1) None.
Definition c2_parent : ContentNode := mk 13 article (Some 12%nat) (Some 10%nat) (Some 1) None.

Definition c2_store : Store :=
  mkStore [ mk 3 article (Some 2%nat) (Some 1%nat) (Some 1) None;
            c2_child;
            mk 5 component (Some 4%nat) (Some 1%nat) (Some 1) (Some Lfull);
            c2_parent ] 14%nat [].

(** A course with its config. *)
Definition c1_store : Store :=
  mkStore [ mk 1 course None (Some 1%nat) None None;
            cfgNode 2 (Some 1%nat) [] None None ] 3%nat [].

(** A schema collaborator that rejects components. *)
Definition c1_validate (n : ContentNode) : bool :=
  negb (ctype_eqb (_type n) component).

(** A course with its config and one page > article > block > component. *)
Definition c5_article : ContentNode := mk 4 article (Some 3%nat) (Some 1%nat) (Some 1) None.

Definition c5_store : Store :=
  mkStore [ mk 1 course None (Some 1%nat) None None;
            cfgNode 2 (Some 1%nat) [] None None;
            mk 3 page (Some 1%nat) (Some 1%nat) (Some 1) None;
            c5_article;
            mk 5 block (Some 4%nat) (Some 1%nat) (Some 1) None;
            mk 6 component (Some 5%nat) (Some 1%nat) (Some 1) (Some Lfull) ] 7%nat [].

(** Identifiers as ranks: parents were stored before their children. *)
Definition idRank (o : option Id) : nat :=
  match o with Some i => i | None => O end.

(** Article 1 with block 2, which holds one full-width component. *)
Definition c3_article : ContentNode := mk 1 article (Some 9%nat) (Some 8%nat) (Some 1) None.
Definition c3_block : ContentNode := mk 2 block (Some 1%nat) (Some 8%nat) (Some 1) None.


(** The component being pasted. *)
Definition c3_comp : ContentNode :=
  mkNode None component (Some 7%nat) (Some 8%nat) (Some 1) (Some Lfull)
    (Some "adapt-contrib-text"%string) [] None None None None None None None None.

(** Block 2 holding one [left] component. *)
Definition c3_left_store : Store :=
  mkStore [ c3_article; c3_block;
            mk 3 component (Some 2%nat) (Some 8%nat) (Some 1) (Some Lleft) ] 4%nat [].

(** A course with page 3 > article 4 > block 5 > component 6. *)
Definition c8_block : ContentNode := mk 5 block (Some 4%nat) (Some 2%nat) (Some 1) None.

Definition c8_store : Store :=
  mkStore [ cfgNode 1 (Some 2%nat) [] None None;
            mk 2 course None (Some 2%nat) None None;
            mk 3 page (Some 2%nat) (Some 2%nat) (Some 1) None;
            mk 4 article (Some 3%nat) (Some 2%nat) (Some 1) None;
            c8_block;
            mk 6 component (Some 5%nat) (Some 2%nat) (Some 1) (Some Lfull) ] 7%nat [].

(** A block for position 2 of article 1. *)
Definition x_block : ContentNode :=
  mkNode None block (Some 1%nat) (Some 8%nat) (Some 2) None None [] None None None None
    None None None None.

(** An article whose parent is not stored, with one block. *)
Definition x_orphan : ContentNode := mk 5 article (Some 2%nat) (Some 1%nat) (Some 1) None.

Definition x_orphan_store : Store :=
  mkStore [ x_orphan; mk 6 block (Some 5%nat) (Some 1%nat) (Some 1) None ] 7%nat [].

(** The course of [c10_store]. *)
Definition x_root : ContentNode := c10_doc 1%nat course None.

(** The documents of [c5_store] by role. *)
Definition x_course : ContentNode := mk 1 course None (Some 1%nat) None None.
Definition x_page : ContentNode := mk 3 page (Some 1%nat) (Some 1%nat) (Some 1) None.
Definition x_component : ContentNode :=
  mk 6 component (Some 5%nat) (Some 1%nat) (Some 1) (Some Lfull).

(** The article of [c8_store]. *)
Definition x_article : ContentNode := mk 4 article (Some 3%nat) (Some 2%nat) (Some 1) None.

(** The article and the first block of [c4_store]. *)
Definition x_c4_article : ContentNode := mk 1 article (Some 9%nat) (Some 8%nat) (Some 1) None.
Definition x_c4_block : ContentNode := mk 3 block (Some 1%nat) (Some 8%nat) (Some 1) None.

(** A block of article 1 that is no longer stored, and the second block of
    [c9_store]. *)
Definition x_deleted : ContentNode := mk 9 block (Some 1%nat) (Some 9%nat) (Some 3) None.
Definition x_c9_block : ContentNode := mk 3 block (Some 1%nat) (Some 9%nat) (Some 2) None.

(** Article 1 with block 2, which holds component 3, and the empty block 4;
    article 5 is empty. *)
Definition x_leaf_block : ContentNode := mk 4 block (Some 1%nat) (Some 8%nat) (Some 2) None.
Definition x_target : ContentNode :=
  mk 3 component (Some 2%nat) (Some 8%nat) (Some 1) (Some Lfull).

Definition x_empty_article : ContentNode :=
  mk 5 article (Some 9%nat) (Some 8%nat) (Some 2) None.

Definition x_paste_store : Store :=
  mkStore [ c3_article; c3_block; x_target; x_leaf_block; x_empty_article ] 6%nat [].

(** [c5_store] with a second block under article 4 that carries the
    [_courseId] of another course. *)
Definition c5_block : ContentNode := mk 5 block (Some 4%nat) (Some 1%nat) (Some 1) None.
Definition c5_foreign : ContentNode := mk 6 block (Some 4%nat) (Some 7%nat) (Some 2) None.

Definition c5_foreign_store : Store :=
  mkStore [ mk 1 course None (Some 1%nat) None None;
            cfgNode 2 (Some 1%nat) [] None None;
            mk 3 page (Some 1%nat) (Some 1%nat) (Some 1) None;
            c5_article;
            c5_block;
            c5_foreign ] 7%nat [].

(** * Verification *)

(** ** Decidable equalities *)

Lemma ctype_eqb_eq a b : ctype_eqb a b = true <-> a = b.
Proof. destruct a, b; simpl; split; intro H; congruence. Qed.

Lemma oid_eqb_eq a b : oid_eqb a b = true <-> a = b.
Proof.
  destruct a as [x|], b as [y|]; simpl; split; intro H; try congruence.
  - apply Nat.eqb_eq in H. congruence.
  - inversion H. apply Nat.eqb_refl.
Qed.

Lemma oid_eqb_refl a : oid_eqb a a = true.
Proof. apply oid_eqb_eq. reflexivity. Qed.

Lemma oid_eqb_neq a b : oid_eqb a b = false <-> a <> b.
Proof.
  split; intro H.
  - intro E. apply oid_eqb_eq in E. congruence.
  - destruct (oid_eqb a b) eqn:E; [apply oid_eqb_eq in E; contradiction | reflexivity].
Qed.

Lemma plugin_eqb_eq a b : plugin_eqb a b = true <-> a = b.
Proof.
  destruct a as [x|], b as [y|]; simpl; split; intro H; try congruence.
  - apply String.eqb_eq in H. congruence.
  - inversion H. apply String.eqb_refl.
Qed.

(** ** Records and deltas *)

Lemma assign_empty n : assign n emptyDelta = n.
Proof. destruct n; reflexivity. Qed.

Lemma assign_sortOrder_same n : assign n (dSortOrder (_sortOrder n)) = n.
Proof. destruct n; reflexivity. Qed.

Lemma assign_id n d : _id (assign n d) = _id n.
Proof. reflexivity. Qed.

Lemma option_Z_eqb_eq (a b : option Z) : option_eqb Z.eqb a b = true <-> a = b.
Proof.
  destruct a as [x|], b as [y|]; simpl; split; intro H; try congruence.
  - apply Z.eqb_eq in H. congruence.
  - inversion H. apply Z.eqb_refl.
Qed.

Lemma includes_In {A} (eqb : A -> A -> bool)
    (eqb_eq : forall a b, eqb a b = true <-> a = b) l x :
  includes eqb l x = true <-> In x l.
Proof.
  unfold includes. rewrite existsb_exists. split.
  - intros [y [Hy E]]. apply eqb_eq in E. congruence.
  - intros H. exists x. split; [assumption | apply eqb_eq; reflexivity].
Qed.

(** ** The store primitives on lists *)

Lemma replaceFirst_Some q f l y l' :
  replaceFirst q f l = Some (y, l') ->
  exists l1 x l2,
    l = l1 ++ x :: l2 /\ q x = true /\ forallb (fun n => negb (q n)) l1 = true
    /\ y = f x /\ l' = l1 ++ f x :: l2.
Proof.
  revert y l'. induction l as [|a l IH]; simpl; intros y l' H; [discriminate|].
  destruct (q a) eqn:Q.
  - inversion H; subst. exists [], a, l. repeat split; auto.
  - destruct (replaceFirst q f l) as [[y0 r]|] eqn:E; [|discriminate].
    inversion H; subst.
    destruct (IH _ _ eq_refl) as (l1 & x & l2 & -> & Hq & Hn & -> & ->).
    exists (a :: l1), x, l2. simpl. rewrite Q. repeat split; auto.
Qed.

Lemma replaceFirst_None q f l :
  replaceFirst q f l = None <-> filter q l = [].
Proof.
  induction l as [|a l IH]; simpl; [tauto|].
  destruct (q a); [split; discriminate|].
  destruct (replaceFirst q f l) as [[y r]|].
  - split; [discriminate|]. intro H. apply IH in H. discriminate.
  - tauto.
Qed.

Lemma replaceFirst_found q f l x r :
  filter q l = x :: r -> exists l', replaceFirst q f l = Some (f x, l').
Proof.
  revert x r. induction l as [|a l IH]; simpl; intros x r H; [discriminate|].
  destruct (q a) eqn:Q.
  - inversion H; subst. eauto.
  - destruct (IH _ _ H) as [l' ->]. eauto.
Qed.

Lemma map_onId_absent i f l :
  ~ In i (map _id l) -> map (onId i f) l = l.
Proof.
  induction l as [|a l IH]; simpl; intro H; [reflexivity|].
  unfold onId at 1. destruct (oid_eqb (_id a) i) eqn:E.
  - apply oid_eqb_eq in E. tauto.
  - f_equal. apply IH. tauto.
Qed.

Lemma replaceFirst_by_id f l x :
  NoDup (map _id l) -> In x l ->
  replaceFirst (by_id (_id x)) f l = Some (f x, map (onId (_id x) f) l).
Proof.
  induction l as [|a l IH]; simpl; intros ND Hin; [contradiction|].
  inversion ND as [|? ? Hnot ND']; subst.
  unfold by_id at 1, onId at 1.
  destruct Hin as [->|Hin].
  - rewrite oid_eqb_refl. rewrite map_onId_absent by assumption. reflexivity.
  - destruct (oid_eqb (_id a) (_id x)) eqn:E.
    + apply oid_eqb_eq in E. exfalso. apply Hnot. rewrite E. now apply in_map.
    + rewrite (IH ND' Hin). reflexivity.
Qed.

Lemma filter_not_id_absent i l :
  ~ In i (map _id l) -> filter (fun n => negb (by_id i n)) l = l.
Proof.
  induction l as [|a l IH]; simpl; intro H; [reflexivity|].
  unfold by_id at 1. destruct (oid_eqb (_id a) i) eqn:E; simpl.
  - apply oid_eqb_eq in E. tauto.
  - f_equal. apply IH. tauto.
Qed.

Lemma removeFirst_by_id l i :
  NoDup (map _id l) ->
  removeFirst (by_id i) l = filter (fun n => negb (by_id i n)) l.
Proof.
  induction l as [|a l IH]; simpl; intros ND; [reflexivity|].
  inversion ND as [|? ? Hnot ND']; subst.
  destruct (by_id i a) eqn:E; simpl.
  - unfold by_id in E. apply oid_eqb_eq in E. subst i.
    symmetry. now apply filter_not_id_absent.
  - f_equal. now apply IH.
Qed.

(** ** Breadth-first enumeration *)

Lemma expand_Ok courseItems items :
  (forall i, In i items -> _id i <> None) ->
  expand courseItems items
  = Ok (flat_map (fun i => filter (by_parent (_id i)) courseItems) items).
Proof.
  induction items as [|i rest IH]; simpl; intro H; [reflexivity|].
  rewrite IH by (intros; apply H; now right).
  destruct courseItems; [reflexivity|].
  destruct (_id i) eqn:E; [reflexivity|].
  exfalso. apply (H i); [now left | assumption].
Qed.

Lemma bfs_total rk B courseItems :
  ranked rk B courseItems ->
  forall fuel d items,
    (B < fuel + d)%nat -> (d <= B)%nat ->
    (forall i, In i items -> _id i <> None /\ (d <= rk (_id i))%nat) ->
    exists ds, bfs fuel courseItems items = Ok ds.
Proof.
  intros R. induction fuel as [|f IH]; intros d items HB Hd Hitems; [lia|].
  simpl. rewrite expand_Ok by (intros i Hi; apply Hitems; assumption).
  destruct (flat_map _ items) as [|c next] eqn:E; [eauto|].
  assert (Hnext : forall x, In x (c :: next) ->
                    _id x <> None /\ (S d <= rk (_id x))%nat).
  { intros x Hx. rewrite <- E in Hx. apply in_flat_map in Hx.
    destruct Hx as [i [Hi Hx]]. apply filter_In in Hx. destruct Hx as [Hx P].
    unfold by_parent in P. apply oid_eqb_eq in P.
    destruct (R x Hx) as (Hid & Hlt & _). split; [assumption|].
    rewrite P in Hlt. destruct (Hitems i Hi) as [_ Hd']. lia. }
  assert (Sd : (S d <= B)%nat).
  { destruct (Hnext c (or_introl eq_refl)) as [_ H1].
    assert (Hc : In c courseItems).
    { assert (Hc' : In c (c :: next)) by now left.
      rewrite <- E in Hc'. apply in_flat_map in Hc'.
      destruct Hc' as [i [_ Hc']]. now apply filter_In in Hc'. }
    destruct (R c Hc) as (_ & _ & H2). lia. }
  destruct (IH (S d) (c :: next)) as [ds Hds]; [lia | assumption | assumption |].
  rewrite Hds. eauto.
Qed.

(** C10: on a course root whose course has no config document,
    [getDescendants] returns the descendants followed by one more entry,
    which is [undefined]; the entry is not left out. *)
Theorem getDescendants_pushes_missing_config :
  forall rk B fuel rootItem s,
    _type rootItem = course ->
    _id rootItem <> None ->
    ranked rk B (filter (by_course (_courseId rootItem)) (docs s)) ->
    (B < fuel)%nat ->
    (forall c, In c (docs s) -> _courseId c = _courseId rootItem -> _type c <> config) ->
    exists ds,
      bfs fuel (filter (by_course (_courseId rootItem)) (docs s)) [rootItem] = Ok ds
      /\ getDescendants fuel rootItem s = (Ok (map Some ds ++ [None]), s)
      /\ last (map Some ds ++ [None]) (Some rootItem) = None
      /\ length (map Some ds ++ [None]) = S (length ds).
Proof.
  intros rk B fuel rootItem s Hty Hid R HB Hnc.
  destruct (bfs_total R fuel (d:=0) [rootItem]) as [ds Hds]; [lia | lia | |].
  { intros i [<-|[]]. split; [assumption | lia]. }
  exists ds. split; [assumption|].
  assert (Hfind : List.find (by_type config)
                    (filter (by_course (_courseId rootItem)) (docs s)) = None).
  { destruct (List.find _ _) as [c|] eqn:F; [|reflexivity].
    apply find_some in F. destruct F as [Hin Hc].
    apply filter_In in Hin. destruct Hin as [Hin Hcourse].
    unfold by_course in Hcourse. apply oid_eqb_eq in Hcourse.
    unfold by_type in Hc. apply ctype_eqb_eq in Hc.
    exfalso. exact (Hnc c Hin Hcourse Hc). }
  split; [|split].
  - unfold getDescendants, bind, find, ret. simpl. rewrite Hds, Hty, Hfind.
    reflexivity.
  - apply last_last.
  - rewrite length_app, length_map. simpl. lia.
Qed.

Lemma getDescendants_pushes_missing_config_witness :
  exists ds,
    bfs 5 (filter (by_course (Some 1%nat)) (docs c10_store))
        [c10_doc 1%nat course None]
    = Ok ds
    /\ getDescendants 5 (c10_doc 1%nat course None) c10_store
       = (Ok (map Some ds ++ [None]), c10_store)
    /\ last (map Some ds ++ [None]) (Some (c10_doc 1%nat course None)) = None
    /\ length (map Some ds ++ [None]) = S (length ds).
Proof.
  apply (@getDescendants_pushes_missing_config
           (fun o => match o with Some i => i | None => O end) 2%nat 5%nat
           (c10_doc 1%nat course None) c10_store).
  - reflexivity.
  - discriminate.
  - intros c Hc. simpl in Hc.
    destruct Hc as [<-|[<-|[]]]; simpl; repeat split; (discriminate || lia).
  - lia.
  - intros c Hc _. simpl in Hc. destruct Hc as [<-|[<-|[]]]; discriminate.
Defined.

(** ** insert with a missing parent *)

(** C7: for data that is neither a course nor a config and whose
    [_parentId] resolves to no document, [insert] stores nothing and throws
    -- a bare [Error()], which carries neither the [INVALID_PARENT] nor the
    [NOT_FOUND] code. *)
Theorem insert_missing_parent :
  forall validate extensionNames getPluginSchemas schemaSource data options s,
    _type data <> course ->
    _type data <> config ->
    (forall n, In n (docs s) -> _id n <> _parentId data) ->
    insert validate extensionNames getPluginSchemas schemaSource data options s
    = (Throw PlainError, s)
    /\ PlainError <> INVALID_PARENT /\ PlainError <> NOT_FOUND.
Proof.
  intros validate extensionNames getPluginSchemas schemaSource data options s
         Hc Hg Hnone.
  split; [|split; discriminate].
  unfold insert.
  assert (E1 : ctype_eqb (_type data) course = false).
  { destruct (ctype_eqb (_type data) course) eqn:E; [|reflexivity].
    apply ctype_eqb_eq in E. contradiction. }
  assert (E2 : ctype_eqb (_type data) config = false).
  { destruct (ctype_eqb (_type data) config) eqn:E; [|reflexivity].
    apply ctype_eqb_eq in E. contradiction. }
  rewrite E1, E2. simpl.
  assert (F : filter (by_id (_parentId data)) (docs s) = []).
  { induction (docs s) as [|a l IH]; [reflexivity|]. simpl.
    unfold by_id at 1. destruct (oid_eqb (_id a) (_parentId data)) eqn:E.
    - apply oid_eqb_eq in E. exfalso. apply (Hnone a); [now left | assumption].
    - apply IH. intros n Hn. apply Hnone. now right. }
  unfold bind, find. rewrite F. reflexivity.
Qed.

Lemma insert_missing_parent_witness :
  insert (fun _ => true) [] (fun _ => []) (fun _ => None) c7_data noOptions c7_store
  = (Throw PlainError, c7_store)
  /\ PlainError <> INVALID_PARENT /\ PlainError <> NOT_FOUND.
Proof.
  apply (@insert_missing_parent (fun _ => true) [] (fun _ => []) (fun _ => None)
           c7_data noOptions c7_store).
  - discriminate.
  - discriminate.
  - intros n Hn. simpl in Hn. destruct Hn as [<-|[]]. discriminate.
Defined.

(** ** Store relations kept by every step of a computation *)

Section Holds.

Variable P : Store -> Prop.
Variable R : Store -> Store -> Prop.
Hypothesis R_refl : forall s, R s s.
Hypothesis R_trans : forall a b c, R a b -> R b c -> R a c.
Hypothesis P_step : forall s s', P s -> R s s' -> P s'.

Lemma holds_ret {A} (a : A) : holds P R (ret a).
Proof. intros s _. apply R_refl. Qed.

Lemma holds_throw {A} e : holds P R (@throw A e).
Proof. intros s _. apply R_refl. Qed.

Lemma holds_find q : holds P R (find q).
Proof. intros s _. apply R_refl. Qed.

Lemma holds_bind {A B} (m : M A) (k : A -> M B) :
  holds P R m -> (forall a, holds P R (k a)) -> holds P R (bind m k).
Proof.
  intros Hm Hk s Ps. unfold bind. specialize (Hm s Ps).
  destruct (m s) as [[a|e] s1]; simpl in *; [|assumption].
  eapply R_trans; [exact Hm|]. apply Hk. eapply P_step; eassumption.
Qed.

Lemma holds_both (a b : M unit) :
  holds P R a -> holds P R b -> holds P R (both a b).
Proof.
  intros Ha Hb s Ps. unfold both. specialize (Ha s Ps).
  destruct (a s) as [[u|e] s1]; simpl in *;
    (eapply R_trans; [exact Ha|]; apply Hb; eapply P_step; eassumption).
Qed.

Lemma holds_when c (m : M unit) : holds P R m -> holds P R (when c m).
Proof. intros H. destruct c; simpl; [assumption | apply holds_ret]. Qed.

Lemma holds_allOf (l : list (M unit)) :
  Forall (holds P R) l -> holds P R (allOf l).
Proof.
  induction 1; simpl; [apply holds_ret | now apply holds_both].
Qed.

End Holds.

Lemma Forall2_refl {A} (r : A -> A -> Prop) (l : list A) :
  (forall a, r a a) -> Forall2 r l l.
Proof. intro H. induction l; constructor; auto. Qed.

Lemma Forall2_trans {A} (r : A -> A -> Prop) (l1 l2 l3 : list A) :
  (forall a b c, r a b -> r b c -> r a c) ->
  Forall2 r l1 l2 -> Forall2 r l2 l3 -> Forall2 r l1 l3.
Proof.
  intros T H. revert l3. induction H; intros l3 H3; inversion H3; subst;
    constructor; eauto.
Qed.

Section Revises.

Variable rel : ContentNode -> ContentNode -> Prop.
Hypothesis rel_refl : forall n, rel n n.
Hypothesis rel_trans : forall a b c, rel a b -> rel b c -> rel a c.

Lemma revises_refl s : revises rel s s.
Proof. split; [reflexivity | now apply Forall2_refl]. Qed.

Lemma revises_trans a b c : revises rel a b -> revises rel b c -> revises rel a c.
Proof.
  intros [N1 F1] [N2 F2]. split; [congruence|].
  eapply Forall2_trans; eassumption.
Qed.

Lemma revising_ret {A} (a : A) : revising rel (ret a).
Proof. apply holds_ret, revises_refl. Qed.

Lemma revising_throw {A} e : revising rel (@throw A e).
Proof. apply holds_throw, revises_refl. Qed.

Lemma revising_find q : revising rel (find q).
Proof. apply holds_find, revises_refl. Qed.

Lemma revising_bind {A B} (m : M A) (k : A -> M B) :
  revising rel m -> (forall a, revising rel (k a)) -> revising rel (bind m k).
Proof. apply holds_bind; [apply revises_trans | trivial]. Qed.

Lemma revising_both (a b : M unit) :
  revising rel a -> revising rel b -> revising rel (both a b).
Proof. apply holds_both; [apply revises_trans | trivial]. Qed.

Lemma revising_when c (m : M unit) : revising rel m -> revising rel (when c m).
Proof. apply holds_when, revises_refl. Qed.

Lemma revising_allOf (l : list (M unit)) :
  Forall (revising rel (A:=unit)) l -> revising rel (allOf l).
Proof. apply holds_allOf; [apply revises_refl | apply revises_trans | trivial]. Qed.

Lemma replaceFirst_Forall2 q d l y l' :
  (forall n, q n = true -> rel n (assign n d)) ->
  replaceFirst q (fun n => assign n d) l = Some (y, l') ->
  Forall2 rel l l'.
Proof.
  intros H E. apply replaceFirst_Some in E.
  destruct E as (l1 & x & l2 & -> & Hq & _ & _ & ->).
  apply Forall2_app; [now apply Forall2_refl|].
  constructor; [now apply H | now apply Forall2_refl].
Qed.

Lemma revising_super_update q d :
  (forall n, q n = true -> rel n (assign n d)) -> revising rel (super_update q d).
Proof.
  intros H s _. unfold super_update.
  destruct (replaceFirst q _ (docs s)) as [[y l']|] eqn:E; simpl.
  - split; [reflexivity|]. eapply replaceFirst_Forall2; eassumption.
  - apply revises_refl.
Qed.

Hypothesis rel_sortOrder : forall n k, rel n (assign n (dSortOrder k)).
Hypothesis rel_enabledPlugins :
  forall n ps, _type n = config -> rel n (assign n (dEnabledPlugins ps)).

Lemma revising_findSiblings p e : revising rel (findSiblings p e).
Proof.
  unfold findSiblings. apply revising_bind; [apply revising_find|].
  intros. apply revising_ret.
Qed.

Lemma revising_renumber sibs : forall k, revising rel (renumber k sibs).
Proof.
  induction sibs as [|x rest IH]; intro k; simpl; [apply revising_ret|].
  apply revising_bind; [|intros; apply IH].
  destruct (option_eqb Z.eqb _ _); [apply revising_ret|].
  apply revising_bind; [|intros; apply revising_ret].
  apply revising_super_update. intros. apply rel_sortOrder.
Qed.

Lemma revising_updateSortOrder item updateData :
  revising rel (updateSortOrder item updateData).
Proof.
  unfold updateSortOrder.
  destruct (_ || _ || _); [apply revising_ret|].
  apply revising_bind; [apply revising_find|]. intros found.
  apply revising_bind; [|intros; apply revising_renumber].
  destruct updateData.
  - apply revising_bind; [apply revising_findSiblings|].
    intros. apply revising_ret.
  - destruct found; [apply revising_throw | apply revising_findSiblings].
Qed.

Lemma revising_updateEnabledPlugins ext gps src item force :
  revising rel (updateEnabledPlugins ext gps src item force).
Proof.
  unfold updateEnabledPlugins.
  apply revising_bind; [apply revising_find|]. intros items.
  destruct (List.find _ items); [|apply revising_ret].
  match goal with |- revising rel (if ?c then _ else _) => destruct c end;
    [apply revising_ret|].
  apply revising_bind.
  - apply revising_super_update. intros n Hn.
    apply rel_enabledPlugins. unfold qand, by_type in Hn.
    apply andb_true_iff in Hn. destruct Hn as [_ Hn]. now apply ctype_eqb_eq.
  - intros _. match goal with |- revising rel (if ?c then _ else _) => destruct c end;
      [|apply revising_ret].
    apply revising_bind; [apply revising_find|]. intros toUpdate.
    apply revising_allOf. apply Forall_forall. intros m Hm.
    apply in_map_iff in Hm. destruct Hm as [doc0 [<- _]].
    apply revising_bind; [|intros; apply revising_ret].
    apply revising_super_update. intros n _. rewrite assign_empty. apply rel_refl.
Qed.

Lemma revising_update ext gps src q d :
  (forall n, q n = true -> rel n (assign n d)) ->
  revising rel (update ext gps src q d).
Proof.
  intros H. unfold update.
  apply revising_bind; [now apply revising_super_update|]. intros doc.
  apply revising_bind; [|intros; apply revising_ret].
  apply revising_both;
    [apply revising_updateSortOrder | apply revising_updateEnabledPlugins].
Qed.

End Revises.

(** ** Sorting is a permutation *)

Lemma insertBy_perm leb x l : Permutation (insertBy leb x l) (x :: l).
Proof.
  induction l as [|y l IH]; simpl; [reflexivity|].
  destruct (leb _ _); [reflexivity|].
  rewrite IH. apply perm_swap.
Qed.

Lemma sortBy_perm leb l : Permutation (sortBy leb l) l.
Proof.
  induction l as [|x l IH]; simpl; [reflexivity|].
  rewrite insertBy_perm. now constructor.
Qed.

Lemma splice_perm {A} i (x : A) l : Permutation (splice i x l) (x :: l).
Proof.
  unfold splice. rewrite <- Permutation_middle.
  now rewrite firstn_skipn.
Qed.

Lemma sortBy_length leb l : length (sortBy leb l) = length l.
Proof. apply Permutation_length, sortBy_perm. Qed.

(** ** The numbering loop *)

Lemma numbered_absent sibs : forall k n,
  ~ In (_id n) (map _id sibs) -> numbered k sibs n = n.
Proof.
  induction sibs as [|x rest IH]; simpl; intros k n H; [reflexivity|].
  destruct (oid_eqb (_id n) (_id x)) eqn:E.
  - apply oid_eqb_eq in E. exfalso. apply H. now left.
  - apply IH. tauto.
Qed.

Lemma numbered_id sibs : forall k n, _id (numbered k sibs n) = _id n.
Proof.
  induction sibs as [|x rest IH]; simpl; intros k n; [reflexivity|].
  destruct (oid_eqb _ _); [destruct (option_eqb _ _ _); reflexivity | apply IH].
Qed.

Lemma map_id_onId i f l :
  (forall n, _id (f n) = _id n) -> map _id (map (onId i f) l) = map _id l.
Proof.
  intro H. rewrite map_map. apply map_ext. intro n. unfold onId.
  destruct (oid_eqb _ _); [apply H | reflexivity].
Qed.

Lemma replaceFirst_present f l i :
  NoDup (map _id l) -> In i (map _id l) ->
  exists y, In y l /\ _id y = i
            /\ replaceFirst (by_id i) f l = Some (f y, map (onId i f) l).
Proof.
  intros ND Hin. apply in_map_iff in Hin. destruct Hin as [y [<- Hy]].
  exists y. repeat split; [assumption|]. now apply replaceFirst_by_id.
Qed.

Lemma renumber_spec sibs : forall k s,
  NoDup (map _id (docs s)) -> NoDup (map _id sibs) ->
  (forall x, In x sibs -> In (_id x) (map _id (docs s))) ->
  renumber k sibs s
  = (Ok tt, mkStore (map (numbered k sibs) (docs s)) (nextId s)
              (writes s ++ renumberWrites k sibs)).
Proof.
  induction sibs as [|x rest IH]; intros k s NDs NDl Hin.
  - simpl. unfold ret. rewrite map_id, app_nil_r. destruct s; reflexivity.
  - inversion NDl as [|? ? Hx NDr]; subst.
    assert (Hrest : forall n, numbered k (x :: rest) n
                     = numbered (S k) rest
                         (if option_eqb Z.eqb (_sortOrder x) (Some (Z.of_nat k + 1))
                          then n
                          else onId (_id x)
                                 (fun m => assign m (dSortOrder (Some (Z.of_nat k + 1)))) n)).
    { intro n. simpl. unfold onId.
      destruct (oid_eqb (_id n) (_id x)) eqn:E.
      - apply oid_eqb_eq in E.
        destruct (option_eqb Z.eqb _ _);
          (rewrite numbered_absent; [reflexivity | simpl; rewrite ?E; assumption]).
      - destruct (option_eqb Z.eqb _ _); reflexivity. }
    rewrite (map_ext _ _ Hrest). clear Hrest.
    cbn [renumber renumberWrites].
    destruct (option_eqb Z.eqb (_sortOrder x) (Some (Z.of_nat k + 1))) eqn:E.
    + unfold bind at 1. unfold ret at 1.
      rewrite IH; [|assumption|assumption|intros; apply Hin; now right].
      reflexivity.
    + destruct (@replaceFirst_present
                  (fun m => assign m (dSortOrder (Some (Z.of_nat k + 1))))
                  (docs s) (_id x) NDs (Hin x (or_introl eq_refl)))
        as (y & Hy & Hid & Hrep).
      unfold bind at 1. unfold bind at 1. unfold super_update at 1.
      rewrite Hrep. unfold ret at 1. cbv beta iota.
      rewrite IH; cbn [docs nextId writes].
      * rewrite map_map, <- app_assoc. cbn [assign _id]. rewrite Hid. reflexivity.
      * rewrite map_id_onId by reflexivity. assumption.
      * assumption.
      * intros z Hz. rewrite map_id_onId by reflexivity. apply Hin. now right.
Qed.

(** ** What [updateSortOrder] does to the store *)

Lemma NoDup_map_filter {A B} (f : A -> B) (q : A -> bool) l :
  NoDup (map f l) -> NoDup (map f (filter q l)).
Proof.
  induction l as [|a l IH]; simpl; intro H; [constructor|].
  inversion H as [|? ? Hn H']; subst.
  destruct (q a); simpl; [constructor|]; auto.
  intro Hin. apply Hn. apply in_map_iff in Hin. destruct Hin as [x [E Hx]].
  apply filter_In in Hx. rewrite <- E. apply in_map. tauto.
Qed.

Lemma upsertOrder_perm item l :
  Permutation (upsertOrder item l)
    (item :: filter (qand (by_parent (_parentId item)) (qnot (by_id (_id item)))) l).
Proof.
  unfold upsertOrder. rewrite splice_perm. constructor. apply sortBy_perm.
Qed.

Lemma upsertOrder_NoDup item l :
  NoDup (map _id l) -> NoDup (map _id (upsertOrder item l)).
Proof.
  intro ND. eapply Permutation_NoDup.
  - apply Permutation_map. symmetry. apply upsertOrder_perm.
  - simpl. constructor.
    + intro Hin. apply in_map_iff in Hin. destruct Hin as [x [E Hx]].
      apply filter_In in Hx. destruct Hx as [_ Hq].
      unfold qand, qnot, by_id in Hq. apply andb_true_iff in Hq.
      destruct Hq as [_ Hq]. rewrite E, oid_eqb_refl in Hq. discriminate.
    + now apply NoDup_map_filter.
Qed.

Lemma upsertOrder_present item l :
  In (_id item) (map _id l) ->
  forall x, In x (upsertOrder item l) -> In (_id x) (map _id l).
Proof.
  intros Hitem x Hx.
  apply (Permutation_in _ (upsertOrder_perm item l)) in Hx.
  destruct Hx as [<-|Hx]; [assumption|].
  apply filter_In in Hx. apply in_map. tauto.
Qed.

Lemma updateSortOrder_skip item updateData s :
  needsOrder item = false -> updateSortOrder item updateData s = (Ok tt, s).
Proof.
  unfold needsOrder, updateSortOrder. intro H. apply negb_false_iff in H.
  rewrite H. reflexivity.
Qed.

Lemma updateSortOrder_upsert item s :
  needsOrder item = true -> _id item <> None ->
  NoDup (map _id (docs s)) -> In (_id item) (map _id (docs s)) ->
  updateSortOrder item true s
  = (Ok tt, mkStore (map (numbered 0 (upsertOrder item (docs s))) (docs s)) (nextId s)
              (writes s ++ renumberWrites 0 (upsertOrder item (docs s)))).
Proof.
  intros Hn Hid ND Hin. unfold needsOrder in Hn. apply negb_true_iff in Hn.
  unfold updateSortOrder. rewrite Hn.
  unfold bind at 1. unfold find at 1. cbv beta iota.
  unfold bind at 1. unfold bind at 1. unfold findSiblings.
  destruct (_id item) as [i|] eqn:Ei; [|congruence].
  unfold bind at 1. unfold find at 1. unfold ret at 1 2. cbv beta iota.
  rewrite <- Ei.
  change (splice _ item _) with (upsertOrder item (docs s)).
  apply renumber_spec; [assumption | now apply upsertOrder_NoDup |].
  apply upsertOrder_present. rewrite Ei. assumption.
Qed.

Lemma updateSortOrder_deletion item s parent rest :
  needsOrder item = true ->
  filter (by_id (_parentId item)) (docs s) = parent :: rest ->
  NoDup (map _id (docs s)) ->
  updateSortOrder item false s
  = (Ok tt, mkStore (map (numbered 0 (deleteOrder (_parentId item) (docs s))) (docs s))
              (nextId s)
              (writes s ++ renumberWrites 0 (deleteOrder (_parentId item) (docs s)))).
Proof.
  intros Hn Hp ND. unfold needsOrder in Hn. apply negb_true_iff in Hn.
  unfold updateSortOrder. rewrite Hn.
  unfold bind at 1. unfold find at 1. cbv beta iota. rewrite Hp.
  unfold bind at 1. unfold findSiblings. unfold bind at 1.
  unfold find at 1. unfold ret at 1. cbv beta iota.
  assert (E : _id parent = _parentId item).
  { assert (H : In parent (filter (by_id (_parentId item)) (docs s)))
      by (rewrite Hp; now left).
    apply filter_In in H. destruct H as [_ H]. now apply oid_eqb_eq in H. }
  rewrite E. change (sortBy so_leb _) with (deleteOrder (_parentId item) (docs s)).
  apply renumber_spec; [assumption | |].
  - eapply Permutation_NoDup.
    + apply Permutation_map. symmetry. apply sortBy_perm.
    + now apply NoDup_map_filter.
  - intros x Hx. apply (Permutation_in _ (sortBy_perm _ _)) in Hx.
    apply filter_In in Hx. apply in_map. tauto.
Qed.

(** ** Numbering by position *)

Lemma numbered_nth sibs : forall k p x n,
  NoDup (map _id sibs) -> nth_error sibs p = Some x -> _id n = _id x ->
  numbered k sibs n
  = if option_eqb Z.eqb (_sortOrder x) (Some (Z.of_nat (k + p) + 1)) then n
    else assign n (dSortOrder (Some (Z.of_nat (k + p) + 1))).
Proof.
  induction sibs as [|y rest IH]; intros k p x n ND Hp Hid; [destruct p; discriminate|].
  inversion ND as [|? ? Hy NDr]; subst.
  destruct p as [|p]; simpl in Hp.
  - inversion Hp; subst. simpl. rewrite Hid, oid_eqb_refl, Nat.add_0_r. reflexivity.
  - simpl. destruct (oid_eqb (_id n) (_id y)) eqn:E.
    + apply oid_eqb_eq in E. exfalso. apply Hy. rewrite <- E, Hid.
      apply in_map. eapply nth_error_In; eassumption.
    + rewrite (IH (S k) p x n NDr Hp Hid).
      replace (S k + p)%nat with (k + S p)%nat by lia. reflexivity.
Qed.

Lemma numbered_nth_sortOrder sibs k p x :
  NoDup (map _id sibs) -> nth_error sibs p = Some x ->
  _sortOrder (numbered k sibs x) = Some (Z.of_nat (k + p) + 1).
Proof.
  intros ND Hp. rewrite (@numbered_nth sibs k p x x ND Hp eq_refl).
  destruct (option_eqb Z.eqb _ _) eqn:E; [|reflexivity].
  now apply option_Z_eqb_eq in E.
Qed.

Lemma numbered_parentId sibs : forall k n,
  _parentId (numbered k sibs n) = _parentId n.
Proof.
  induction sibs as [|x rest IH]; simpl; intros k n; [reflexivity|].
  destruct (oid_eqb _ _); [destruct (option_eqb _ _ _); reflexivity | apply IH].
Qed.

Lemma numbered_courseId sibs : forall k n,
  _courseId (numbered k sibs n) = _courseId n.
Proof.
  induction sibs as [|x rest IH]; simpl; intros k n; [reflexivity|].
  destruct (oid_eqb _ _); [destruct (option_eqb _ _ _); reflexivity | apply IH].
Qed.

Lemma numbered_type sibs : forall k n, _type (numbered k sibs n) = _type n.
Proof.
  induction sibs as [|x rest IH]; simpl; intros k n; [reflexivity|].
  destruct (oid_eqb _ _); [destruct (option_eqb _ _ _); reflexivity | apply IH].
Qed.

Lemma numbered_layout sibs : forall k n, _layout (numbered k sibs n) = _layout n.
Proof.
  induction sibs as [|x rest IH]; simpl; intros k n; [reflexivity|].
  destruct (oid_eqb _ _); [destruct (option_eqb _ _ _); reflexivity | apply IH].
Qed.

Lemma numbered_settled sibs : forall k n,
  (forall p x, nth_error sibs p = Some x ->
               _sortOrder x = Some (Z.of_nat (k + p) + 1)) ->
  numbered k sibs n = n.
Proof.
  induction sibs as [|x rest IH]; simpl; intros k n H; [reflexivity|].
  assert (E : option_eqb Z.eqb (_sortOrder x) (Some (Z.of_nat k + 1)) = true).
  { apply option_Z_eqb_eq. rewrite (H O x eq_refl). now rewrite Nat.add_0_r. }
  rewrite E. destruct (oid_eqb _ _); [reflexivity|].
  apply IH. intros p y Hp. rewrite (H (S p) y Hp). do 3 f_equal. lia.
Qed.

Lemma renumberWrites_settled sibs : forall k,
  (forall p x, nth_error sibs p = Some x ->
               _sortOrder x = Some (Z.of_nat (k + p) + 1)) ->
  renumberWrites k sibs = [].
Proof.
  induction sibs as [|x rest IH]; simpl; intros k H; [reflexivity|].
  assert (E : option_eqb Z.eqb (_sortOrder x) (Some (Z.of_nat k + 1)) = true).
  { apply option_Z_eqb_eq. rewrite (H O x eq_refl). now rewrite Nat.add_0_r. }
  rewrite E. simpl. apply IH.
  intros p y Hp. rewrite (H (S p) y Hp). do 3 f_equal. lia.
Qed.

(** A write is issued for exactly the entries whose [_sortOrder] differs
    from their position. *)
Lemma renumberWrites_In sibs : forall k w,
  In w (renumberWrites k sibs) <->
  exists p x, nth_error sibs p = Some x
              /\ _sortOrder x <> Some (Z.of_nat (k + p) + 1)
              /\ w = WUpdate (_id x) (dSortOrder (Some (Z.of_nat (k + p) + 1))).
Proof.
  induction sibs as [|x rest IH]; simpl; intros k w.
  - split; [contradiction|]. intros (p & y & Hp & _). destruct p; discriminate.
  - rewrite in_app_iff, IH. split.
    + intros [H|(p & y & Hp & Hne & ->)].
      * destruct (option_eqb Z.eqb _ _) eqn:E; [contradiction|].
        destruct H as [<-|[]]. exists O, x. rewrite Nat.add_0_r.
        repeat split. intro C. apply option_Z_eqb_eq in C. congruence.
      * exists (S p), y. replace (k + S p)%nat with (S k + p)%nat by lia.
        repeat split; assumption.
    + intros (p & y & Hp & Hne & ->). destruct p as [|p]; simpl in Hp.
      * inversion Hp; subst. left. rewrite Nat.add_0_r in *.
        destruct (option_eqb Z.eqb _ _) eqn:E; [|now left].
        apply option_Z_eqb_eq in E. contradiction.
      * right. exists p, y. replace (S k + p)%nat with (k + S p)%nat by lia.
        repeat split; assumption.
Qed.

(** ** Sorted lists *)

Lemma so_leb_total a b : so_leb a b = false -> so_leb b a = true.
Proof.
  destruct a as [x|], b as [y|]; simpl; try congruence.
  rewrite Z.leb_gt, Z.leb_le. lia.
Qed.

Lemma so_leb_trans a b c : so_leb a b = true -> so_leb b c = true -> so_leb a c = true.
Proof.
  destruct a as [x|], b as [y|], c as [z|]; simpl; try congruence.
  rewrite !Z.leb_le. lia.
Qed.

Lemma insertBy_sorted x l : sorted soLe l -> sorted soLe (insertBy so_leb x l).
Proof.
  induction 1 as [|y l Hy Hl IH]; simpl.
  - constructor; constructor.
  - destruct (so_leb (_sortOrder x) (_sortOrder y)) eqn:E.
    + constructor; [|now constructor].
      constructor; [exact E|].
      eapply Forall_impl; [|exact Hy]. intros z Hz. unfold soLe in *.
      eapply so_leb_trans; eassumption.
    + constructor; [|assumption].
      apply Forall_forall. intros z Hz.
      apply (Permutation_in _ (insertBy_perm so_leb x l)) in Hz.
      destruct Hz as [<-|Hz].
      * now apply so_leb_total.
      * rewrite Forall_forall in Hy. now apply Hy.
Qed.

Lemma sortBy_sorted l : sorted soLe (sortBy so_leb l).
Proof.
  induction l as [|x l IH]; simpl; [constructor | now apply insertBy_sorted].
Qed.

(** A list sorted strictly is the only sorted arrangement of its elements. *)
Lemma sorted_unique l0 : forall l1,
  sorted soLt l0 -> sorted soLe l1 -> Permutation l1 l0 -> l1 = l0.
Proof.
  induction l0 as [|a r0 IH]; intros l1 S0 S1 P.
  - apply Permutation_sym in P. now apply Permutation_nil in P.
  - destruct l1 as [|b r1]; [apply Permutation_nil in P; discriminate|].
    inversion S0 as [|? ? Ha S0']; subst. inversion S1 as [|? ? Hb S1']; subst.
    assert (E : b = a).
    { assert (Hb0 : In b (a :: r0)) by (eapply Permutation_in; [exact P | now left]).
      assert (Ha1 : In a (b :: r1))
        by (eapply Permutation_in; [symmetry; exact P | now left]).
      destruct Hb0 as [->|Hb0]; [reflexivity|].
      destruct Ha1 as [->|Ha1]; [reflexivity|].
      rewrite Forall_forall in Ha, Hb.
      specialize (Ha b Hb0). specialize (Hb a Ha1).
      unfold soLt, soLe in *. congruence. }
    subst b. f_equal. apply IH; [assumption | assumption |].
    eapply Permutation_cons_inv; eassumption.
Qed.

Lemma sorted_app_drop r a x b : sorted r (a ++ x :: b) -> sorted r (a ++ b).
Proof.
  induction a as [|y a IH]; simpl; intro H; inversion H as [|? ? Hy Hs]; subst.
  - assumption.
  - constructor; [|now apply IH].
    rewrite Forall_app in *. destruct Hy as [H1 H2]. inversion H2; subst. tauto.
Qed.

(** Keys [k+1, k+2, ...] in this order are strictly sorted. *)
Lemma sorted_by_position l : forall k,
  (forall p x, nth_error l p = Some x -> _sortOrder x = Some (Z.of_nat (k + p) + 1)) ->
  sorted soLt l.
Proof.
  induction l as [|a l IH]; intros k H; [constructor|].
  constructor.
  - apply Forall_forall. intros y Hy. apply In_nth_error in Hy.
    destruct Hy as [p Hp]. unfold soLt.
    rewrite (H O a eq_refl), (H (S p) y Hp). simpl. apply Z.leb_gt. lia.
  - apply (IH (S k)). intros p x Hp. rewrite (H (S p) x Hp). do 3 f_equal. lia.
Qed.

Lemma splice_nth {A} i (x : A) l :
  nth_error (splice i x l) (Nat.min i (length l)) = Some x.
Proof.
  unfold splice. rewrite nth_error_app2; rewrite length_firstn; [|lia].
  now rewrite Nat.sub_diag.
Qed.

Lemma splice_min {A} i (x : A) l : splice (Nat.min i (length l)) x l = splice i x l.
Proof.
  unfold splice. destruct (Nat.le_gt_cases i (length l)) as [H|H].
  - now rewrite Nat.min_l.
  - rewrite Nat.min_r by lia.
    rewrite firstn_all, skipn_all.
    rewrite firstn_all2 by lia. rewrite skipn_all2 by lia. reflexivity.
Qed.

Lemma splice_map {A B} (f : A -> B) i x l :
  map f (splice i x l) = splice i (f x) (map f l).
Proof. unfold splice. now rewrite map_app, firstn_map, skipn_map. Qed.

(** ** Running the maintainer twice *)

Lemma filter_map_same {A} (q : A -> bool) (f : A -> A) l :
  (forall a, q (f a) = q a) -> filter q (map f l) = map f (filter q l).
Proof.
  intro H. induction l as [|a l IH]; simpl; [reflexivity|].
  rewrite H. destruct (q a); simpl; now rewrite IH.
Qed.

Lemma numbered_positions sibs :
  NoDup (map _id sibs) ->
  forall p y, nth_error (map (numbered 0 sibs) sibs) p = Some y ->
              _sortOrder y = Some (Z.of_nat (0 + p) + 1).
Proof.
  intros ND p y Hp. rewrite nth_error_map in Hp.
  destruct (nth_error sibs p) as [x|] eqn:E; [|discriminate].
  inversion Hp; subst. now apply numbered_nth_sortOrder.
Qed.

Lemma sortBy_numbered sibs F S :
  sorted soLt (map (numbered 0 sibs) S) -> Permutation F S ->
  sortBy so_leb (map (numbered 0 sibs) F) = map (numbered 0 sibs) S.
Proof.
  intros HS HP. apply sorted_unique; [assumption | apply sortBy_sorted |].
  rewrite sortBy_perm. now apply Permutation_map.
Qed.

Lemma upsertOrder_rerun item l :
  NoDup (map _id l) ->
  upsertOrder (numbered 0 (upsertOrder item l) item)
              (map (numbered 0 (upsertOrder item l)) l)
  = map (numbered 0 (upsertOrder item l)) (upsertOrder item l).
Proof.
  intros ND.
  pose proof (upsertOrder_NoDup item l ND) as NDL.
  pose proof (@numbered_positions _ NDL) as Hpos.
  remember (upsertOrder item l) as L eqn:EL.
  unfold upsertOrder in EL |- *.
  rewrite numbered_parentId, numbered_id.
  set (q := qand (by_parent (_parentId item)) (qnot (by_id (_id item)))) in *.
  set (S := sortBy so_leb (filter q l)) in *.
  set (i := match _sortOrder item with
            | Some k => if k - 1 >? -1 then Z.to_nat (k - 1) else length S
            | None => length S
            end) in *.
  rewrite filter_map_same.
  2:{ intro a. unfold q, qand, qnot, by_parent, by_id.
      now rewrite numbered_parentId, numbered_id. }
  assert (HS : sorted soLt (map (numbered 0 L) S)).
  { apply sorted_by_position in Hpos. rewrite EL in Hpos at 2.
    unfold splice in Hpos. rewrite map_app in Hpos. simpl in Hpos.
    apply sorted_app_drop in Hpos. now rewrite <- map_app, firstn_skipn in Hpos. }
  rewrite (@sortBy_numbered L _ S HS (Permutation_sym (sortBy_perm so_leb (filter q l)))).
  assert (Hitem : _sortOrder (numbered 0 L item)
                  = Some (Z.of_nat (Nat.min i (length S)) + 1)).
  { apply (@numbered_nth_sortOrder L 0 (Nat.min i (length S)) item NDL).
    rewrite EL. apply splice_nth. }
  rewrite Hitem.
  replace (Z.of_nat (Nat.min i (length S)) + 1 - 1 >? -1) with true
    by (symmetry; apply Z.gtb_lt; lia).
  replace (Z.to_nat (Z.of_nat (Nat.min i (length S)) + 1 - 1))
    with (Nat.min i (length S)) by lia.
  rewrite <- splice_map, splice_min, <- EL. reflexivity.
Qed.

Lemma deleteOrder_rerun p l :
  NoDup (map _id l) ->
  deleteOrder p (map (numbered 0 (deleteOrder p l)) l)
  = map (numbered 0 (deleteOrder p l)) (deleteOrder p l).
Proof.
  intros ND. unfold deleteOrder at 1.
  rewrite filter_map_same
    by (intro a; unfold by_parent; now rewrite numbered_parentId).
  apply sortBy_numbered.
  - eapply sorted_by_position. apply numbered_positions.
    eapply Permutation_NoDup.
    + apply Permutation_map. symmetry. apply sortBy_perm.
    + now apply NoDup_map_filter.
  - symmetry. apply sortBy_perm.
Qed.

Lemma orderOf_NoDup item updateData l :
  NoDup (map _id l) -> NoDup (map _id (orderOf item updateData l)).
Proof.
  intro ND. destruct updateData; simpl; [now apply upsertOrder_NoDup|].
  eapply Permutation_NoDup.
  - apply Permutation_map. symmetry. apply sortBy_perm.
  - now apply NoDup_map_filter.
Qed.

Lemma updateSortOrder_run item (updateData : bool) s :
  needsOrder item = true ->
  NoDup (map _id (docs s)) ->
  (if updateData then In (_id item) (map _id (docs s)) /\ _id item <> None
   else filter (by_id (_parentId item)) (docs s) <> []) ->
  updateSortOrder item updateData s
  = (Ok tt, mkStore (map (numbered 0 (orderOf item updateData (docs s))) (docs s))
              (nextId s)
              (writes s ++ renumberWrites 0 (orderOf item updateData (docs s)))).
Proof.
  intros Hn ND H. destruct updateData; cbv iota in H.
  - destruct H. now apply updateSortOrder_upsert.
  - destruct (filter (by_id (_parentId item)) (docs s)) as [|parent rest] eqn:E;
      [congruence|].
    eapply updateSortOrder_deletion; eassumption.
Qed.


Ltac nodup_ids :=
  simpl; repeat (constructor; [simpl; intuition discriminate|]); constructor.

(** ** The plugin-usage reconciler *)

Lemma replaceFirst_noop q l y l' :
  replaceFirst q (fun n => assign n emptyDelta) l = Some (y, l') -> l' = l.
Proof.
  intro H. apply replaceFirst_Some in H.
  destruct H as (l1 & x & l2 & -> & _ & _ & _ & ->). now rewrite assign_empty.
Qed.

Lemma filter_by_id_present i l :
  In i (map _id l) -> filter (by_id i) l <> [].
Proof.
  intros H E. apply in_map_iff in H. destruct H as [x [Hx Hin]].
  assert (In x (filter (by_id i) l)).
  { apply filter_In. split; [assumption|]. unfold by_id. now apply oid_eqb_eq. }
  rewrite E in H. contradiction.
Qed.

Lemma resave_step c s :
  In (_id c) (map _id (docs s)) ->
  exists w,
    (super_update (by_id (_id c)) emptyDelta ;;; ret tt) s
    = (Ok tt, mkStore (docs s) (nextId s) (writes s ++ [w])).
Proof.
  intro H. unfold bind, super_update.
  destruct (filter (by_id (_id c)) (docs s)) as [|x r] eqn:E.
  { exfalso. eapply filter_by_id_present; eassumption. }
  destruct (replaceFirst_found _ (fun n => assign n emptyDelta) _ E) as [l' Hl'].
  rewrite Hl'. pose proof (replaceFirst_noop _ _ Hl') as ->.
  unfold ret. eauto.
Qed.

(** The re-saves with an empty delta change no document. *)
Lemma allOf_resave l : forall s,
  (forall c, In c l -> In (_id c) (map _id (docs s))) ->
  exists ws,
    allOf (map (fun c => super_update (by_id (_id c)) emptyDelta ;;; ret tt) l) s
    = (Ok tt, mkStore (docs s) (nextId s) (writes s ++ ws)).
Proof.
  induction l as [|c l IH]; intros s H.
  - exists []. simpl. unfold ret. rewrite app_nil_r. destruct s; reflexivity.
  - destruct (resave_step c s (H c (or_introl eq_refl))) as [w Hw].
    destruct (IH (mkStore (docs s) (nextId s) (writes s ++ [w]))) as [ws Hws].
    { intros d Hd. cbn [docs]. apply H. now right. }
    exists (w :: ws). cbn [map allOf]. unfold both. rewrite Hw, Hws.
    cbn [docs nextId writes]. now rewrite <- app_assoc.
Qed.

Lemma replaceFirst_find q1 q2 f l x :
  List.find q2 (filter q1 l) = Some x ->
  q1 (f x) = true -> q2 (f x) = true ->
  exists l', replaceFirst (qand q1 q2) f l = Some (f x, l')
             /\ List.find q2 (filter q1 l') = Some (f x).
Proof.
  intros H H1 H2. induction l as [|a l IH]; simpl in *; [discriminate|].
  unfold qand at 1. destruct (q1 a) eqn:Q1; simpl in *.
  - destruct (q2 a) eqn:Q2.
    + inversion H; subst. eexists. split; [reflexivity|]. simpl.
      rewrite H1. simpl. now rewrite H2.
    + destruct (IH H) as (l' & -> & F).
      eexists. split; [reflexivity|]. simpl. rewrite Q1. simpl. now rewrite Q2.
  - destruct (IH H) as (l' & -> & F).
    eexists. split; [reflexivity|]. simpl. now rewrite Q1.
Qed.

Lemma updateEnabledPlugins_no_config ext gps src item force s :
  List.find (by_type config) (filter (by_course (_courseId item)) (docs s)) = None ->
  updateEnabledPlugins ext gps src item force s = (Ok tt, s).
Proof.
  intro H. unfold updateEnabledPlugins, bind, find. now rewrite H.
Qed.

Lemma updateEnabledPlugins_match ext gps src item s cfg :
  let items := filter (by_course (_courseId item)) (docs s) in
  List.find (by_type config) items = Some cfg ->
  (length (_enabledPlugins cfg) =? length (candidatePlugins ext cfg items))%nat
  && forallb (includes plugin_eqb (candidatePlugins ext cfg items)) (_enabledPlugins cfg)
  = true ->
  updateEnabledPlugins ext gps src item false s = (Ok tt, s).
Proof.
  intros items H T. unfold updateEnabledPlugins, bind, find. fold items.
  rewrite H. cbn [negb andb]. rewrite T. reflexivity.
Qed.

Lemma updateEnabledPlugins_write ext gps src item force s cfg :
  let items := filter (by_course (_courseId item)) (docs s) in
  List.find (by_type config) items = Some cfg ->
  negb force
  && (length (_enabledPlugins cfg) =? length (candidatePlugins ext cfg items))%nat
  && forallb (includes plugin_eqb (candidatePlugins ext cfg items)) (_enabledPlugins cfg)
  = false ->
  exists docs' ws,
    updateEnabledPlugins ext gps src item force s
    = (Ok tt, mkStore docs' (nextId s)
                (writes s ++ WUpdate (_id cfg)
                               (dEnabledPlugins (candidatePlugins ext cfg items)) :: ws))
    /\ List.find (by_type config) (filter (by_course (_courseId item)) docs')
       = Some (assign cfg (dEnabledPlugins (candidatePlugins ext cfg items))).
Proof.
  intros items H T. unfold updateEnabledPlugins. unfold bind at 1. unfold find at 1.
  fold items. cbv beta iota. rewrite H, T.
  set (enabled := candidatePlugins ext cfg items).
  assert (Hc : by_course (_courseId item) cfg = true /\ by_type config cfg = true).
  { apply find_some in H. destruct H as [Hin Hty]. apply filter_In in Hin. tauto. }
  destruct (@replaceFirst_find (by_course (_courseId item)) (by_type config)
              (fun n => assign n (dEnabledPlugins enabled)) (docs s) cfg H)
    as (l' & Hrep & Hfind); [apply Hc | apply Hc |].
  unfold bind at 1. unfold super_update at 1. rewrite Hrep. cbv beta iota.
  match goal with |- context [if ?c then _ else _] => destruct c end.
  - unfold bind at 1. unfold find at 1. cbv beta iota. cbn [docs].
    match goal with |- context [allOf (map _ ?l)] =>
      destruct (@allOf_resave l
                  (mkStore l' (nextId s)
                     (writes s ++ [WUpdate (_id (assign cfg (dEnabledPlugins enabled)))
                                     (dEnabledPlugins enabled)]))) as [ws Hws]
    end.
    { intros c Hc'. cbn [docs]. apply in_map. now apply filter_In in Hc'. }
    exists l', ws. rewrite Hws. cbn [docs nextId writes].
    rewrite <- app_assoc. split; [reflexivity | assumption].
  - exists l', []. unfold ret. split; [reflexivity | assumption].
Qed.

Lemma updateEnabledPlugins_total ext gps src item force s :
  exists s', updateEnabledPlugins ext gps src item force s = (Ok tt, s').
Proof.
  destruct (List.find (by_type config) (filter (by_course (_courseId item)) (docs s)))
    as [cfg|] eqn:F.
  - match goal with |- _ =>
      destruct (negb force
        && (length (_enabledPlugins cfg)
            =? length (candidatePlugins ext cfg
                         (filter (by_course (_courseId item)) (docs s))))%nat
        && forallb (includes plugin_eqb
                      (candidatePlugins ext cfg
                         (filter (by_course (_courseId item)) (docs s))))
             (_enabledPlugins cfg)) eqn:T
    end.
    + exists s. unfold updateEnabledPlugins, bind, find. now rewrite F, T.
    + destruct (updateEnabledPlugins_write ext gps src item force s F T)
        as (d' & ws & H & _). eauto.
  - exists s. now apply updateEnabledPlugins_no_config.
Qed.

(** ** Sets of plugin names *)

Lemma uniq_In (seen l : list plugin) x :
  In x (uniq plugin_eqb seen l) <-> In x l /\ ~ In x seen.
Proof.
  revert seen. induction l as [|a l IH]; intro seen; simpl; [tauto|].
  destruct (includes plugin_eqb seen a) eqn:E.
  - apply (includes_In plugin_eqb plugin_eqb_eq) in E. rewrite IH.
    split; [tauto|]. intros [[<-|H] Hn]; [contradiction | tauto].
  - assert (Hn : ~ In a seen).
    { intro C. apply (includes_In plugin_eqb plugin_eqb_eq) in C. congruence. }
    simpl. rewrite IH, in_app_iff. simpl.
    split.
    + intros [<-|[H1 H2]]; tauto.
    + intros [[<-|H1] H2]; [now left|].
      destruct (plugin_eqb a x) eqn:Eax.
      * apply plugin_eqb_eq in Eax. now left.
      * right. split; [assumption|]. intros [C|[C|[]]]; [contradiction|].
        subst. rewrite (proj2 (plugin_eqb_eq x x) eq_refl) in Eax. discriminate.
Qed.

Lemma uniq_NoDup (seen l : list plugin) : NoDup (uniq plugin_eqb seen l).
Proof.
  revert seen. induction l as [|a l IH]; intro seen; simpl; [constructor|].
  destruct (includes plugin_eqb seen a); [apply IH|].
  constructor; [|apply IH].
  rewrite uniq_In, in_app_iff. simpl. tauto.
Qed.

Lemma pluginsMatch_sameSet (current enabled : list plugin) :
  NoDup current -> NoDup enabled ->
  ((length current =? length enabled)%nat
   && forallb (includes plugin_eqb enabled) current = true
   <-> sameSet current enabled).
Proof.
  intros NDc NDe. rewrite andb_true_iff, Nat.eqb_eq, forallb_forall. split.
  - intros [Hlen Hall]. split; [assumption|].
    assert (Hincl : incl current enabled).
    { intros p Hp. apply (includes_In plugin_eqb plugin_eqb_eq). now apply Hall. }
    intro p. split; [apply Hincl|].
    apply (NoDup_length_incl NDc); [lia | assumption].
  - intros [Hlen Hset]. split; [assumption|].
    intros p Hp. apply (includes_In plugin_eqb plugin_eqb_eq). now apply Hset.
Qed.

(** Where the stored [_enabledPlugins] holds no entry twice, the early
    return decides set equality: without [forceUpdate] the call writes
    nothing if the candidate set is identical to the stored list (same size,
    same membership), and persists the candidate otherwise. *)
Lemma updateEnabledPlugins_short_circuit :
  forall extensionNames getPluginSchemas schemaSource item s cfg,
    List.find (by_type config) (filter (by_course (_courseId item)) (docs s)) = Some cfg ->
    NoDup (_enabledPlugins cfg) ->
    let candidate :=
      candidatePlugins extensionNames cfg (filter (by_course (_courseId item)) (docs s)) in
    (sameSet (_enabledPlugins cfg) candidate ->
     updateEnabledPlugins extensionNames getPluginSchemas schemaSource item false s
     = (Ok tt, s))
    /\ (~ sameSet (_enabledPlugins cfg) candidate ->
        exists docs' ws,
          updateEnabledPlugins extensionNames getPluginSchemas schemaSource item false s
          = (Ok tt, mkStore docs' (nextId s)
                      (writes s ++ WUpdate (_id cfg) (dEnabledPlugins candidate) :: ws))
          /\ List.find (by_type config) (filter (by_course (_courseId item)) docs')
             = Some (assign cfg (dEnabledPlugins candidate))).
Proof.
  intros ext gps src item s cfg F ND candidate.
  pose proof (@pluginsMatch_sameSet (_enabledPlugins cfg) candidate ND
                (uniq_NoDup [] _)) as M.
  split; intro H.
  - apply (updateEnabledPlugins_match ext gps src item s F). now apply M.
  - apply (updateEnabledPlugins_write ext gps src item false s F).
    cbn [negb andb]. fold candidate.
    destruct (_ && _) eqn:T; [|reflexivity]. exfalso. apply H. now apply M.
Qed.

(** C6: a stored list that names one plugin twice has the length of the
    candidate and only entries of the candidate, so the early return meant
    for lists that already match is taken: the candidate set differs from
    the stored list (it holds the menu plugin, the list does not), yet
    nothing is written. *)
Theorem updateEnabledPlugins_misses_duplicates :
  let item := mk 2 course None (Some 2%nat) None None in
  let current := [Some "adapt-contrib-trickle"; Some "adapt-contrib-trickle"]%string in
  let candidate := [Some "adapt-contrib-trickle"; Some "adapt-contrib-boxMenu"]%string in
  List.find (by_type config) (filter (by_course (_courseId item)) (docs c6_store))
  = Some (cfgNode 1 (Some 2%nat) current (Some "adapt-contrib-boxMenu"%string)
            (Some "adapt-contrib-boxMenu"%string))
  /\ candidatePlugins c6_ext
       (cfgNode 1 (Some 2%nat) current (Some "adapt-contrib-boxMenu"%string)
          (Some "adapt-contrib-boxMenu"%string))
       (filter (by_course (_courseId item)) (docs c6_store)) = candidate
  /\ ~ (forall p, In p current <-> In p candidate)
  /\ updateEnabledPlugins c6_ext (fun _ => []) (fun _ => None) item false c6_store
     = (Ok tt, c6_store).
Proof.
  cbv zeta. split; [reflexivity|]. split; [reflexivity|]. split; [|reflexivity].
  intro H. destruct (proj2 (H (Some "adapt-contrib-boxMenu"%string))) as [C|[C|[]]];
    [simpl; tauto | discriminate | discriminate].
Qed.

(** ** Reading a successful run backwards *)

Lemma bind_Ok {A B} (m : M A) (k : A -> M B) s b s' :
  bind m k s = (Ok b, s') ->
  exists a s1, m s = (Ok a, s1) /\ k a s1 = (Ok b, s').
Proof.
  unfold bind. destruct (m s) as [[a|e] s1]; intro H; [eauto | discriminate].
Qed.

Lemma both_Ok (a b : M unit) s u s' :
  both a b s = (Ok u, s') ->
  exists s1, a s = (Ok tt, s1) /\ b s1 = (Ok u, s').
Proof.
  unfold both. destruct (a s) as [[[]|e] s1]; intro H; [eauto|].
  destruct (b s1); discriminate.
Qed.

Lemma find_Ok q s l s' : find q s = (Ok l, s') -> l = filter q (docs s) /\ s' = s.
Proof. unfold find. intro H. inversion H. auto. Qed.

Lemma ret_Ok {A} (a b : A) s s' : ret a s = (Ok b, s') -> b = a /\ s' = s.
Proof. unfold ret. intro H. inversion H. auto. Qed.

(** ** Contiguous sibling groups *)

Lemma numbered_keys L :
  NoDup (map _id L) ->
  map _sortOrder (map (numbered 0 L) L)
  = map (fun k => Some (Z.of_nat k)) (seq 1 (length L)).
Proof.
  intro ND. apply nth_error_ext. intro n.
  rewrite !nth_error_map, nth_error_seq.
  destruct (nth_error L n) as [x|] eqn:E; simpl.
  - assert (Hn : (n < length L)%nat) by (apply nth_error_Some; congruence).
    apply Nat.ltb_lt in Hn. rewrite Hn. simpl.
    rewrite (@numbered_nth_sortOrder L 0 n x ND E). do 2 f_equal. lia.
  - apply nth_error_None in E. apply Nat.ltb_ge in E. now rewrite E.
Qed.

Lemma contiguous_numbered l p L :
  NoDup (map _id L) -> Permutation (filter (by_parent p) l) L ->
  contiguous (map (numbered 0 L) l) p.
Proof.
  intros ND HP. unfold contiguous.
  rewrite filter_map_same
    by (intro a; unfold by_parent; now rewrite numbered_parentId).
  rewrite length_map, (Permutation_length HP), <- numbered_keys by assumption.
  now do 2 apply Permutation_map.
Qed.

Lemma filter_split_item (q : Query) l x :
  NoDup (map _id l) -> In x l -> q x = true ->
  Permutation (filter q l) (x :: filter (qand q (qnot (by_id (_id x)))) l).
Proof.
  induction l as [|a l IH]; simpl; intros ND Hin Hq; [contradiction|].
  inversion ND as [|? ? Ha ND']; subst.
  destruct Hin as [->|Hin].
  - rewrite Hq. unfold qand at 1, qnot at 1, by_id at 1.
    rewrite Hq, oid_eqb_refl. simpl. constructor.
    assert (E : filter (qand q (qnot (by_id (_id x)))) l = filter q l).
    { apply filter_ext_in. intros b Hb. unfold qand, qnot, by_id.
      destruct (oid_eqb (_id b) (_id x)) eqn:E.
      - apply oid_eqb_eq in E. exfalso. apply Ha. rewrite <- E. now apply in_map.
      - now rewrite andb_true_r. }
    now rewrite E.
  - assert (Hne : oid_eqb (_id a) (_id x) = false).
    { apply oid_eqb_neq. intro E. apply Ha. rewrite E. now apply in_map. }
    unfold qand at 1, qnot at 1, by_id at 1. rewrite Hne. simpl.
    rewrite andb_true_r. destruct (q a).
    + rewrite (IH ND' Hin Hq). apply perm_swap.
    + now apply IH.
Qed.


Lemma sameOrder_refl n : sameOrder n n.
Proof. repeat split. Qed.

Lemma sameOrder_trans a b c : sameOrder a b -> sameOrder b c -> sameOrder a c.
Proof. unfold sameOrder. intuition congruence. Qed.

Lemma updateEnabledPlugins_sameOrder ext gps src item force s r s' :
  updateEnabledPlugins ext gps src item force s = (r, s') ->
  nextId s' = nextId s /\ Forall2 sameOrder (docs s) (docs s').
Proof.
  intro H.
  assert (R : revises sameOrder s (snd (updateEnabledPlugins ext gps src item force s))).
  { apply (@revising_updateEnabledPlugins sameOrder);
      [apply sameOrder_refl | apply sameOrder_trans | | exact I].
    intros n ps _. repeat split. }
  rewrite H in R. exact R.
Qed.

Lemma Forall2_sameOrder_ids l l' :
  Forall2 sameOrder l l' -> map _id l' = map _id l.
Proof. induction 1 as [|a b l l' (Hi & _) F IH]; simpl; congruence. Qed.

(** ** The primitives, read backwards *)


Lemma replaceFirst_ids q d l y l' :
  replaceFirst q (fun n => assign n d) l = Some (y, l') ->
  map _id l' = map _id l /\ In y l' /\ exists x, In x l /\ q x = true /\ y = assign x d.
Proof.
  intro H. apply replaceFirst_Some in H.
  destruct H as (l1 & x & l2 & -> & Hq & _ & -> & ->).
  split; [|split].
  - rewrite !map_app. reflexivity.
  - apply in_or_app. right. now left.
  - exists x. split; [apply in_or_app; right; now left | auto].
Qed.


Lemma WF_fresh s : WF s -> ~ In (Some (nextId s)) (map _id (docs s)).
Proof.
  intros [_ H] Hin. apply in_map_iff in Hin. destruct Hin as [n [E Hn]].
  destruct (H n Hn) as [i [Hi Hlt]]. rewrite Hi in E. inversion E. lia.
Qed.

Lemma WF_insert s data :
  WF s ->
  NoDup (map _id (docs s ++ [set_id (Some (nextId s)) data])).
Proof.
  intro W. rewrite map_app. simpl.
  apply NoDup_app; [apply W | repeat constructor; simpl; tauto |].
  intros i Hi [<-|[]]. now apply (WF_fresh W).
Qed.

Lemma replaceFirst_app_fresh q f l x :
  forallb (fun n => negb (q n)) l = true -> q x = true ->
  replaceFirst q f (l ++ [x]) = Some (f x, l ++ [f x]).
Proof.
  induction l as [|a l IH]; simpl; intros H Hx.
  - now rewrite Hx.
  - apply andb_true_iff in H. destruct H as [Ha H].
    apply negb_true_iff in Ha. rewrite Ha. now rewrite IH.
Qed.

Lemma getDescendants_state fuel rootItem s r s' :
  getDescendants fuel rootItem s = (r, s') -> s' = s.
Proof.
  unfold getDescendants, bind, find.
  destruct (bfs _ _ _); intro H; inversion H; reflexivity.
Qed.

Lemma removeFirst_NoDup q l : NoDup (map _id l) -> NoDup (map _id (removeFirst q l)).
Proof.
  induction l as [|a l IH]; simpl; intro ND; [constructor|].
  inversion ND as [|? ? Ha ND']; subst.
  destruct (q a); [assumption|]. simpl. constructor; [|auto].
  intro H. apply Ha. apply in_map_iff in H. destruct H as [x [E Hx]].
  rewrite <- E. apply in_map.
  clear -Hx. induction l as [|b l IHl]; simpl in *; [contradiction|].
  destruct (q b); [now right|]. destruct Hx; [now left | right; auto].
Qed.


Lemma updateSortOrder_orphan item s :
  needsOrder item = true ->
  filter (by_id (_parentId item)) (docs s) = [] ->
  updateSortOrder item false s = (Throw TypeError, s).
Proof.
  intros Hn E. unfold needsOrder in Hn. apply negb_true_iff in Hn.
  unfold updateSortOrder. rewrite Hn. unfold bind, find. now rewrite E.
Qed.



(** ** The invariant after a mutation *)

Section Perform.

Variable validate : ContentNode -> bool.
Variable extensionNames : list plugin.
Variable getPluginSchemas : plugin -> list string.
Variable schemaSource : string -> option string.




End Perform.

Ltac wf_store :=
  split;
  [ nodup_ids
  | let n := fresh "n" in
    let Hn := fresh "Hn" in
    intros n Hn; simpl in Hn;
    repeat (destruct Hn as [<-|Hn]; [eexists; split; [reflexivity | simpl; lia]|]);
    contradiction ].

(** ** cut *)

Lemma ids_inj l a b :
  NoDup (map _id l) -> In a l -> In b l -> _id a = _id b -> a = b.
Proof.
  induction l as [|x l IH]; simpl; intros ND Ha Hb E; [contradiction|].
  inversion ND as [|? ? Hx ND']; subst.
  destruct Ha as [->|Ha], Hb as [->|Hb]; auto.
  - exfalso. apply Hx. rewrite E. now apply in_map.
  - exfalso. apply Hx. rewrite <- E. now apply in_map.
Qed.

Lemma Forall2_In_r {A B} (R : A -> B -> Prop) l l' y :
  Forall2 R l l' -> In y l' -> exists x, In x l /\ R x y.
Proof.
  induction 1 as [|a b l l' Hab F IH]; simpl; [contradiction|].
  intros [<-|Hy]; [eauto|]. destruct (IH Hy) as [x [Hx HR]]. eauto.
Qed.

Lemma sameButPlugins_refl n : sameButPlugins n n.
Proof. unfold sameButPlugins. destruct n; reflexivity. Qed.

Lemma sameButPlugins_trans a b c :
  sameButPlugins a b -> sameButPlugins b c -> sameButPlugins a c.
Proof. unfold sameButPlugins. intros -> ->. destruct a; reflexivity. Qed.

Lemma updateEnabledPlugins_sameButPlugins ext gps src item force s r s' :
  updateEnabledPlugins ext gps src item force s = (r, s') ->
  nextId s' = nextId s /\ Forall2 sameButPlugins (docs s) (docs s').
Proof.
  intro H.
  assert (R : revises sameButPlugins s
                (snd (updateEnabledPlugins ext gps src item force s))).
  { apply (@revising_updateEnabledPlugins sameButPlugins);
      [apply sameButPlugins_refl | apply sameButPlugins_trans | | exact I].
    intros n ps _. unfold sameButPlugins. destruct n; reflexivity. }
  rewrite H in R. exact R.
Qed.

Lemma Forall2_sameCourse l l' :
  Forall2 sameCourse l l' ->
  map _id l' = map _id l /\ map _courseId l' = map _courseId l.
Proof.
  induction 1 as [|a b l l' [Hi Hc] F [IH1 IH2]]; simpl; split; congruence.
Qed.

Lemma splice_nth_le {A} i (x : A) l :
  (i <= length l)%nat -> nth_error (splice i x l) i = Some x.
Proof.
  intro H. rewrite <- (Nat.min_l _ _ H) at 2. apply splice_nth.
Qed.

Lemma filter_others_onId (q : Query) i f l :
  (forall n, _id (f n) = _id n) ->
  filter (qand q (qnot (by_id i))) (map (onId i f) l)
  = filter (qand q (qnot (by_id i))) l.
Proof.
  intro Hf. induction l as [|a l IH]; [reflexivity|].
  cbn [map filter]. rewrite IH. unfold onId.
  destruct (oid_eqb (_id a) i) eqn:E; [|reflexivity].
  assert (E1 : qand q (qnot (by_id i)) (f a) = false).
  { unfold qand, qnot, by_id. rewrite Hf, E. apply andb_false_r. }
  assert (E2 : qand q (qnot (by_id i)) a = false).
  { unfold qand, qnot, by_id. rewrite E. apply andb_false_r. }
  now rewrite E1, E2.
Qed.

(** C2 (amended): [cut] re-parents the child and changes no document's
    [_courseId], whatever course the parent belongs to; the child's
    [_sortOrder] is the one given when that is a position among the new
    siblings. *)
Theorem cut_reparents_keeps_courseId :
  forall extensionNames getPluginSchemas schemaSource parent child sortOrder s pid,
    WF s ->
    In child (docs s) ->
    _id parent = Some pid ->
    exists s',
      cut extensionNames getPluginSchemas schemaSource parent child sortOrder s
      = (Ok (assign child (dCut (Some pid) sortOrder)), s')
      /\ map _id (docs s') = map _id (docs s)
      /\ map _courseId (docs s') = map _courseId (docs s)
      /\ forall n', In n' (docs s') -> _id n' = _id child ->
           _parentId n' = Some pid
           /\ _courseId n' = _courseId child
           /\ forall k, sortOrder = Some k ->
                _type child <> course -> _type child <> config ->
                1 <= k <= Z.of_nat (length (filter (qand (by_parent (Some pid))
                                                     (qnot (by_id (_id child))))
                                              (docs s))) + 1 ->
                _sortOrder n' = Some k.
Proof.
  intros ext gps src parent child sortOrder s pid W Hin Hpid.
  destruct W as [ND Wid].
  set (d := dCut (Some pid) sortOrder).
  set (doc := assign child d).
  set (docs1 := map (onId (_id child) (fun n => assign n d)) (docs s)).
  set (s1 := mkStore docs1 (nextId s) (writes s ++ [WUpdate (_id doc) d])).
  assert (Hup : super_update (by_id (_id child)) d s = (Ok doc, s1)).
  { unfold super_update. rewrite (@replaceFirst_by_id _ _ _ ND Hin). reflexivity. }
  assert (ND1 : NoDup (map _id docs1)).
  { unfold docs1. rewrite map_id_onId by reflexivity. assumption. }
  assert (Hdoc1 : In doc docs1).
  { unfold docs1. apply in_map_iff. exists child. split; [|assumption].
    unfold onId. now rewrite oid_eqb_refl. }
  assert (Hidc : _id child <> None).
  { destruct (Wid child Hin) as [i [-> _]]. discriminate. }
  (* the sort-order maintainer *)
  assert (Hso : exists s2,
             updateSortOrder doc true s1 = (Ok tt, s2)
             /\ docs s2 = map (numbered 0 (if needsOrder doc
                                           then upsertOrder doc docs1 else [])) docs1).
  { destruct (needsOrder doc) eqn:Hn.
    - exists (mkStore (map (numbered 0 (upsertOrder doc docs1)) docs1) (nextId s1)
                (writes s1 ++ renumberWrites 0 (upsertOrder doc docs1))).
      split; [|reflexivity].
      apply (updateSortOrder_run doc true s1); [assumption | assumption |].
      split; [now apply in_map | assumption].
    - exists s1. split; [now apply updateSortOrder_skip|].
      cbn [docs s1]. simpl. now rewrite map_id. }
  destruct Hso as (s2 & Hso & Hdocs2).
  destruct (updateEnabledPlugins_total ext gps src doc (isSome (d_enabledPlugins d)) s2)
    as [s3 Hep].
  pose proof (@updateEnabledPlugins_sameButPlugins _ _ _ _ _ _ _ _ Hep) as [_ F23].
  exists s3. split; [|split; [|split]].
  - unfold cut. rewrite Hpid. unfold update. fold d.
    unfold bind at 1. rewrite Hup.
    unfold bind at 1. unfold both. rewrite Hso, Hep. reflexivity.
  - transitivity (map _id (docs s2)).
    + clear -F23. induction F23 as [|a b l l' E F IH]; simpl; [reflexivity|].
      rewrite IH. f_equal. rewrite E. reflexivity.
    + rewrite Hdocs2, map_map.
      rewrite (map_ext _ _id) by (intro; apply numbered_id).
      unfold docs1. now rewrite map_id_onId.
  - transitivity (map _courseId (docs s2)).
    + clear -F23. induction F23 as [|a b l l' E F IH]; simpl; [reflexivity|].
      rewrite IH. f_equal. rewrite E. reflexivity.
    + rewrite Hdocs2, map_map. unfold docs1. rewrite map_map.
      apply map_ext. intro n.
      rewrite numbered_courseId.
      unfold onId. destruct (oid_eqb _ _); reflexivity.
  - intros n' Hn' Hid'.
    destruct (@Forall2_In_r _ _ _ _ _ _ F23 Hn') as (n2 & Hn2 & E2).
    rewrite Hdocs2 in Hn2. apply in_map_iff in Hn2. destruct Hn2 as (n1 & <- & Hn1).
    assert (n1 = doc) as ->.
    { apply (@ids_inj docs1); try assumption.
      rewrite E2 in Hid'. cbn in Hid'. rewrite numbered_id in Hid'. exact Hid'. }
    rewrite E2. cbn [assign _parentId _courseId _sortOrder dEnabledPlugins orElse
                     d_parentId d_courseId d_sortOrder].
    split; [now rewrite numbered_parentId|]. split.
    + now rewrite numbered_courseId.
    + intros k -> Hc Hg Hk.
      assert (Hn : needsOrder doc = true).
      { unfold needsOrder, doc. cbn.
        destruct (ctype_eqb (_type child) config) eqn:E1;
          [apply ctype_eqb_eq in E1; contradiction|].
        destruct (ctype_eqb (_type child) course) eqn:E3;
          [apply ctype_eqb_eq in E3; contradiction|]. reflexivity. }
      rewrite Hn.
      assert (Hfil : filter (qand (by_parent (_parentId doc)) (qnot (by_id (_id doc)))) docs1
                     = filter (qand (by_parent (Some pid)) (qnot (by_id (_id child))))
                         (docs s)).
      { unfold docs1. cbn [doc assign _parentId _id d dCut d_parentId orElse].
        now apply filter_others_onId. }
      rewrite (@numbered_nth_sortOrder (upsertOrder doc docs1) 0 (Z.to_nat (k - 1)) doc).
      * f_equal. lia.
      * now apply upsertOrder_NoDup.
      * unfold upsertOrder. rewrite Hfil.
        cbn [doc assign _sortOrder d dCut d_sortOrder orElse].
        replace (k - 1 >? -1) with true by (symmetry; apply Z.gtb_lt; lia).
        apply splice_nth_le. rewrite sortBy_length. lia.
Qed.

Lemma cut_reparents_keeps_courseId_witness :
  exists s',
    cut [] (fun _ => []) (fun _ => None) c2_parent c2_child (Some 1) c2_store
    = (Ok (assign c2_child (dCut (Some 13%nat) (Some 1))), s')
    /\ map _id (docs s') = map _id (docs c2_store)
    /\ map _courseId (docs s') = map _courseId (docs c2_store)
    /\ forall n', In n' (docs s') -> _id n' = _id c2_child ->
         _parentId n' = Some 13%nat
         /\ _courseId n' = _courseId c2_child
         /\ forall k, Some 1 = Some k ->
              _type c2_child <> course -> _type c2_child <> config ->
              1 <= k <= Z.of_nat (length (filter (qand (by_parent (Some 13%nat))
                                                   (qnot (by_id (_id c2_child))))
                                            (docs c2_store))) + 1 ->
              _sortOrder n' = Some k.
Proof.
  apply (@cut_reparents_keeps_courseId [] (fun _ => []) (fun _ => None)
           c2_parent c2_child (Some 1) c2_store 13%nat).
  - wf_store.
  - simpl. tauto.
  - reflexivity.
Defined.

(** C2 as stated fails: block 4 of course 1 is cut into article 13 of
    course 10; afterwards the block and its component still carry
    [_courseId] 1. *)
Lemma cut_across_courses_counterexample :
  let r := cut [] (fun _ => []) (fun _ => None) c2_parent c2_child (Some 1) c2_store in
  _courseId c2_parent = Some 10%nat
  /\ _courseId c2_child = Some 1%nat
  /\ fst r = Ok (mk 4 block (Some 13%nat) (Some 1%nat) (Some 1) None)
  /\ docs (snd r)
     = [ mk 3 article (Some 2%nat) (Some 1%nat) (Some 1) None;
         mk 4 block (Some 13%nat) (Some 1%nat) (Some 1) None;
         mk 5 component (Some 4%nat) (Some 1%nat) (Some 1) (Some Lfull);
         c2_parent ]
  /\ ~ (forall n, In n (docs (snd r)) ->
          _id n = Some 4%nat \/ _id n = Some 5%nat -> _courseId n = Some 10%nat).
Proof.
  cbv zeta. split; [reflexivity|]. split; [reflexivity|].
  split; [vm_compute; reflexivity|]. split; [vm_compute; reflexivity|].
  intro H.
  specialize (H (mk 4 block (Some 13%nat) (Some 1%nat) (Some 1) None)).
  assert (E : _courseId (mk 4 block (Some 13%nat) (Some 1%nat) (Some 1) None)
              = Some 10%nat).
  { apply H; [vm_compute; tauto | now left]. }
  discriminate E.
Qed.

(** ** insertRecursive has no rollback *)

(** C1: the component insert of the chain fails; the page, article and
    block the call created before are still in the store and no delete was
    issued. *)
Theorem insertRecursive_keeps_partial_chain :
  let r := insertRecursive c1_validate [] (fun _ => []) (fun _ => None)
             (fun _ key => key) None
             (Some 1%nat) (Some "user1"%string) emptyDelta false None noOptions
             c1_store in
  fst r = Throw ValidationFailure
  /\ map (fun n => (_id n, _type n, _parentId n)) (docs (snd r))
     = [ (Some 1%nat, course, None);
         (Some 2%nat, config, None);
         (Some 3%nat, page, Some 1%nat);
         (Some 4%nat, article, Some 3%nat);
         (Some 5%nat, block, Some 4%nat) ]
  /\ filter isDelete (writes (snd r)) = [].
Proof.
  cbv zeta. split; [vm_compute; reflexivity|].
  split; vm_compute; reflexivity.
Qed.

(** ** delete *)

Lemma bfs_spec courseItems :
  (forall c, In c courseItems -> _id c <> None) ->
  forall fuel items ds,
    (forall i, In i items -> _id i <> None) ->
    bfs fuel courseItems items = Ok ds ->
    forall n, In n ds <-> exists i, In i items /\ descendant courseItems i n.
Proof.
  intros Hids. induction fuel as [|f IH]; intros items ds Hitems H n; [discriminate|].
  simpl in H. rewrite expand_Ok in H by assumption.
  set (next := flat_map (fun i => filter (by_parent (_id i)) courseItems) items) in *.
  assert (Hnext : forall c, In c next <->
                    exists i, In i items /\ In c courseItems /\ _parentId c = _id i).
  { intro c. unfold next. rewrite in_flat_map. split.
    - intros [i [Hi Hc]]. apply filter_In in Hc. destruct Hc as [Hc P].
      apply oid_eqb_eq in P. eauto.
    - intros [i [Hi [Hc P]]]. exists i. split; [assumption|].
      apply filter_In. split; [assumption|]. now apply oid_eqb_eq. }
  destruct next as [|c0 next'] eqn:En.
  - inversion H; subst. split; [contradiction|].
    intros [i [Hi D]]. exfalso.
    inversion D as [c Hc P|m c Hm P _]; subst.
    + apply (proj2 (Hnext n)). eauto.
    + apply (proj2 (Hnext m)). eauto.
  - rewrite <- En in *. clear En.
    destruct (bfs f courseItems next) as [r|e] eqn:Er; [|discriminate].
    inversion H; subst. rewrite in_app_iff.
    rewrite (IH next r) by (try assumption; intros i Hi; apply Hids;
                             apply Hnext in Hi; destruct Hi as [? [_ [? _]]]; assumption).
    split.
    + intros [Hn|[m [Hm D]]].
      * apply Hnext in Hn. destruct Hn as [i [Hi [Hc P]]].
        exists i. split; [assumption|]. now constructor.
      * apply Hnext in Hm. destruct Hm as [i [Hi [Hc P]]].
        exists i. split; [assumption|]. eapply desc_step; eassumption.
    + intros [i [Hi D]]. inversion D as [c Hc P|m c Hm P D']; subst.
      * left. apply Hnext. eauto.
      * right. exists m. split; [|assumption]. apply Hnext. eauto.
Qed.

Lemma descendant_rank rk B l r c :
  ranked rk B l -> descendant l r c -> (rk (_id r) < rk (_id c))%nat.
Proof.
  intros R D. induction D as [r c Hc P|r m c Hm P D IH].
  - destruct (R c Hc) as (_ & H & _). now rewrite P in H.
  - destruct (R m Hm) as (_ & H & _). rewrite P in H. lia.
Qed.

(** Restricting to the documents of the root's course loses no descendant
    when children carry their parent's [_courseId]. *)
Lemma descendant_in_course l r c :
  (forall x p, In x l -> _parentId x = _id p -> (p = r \/ In p l) ->
               _courseId x = _courseId p) ->
  descendant l r c ->
  descendant (filter (by_course (_courseId r)) l) r c.
Proof.
  intros Hc D.
  assert (G : forall r0, (r0 = r \/ In r0 l) -> _courseId r0 = _courseId r ->
                descendant l r0 c ->
                descendant (filter (by_course (_courseId r)) l) r0 c).
  { clear D. intros r0 Hr0 E D. induction D as [r0 c Hin P|r0 m c Hm P D IH].
    - apply desc_child; [|assumption]. apply filter_In. split; [assumption|].
      apply oid_eqb_eq. rewrite <- E. now apply Hc.
    - assert (Em : _courseId m = _courseId r) by (rewrite <- E; now apply Hc).
      eapply desc_step; [| exact P | apply IH; auto].
      apply filter_In. split; [assumption|]. now apply oid_eqb_eq. }
  apply G; auto.
Qed.

Lemma descendant_incl l l' r c :
  incl l l' -> descendant l r c -> descendant l' r c.
Proof.
  intros I D. induction D as [r c Hc P|r m c Hm P D IH].
  - apply desc_child; auto.
  - eapply desc_step; eauto.
Qed.

Lemma filter_filter {A} (f g : A -> bool) l :
  filter g (filter f l) = filter (fun x => f x && g x) l.
Proof.
  induction l as [|a l IH]; simpl; [reflexivity|].
  destruct (f a); simpl; [destruct (g a)|]; now rewrite IH.
Qed.

Lemma filter_all {A} (f : A -> bool) l : (forall x, f x = true) -> filter f l = l.
Proof.
  intro H. induction l as [|a l IH]; [reflexivity|].
  cbn [filter]. now rewrite H, IH.
Qed.

Lemma filter_none_among l0 : filter (fun n => negb (among [] n)) l0 = l0.
Proof. apply filter_all. reflexivity. Qed.

Lemma deleteAll_spec l : forall s,
  NoDup (map _id (docs s)) ->
  deleteAll (map Some l) s
  = (Ok tt, mkStore (filter (fun n => negb (among l n)) (docs s)) (nextId s)
              (writes s ++ map (fun d => WDelete (_id d)) l)).
Proof.
  induction l as [|d l IH]; intros s ND.
  - cbn [map deleteAll]. unfold ret. rewrite app_nil_r, filter_none_among.
    destruct s; reflexivity.
  - cbn [map deleteAll]. unfold bind, super_delete. rewrite IH; cbn [docs nextId writes].
    + rewrite removeFirst_by_id by assumption. rewrite filter_filter, <- app_assoc.
      rewrite (filter_ext _ (fun n => negb (among (d :: l) n))); [reflexivity|].
      intro x. unfold among, by_id. cbn [existsb]. now rewrite negb_orb.
    + now apply removeFirst_NoDup.
Qed.

Lemma among_app l1 l2 n : among (l1 ++ l2) n = among l1 n || among l2 n.
Proof. unfold among. apply existsb_app. Qed.

Lemma among_false l n :
  among l n = false <-> forall d, In d l -> _id n <> _id d.
Proof.
  unfold among. split.
  - intros H d Hd E.
    assert (T : existsb (fun d0 => oid_eqb (_id n) (_id d0)) l = true).
    { apply existsb_exists. exists d. split; [assumption | now apply oid_eqb_eq]. }
    congruence.
  - intro H. destruct (existsb _ l) eqn:E; [|reflexivity].
    apply existsb_exists in E. destruct E as [d [Hd E]].
    apply oid_eqb_eq in E. exfalso. exact (H d Hd E).
Qed.

Lemma Forall2_sameId l l' : Forall2 sameId l l' -> map _id l' = map _id l.
Proof. induction 1 as [|a b l l' E F IH]; simpl; congruence. Qed.

Lemma updateSortOrder_ids item updateData s r s' :
  updateSortOrder item updateData s = (r, s') -> map _id (docs s') = map _id (docs s).
Proof.
  intro H.
  assert (R : revises sameId s (snd (updateSortOrder item updateData s))).
  { apply (@revising_updateSortOrder sameId); unfold sameId;
      [reflexivity | congruence | reflexivity | exact I]. }
  rewrite H in R. destruct R as [_ R]. now apply Forall2_sameId.
Qed.

Section Delete.

Variable extensionNames : list plugin.
Variable getPluginSchemas : plugin -> list string.
Variable schemaSource : string -> option string.

Lemma delete_not_found fuel query s :
  filter query (docs s) = [] ->
  delete extensionNames getPluginSchemas schemaSource fuel query s
  = (Throw NOT_FOUND, s).
Proof. intro H. unfold delete, bind, find. now rewrite H. Qed.

Lemma delete_found rk B fuel query s T rest :
  WF s ->
  filter query (docs s) = T :: rest ->
  ranked rk B (filter (by_course (_courseId T)) (docs s)) ->
  (B < fuel)%nat ->
  (_type T = course ->
   List.find (by_type config) (filter (by_course (_courseId T)) (docs s)) <> None) ->
  (needsOrder T = true -> In (_parentId T) (map _id (docs s))) ->
  exists ds0 ds s',
    bfs fuel (filter (by_course (_courseId T)) (docs s)) [T] = Ok ds0
    /\ ds = ds0 ++ (if ctype_eqb (_type T) course
                    then match List.find (by_type config)
                                 (filter (by_course (_courseId T)) (docs s)) with
                         | Some cfg => [cfg]
                         | None => []
                         end
                    else [])
    /\ delete extensionNames getPluginSchemas schemaSource fuel query s
       = (Ok (map Some (T :: ds)), s')
    /\ map _id (docs s')
       = map _id (filter (fun n => negb (among (ds ++ [T]) n)) (docs s)).
Proof.
  intros [ND Wid] Hq R HB Hcfg Hpar.
  set (courseItems := filter (by_course (_courseId T)) (docs s)) in *.
  assert (HT : In T (docs s)).
  { assert (H : In T (filter query (docs s))) by (rewrite Hq; now left).
    now apply filter_In in H. }
  assert (HTc : In T courseItems).
  { apply filter_In. split; [assumption | apply oid_eqb_refl]. }
  assert (HTid : _id T <> None) by (apply (R T HTc)).
  destruct (@bfs_total rk B courseItems R fuel 0%nat [T]) as [ds0 Hbfs]; [lia | lia | |].
  { intros i [<-|[]]. split; [assumption | lia]. }
  set (extra := if ctype_eqb (_type T) course
                then match List.find (by_type config) courseItems with
                     | Some cfg => [cfg]
                     | None => []
                     end
                else []).
  set (ds := ds0 ++ extra).
  assert (Hget : getDescendants fuel T s = (Ok (map Some ds), s)).
  { unfold getDescendants, bind, find. fold courseItems. rewrite Hbfs.
    unfold ret, ds, extra. rewrite map_app.
    destruct (ctype_eqb (_type T) course) eqn:Ec.
    - apply ctype_eqb_eq in Ec. specialize (Hcfg Ec).
      destruct (List.find (by_type config) courseItems); [reflexivity | congruence].
    - simpl. now rewrite app_nil_r. }
  set (s1 := mkStore (filter (fun n => negb (among (ds ++ [T]) n)) (docs s)) (nextId s)
               (writes s ++ map (fun d => WDelete (_id d)) (ds ++ [T]))).
  assert (Hdel : deleteAll (map Some ds ++ [Some T]) s = (Ok tt, s1)).
  { change [Some T] with (map Some [T]). rewrite <- map_app.
    now apply deleteAll_spec. }
  destruct (updateEnabledPlugins_total extensionNames getPluginSchemas schemaSource
              T false s1) as [s2 Hep].
  pose proof (@updateEnabledPlugins_sameOrder _ _ _ _ _ _ _ _ Hep) as [_ F12].
  apply Forall2_sameOrder_ids in F12.
  assert (Hso : exists s3, updateSortOrder T false s2 = (Ok tt, s3)).
  { destruct (needsOrder T) eqn:Hn.
    - eexists. apply (updateSortOrder_run T false s2 Hn).
      + rewrite F12. cbn [docs s1]. now apply NoDup_map_filter.
      + apply filter_by_id_present. rewrite F12. cbn [docs s1].
        specialize (Hpar eq_refl). apply in_map_iff in Hpar.
        destruct Hpar as (P & HP & HPin). rewrite <- HP. apply in_map.
        apply filter_In. split; [assumption|]. apply negb_true_iff.
        apply among_false. intros d Hd E.
        destruct (R T HTc) as (_ & Hlt & _). rewrite <- HP, E in Hlt.
        apply in_app_or in Hd. destruct Hd as [Hd|[<-|[]]]; [|lia].
        unfold ds in Hd. apply in_app_or in Hd. destruct Hd as [Hd|Hd].
        * assert (Hroot : forall i, In i [T] -> _id i <> None)
            by (intros i [<-|[]]; assumption).
          apply (@bfs_spec courseItems (fun c Hc => proj1 (R c Hc)) fuel [T] ds0
                   Hroot Hbfs d) in Hd.
          destruct Hd as (i & [<-|[]] & D).
          pose proof (@descendant_rank rk B courseItems _ _ R D). lia.
        * unfold extra in Hd. unfold needsOrder in Hn.
          destruct (ctype_eqb (_type T) course); [|contradiction].
          rewrite orb_true_r in Hn. discriminate.
    - exists s2. now apply updateSortOrder_skip. }
  destruct Hso as [s3 Hso].
  exists ds0, ds, s3. split; [assumption|]. split; [reflexivity|]. split.
  - unfold delete. unfold bind at 1. unfold find at 1. rewrite Hq. cbv beta iota.
    unfold bind at 1. rewrite Hget. unfold bind at 1. rewrite Hdel.
    unfold bind at 1. unfold both. rewrite Hep, Hso. reflexivity.
  - rewrite (@updateSortOrder_ids _ _ _ _ _ Hso), F12. reflexivity.
Qed.

End Delete.

(** C5 (amended): on a well-formed, acyclic store whose children carry
    their parent's [_courseId], for a target [T] that has a config if it is
    a course and a stored parent if it takes part in the ordering, [delete]
    of a query resolving to [T] returns [T] followed by exactly the
    transitive descendants of [T] (and the course's config when [T] is a
    course); no document with a returned [_id] is left, every other
    document is.  A query resolving to nothing fails with [NOT_FOUND] and
    leaves the store as it was. *)
Theorem delete_returns_subtree :
  forall extensionNames getPluginSchemas schemaSource rk B fuel query absent s T rest,
    WF s ->
    filter absent (docs s) = [] ->
    filter query (docs s) = T :: rest ->
    ranked rk B (filter (by_course (_courseId T)) (docs s)) ->
    (B < fuel)%nat ->
    (forall x p, In x (docs s) -> In p (docs s) -> _parentId x = _id p ->
                 _courseId x = _courseId p) ->
    (_type T = course ->
     List.find (by_type config) (filter (by_course (_courseId T)) (docs s)) <> None) ->
    (needsOrder T = true -> In (_parentId T) (map _id (docs s))) ->
    delete extensionNames getPluginSchemas schemaSource fuel absent s
    = (Throw NOT_FOUND, s)
    /\ exists ds s',
         delete extensionNames getPluginSchemas schemaSource fuel query s
         = (Ok (map Some (T :: ds)), s')
         /\ (forall n, In n ds <->
               descendant (docs s) T n
               \/ (_type T = course
                   /\ List.find (by_type config)
                        (filter (by_course (_courseId T)) (docs s)) = Some n))
         /\ (forall n, In n (T :: ds) -> ~ In (_id n) (map _id (docs s')))
         /\ (forall m, In m (docs s) ->
               (forall n, In n (T :: ds) -> _id n <> _id m) ->
               In (_id m) (map _id (docs s'))).
Proof.
  intros ext gps src rk B fuel query absent s T rest W Habs Hq R HB Hcourse Hcfg Hpar.
  split; [now apply delete_not_found|].
  destruct (@delete_found ext gps src rk B fuel query s T rest W Hq R HB Hcfg Hpar)
    as (ds0 & ds & s' & Hbfs & Hds & Hdel & Hids).
  set (courseItems := filter (by_course (_courseId T)) (docs s)) in *.
  assert (HT : In T (docs s)).
  { assert (H : In T (filter query (docs s))) by (rewrite Hq; now left).
    now apply filter_In in H. }
  assert (HTc : In T courseItems).
  { apply filter_In. split; [assumption | apply oid_eqb_refl]. }
  exists ds, s'. split; [assumption|]. split; [|split].
  - intro n. rewrite Hds, in_app_iff.
    assert (Hroot : forall i, In i [T] -> _id i <> None).
    { intros i [<-|[]]. apply (R T HTc). }
    rewrite (@bfs_spec courseItems (fun c Hc => proj1 (R c Hc)) fuel [T] ds0 Hroot Hbfs n).
    split.
    + intros [(i & [<-|[]] & D)|Hx].
      * left. eapply descendant_incl; [|exact D].
        intros x Hx. now apply filter_In in Hx.
      * right. destruct (ctype_eqb (_type T) course) eqn:Ec; [|contradiction].
        apply ctype_eqb_eq in Ec. split; [assumption|].
        destruct (List.find (by_type config) courseItems); [|contradiction].
        destruct Hx as [<-|[]]. reflexivity.
    + intros [D|[Ec F]].
      * left. exists T. split; [now left|].
        apply descendant_in_course; [|assumption].
        intros x p Hx P [->|Hp]; now apply Hcourse.
      * right. rewrite F. apply ctype_eqb_eq in Ec. rewrite Ec. now left.
  - intros n Hn Hin. rewrite Hids in Hin. apply in_map_iff in Hin.
    destruct Hin as (m & E & Hm). apply filter_In in Hm. destruct Hm as [_ Hm].
    apply negb_true_iff in Hm.
    apply (proj1 (among_false _ _) Hm n); [|congruence].
    apply in_or_app. destruct Hn as [<-|Hn]; [right; now left | now left].
  - intros m Hm Hother. rewrite Hids. apply in_map. apply filter_In.
    split; [assumption|]. apply negb_true_iff. apply among_false.
    intros d Hd E. apply (Hother d); [|congruence].
    apply in_app_or in Hd. destruct Hd as [Hd|[<-|[]]]; [now right | now left].
Qed.

Lemma delete_returns_subtree_witness :
  delete [] (fun _ => []) (fun _ => None) 10 (by_id (Some 9%nat)) c5_store
  = (Throw NOT_FOUND, c5_store)
  /\ exists ds s',
       delete [] (fun _ => []) (fun _ => None) 10 (by_id (Some 4%nat)) c5_store
       = (Ok (map Some (c5_article :: ds)), s')
       /\ (forall n, In n ds <->
             descendant (docs c5_store) c5_article n
             \/ (_type c5_article = course
                 /\ List.find (by_type config)
                      (filter (by_course (_courseId c5_article)) (docs c5_store))
                    = Some n))
       /\ (forall n, In n (c5_article :: ds) -> ~ In (_id n) (map _id (docs s')))
       /\ (forall m, In m (docs c5_store) ->
             (forall n, In n (c5_article :: ds) -> _id n <> _id m) ->
             In (_id m) (map _id (docs s'))).
Proof.
  apply (@delete_returns_subtree [] (fun _ => []) (fun _ => None) idRank 6%nat 10%nat
           (by_id (Some 4%nat)) (by_id (Some 9%nat)) c5_store c5_article []).
  - wf_store.
  - reflexivity.
  - reflexivity.
  - intros c Hc. simpl in Hc.
    repeat (destruct Hc as [<-|Hc]; [simpl; repeat split; (discriminate || lia)|]).
    contradiction.
  - lia.
  - intros x p Hx Hp _. simpl in Hx, Hp.
    repeat (destruct Hx as [<-|Hx];
            [repeat (destruct Hp as [<-|Hp]; [reflexivity|]); contradiction|]).
    contradiction.
  - discriminate.
  - intros _. simpl. tauto.
Defined.

(** C5 as stated fails: block 6 is a child of article 4 but carries another
    [_courseId]; deleting the article returns the article and block 5 only,
    and block 6 stays in the store. *)
Lemma delete_foreign_course_counterexample :
  let r := delete [] (fun _ => []) (fun _ => None) 10 (by_id (Some 4%nat))
             c5_foreign_store in
  WF c5_foreign_store
  /\ filter (by_id (Some 4%nat)) (docs c5_foreign_store) = [c5_article]
  /\ descendant (docs c5_foreign_store) c5_article c5_foreign
  /\ fst r = Ok [Some c5_article; Some c5_block]
  /\ filter (by_id (_id c5_foreign)) (docs (snd r)) = [c5_foreign].
Proof.
  cbv zeta. split; [wf_store|]. split; [reflexivity|].
  split; [apply desc_child; [simpl; tauto | reflexivity]|].
  split; vm_compute; reflexivity.
Qed.

(** ** A successful insert, forwards *)

Lemma Forall2_sameButPlugins_ids l l' :
  Forall2 sameButPlugins l l' -> map _id l' = map _id l.
Proof.
  induction 1 as [|a b l l' E F IH]; simpl; [reflexivity|].
  rewrite IH, E. reflexivity.
Qed.

Lemma WF_ids s s' :
  WF s -> map _id (docs s') = map _id (docs s) -> (nextId s <= nextId s')%nat -> WF s'.
Proof.
  intros [ND Wid] E Hn. split; [now rewrite E|].
  intros n Hin. apply (in_map _id) in Hin. rewrite E in Hin.
  apply in_map_iff in Hin. destruct Hin as (m & Em & Hm).
  destruct (Wid m Hm) as (i & Hi & Hlt). exists i. split; [congruence | lia].
Qed.

Lemma WF_after_insert s data :
  WF s ->
  WF (mkStore (docs s ++ [set_id (Some (nextId s)) data]) (S (nextId s))
        (writes s ++ [WInsert (set_id (Some (nextId s)) data)])).
Proof.
  intro W. split; [now apply WF_insert|].
  cbn [docs nextId]. intros n Hn. apply in_app_or in Hn.
  destruct Hn as [Hn|[<-|[]]].
  - destruct W as [_ Wid]. destruct (Wid n Hn) as (i & Hi & Hlt).
    exists i. split; [assumption | lia].
  - exists (nextId s). split; [reflexivity | lia].
Qed.

Section InsertRun.

Variable validate : ContentNode -> bool.
Variable extensionNames : list plugin.
Variable getPluginSchemas : plugin -> list string.
Variable schemaSource : string -> option string.

Lemma insert_run data options s :
  WF s ->
  validate data = true ->
  _type data <> course -> _type data <> config ->
  In (_parentId data) (map _id (docs s)) ->
  let doc := set_id (Some (nextId s)) data in
  let L := if o_updateSortOrder options
           then upsertOrder doc (docs s ++ [doc]) else [] in
  exists s',
    insert validate extensionNames getPluginSchemas schemaSource data options s
    = (Ok doc, s')
    /\ nextId s' = S (nextId s)
    /\ Forall2 sameButPlugins (map (numbered 0 L) (docs s ++ [doc])) (docs s')
    /\ WF s'.
Proof.
  intros W Hv Hc Hg Hp doc L.
  assert (Ec : ctype_eqb (_type data) course = false).
  { destruct (ctype_eqb (_type data) course) eqn:E; [|reflexivity].
    apply ctype_eqb_eq in E. contradiction. }
  assert (Eg : ctype_eqb (_type data) config = false).
  { destruct (ctype_eqb (_type data) config) eqn:E; [|reflexivity].
    apply ctype_eqb_eq in E. contradiction. }
  set (s1 := mkStore (docs s ++ [doc]) (S (nextId s)) (writes s ++ [WInsert doc])).
  assert (W1 : WF s1) by (apply WF_after_insert; assumption).
  assert (Hpid : isSome (_parentId data) = true).
  { apply in_map_iff in Hp. destruct Hp as (p & Ep & Hpin).
    destruct W as [_ Wid]. destruct (Wid p Hpin) as (i & Hi & _).
    rewrite <- Ep, Hi. reflexivity. }
  assert (Hn : needsOrder doc = true).
  { unfold needsOrder, doc. cbn. now rewrite Eg, Ec, Hpid. }
  assert (Hso : exists s2,
            when (o_updateSortOrder options) (updateSortOrder doc true) s1 = (Ok tt, s2)
            /\ docs s2 = map (numbered 0 L) (docs s1) /\ nextId s2 = nextId s1).
  { unfold L. destruct (o_updateSortOrder options); cbn [when].
    - exists (mkStore (map (numbered 0 (upsertOrder doc (docs s1))) (docs s1)) (nextId s1)
                (writes s1 ++ renumberWrites 0 (upsertOrder doc (docs s1)))).
      split; [|split; reflexivity].
      apply (updateSortOrder_run doc true s1 Hn); [apply W1|].
      split; [|discriminate]. apply in_map. apply in_or_app. right. now left.
    - exists s1. split; [reflexivity|]. split; [|reflexivity].
      cbn [numbered]. now rewrite map_id. }
  destruct Hso as (s2 & Hso & Hdocs2 & Hnext2).
  assert (Hep : exists s3,
            when (o_updateEnabledPlugins options)
                 (updateEnabledPlugins extensionNames getPluginSchemas schemaSource
                    doc false) s2 = (Ok tt, s3)
            /\ nextId s3 = nextId s2 /\ Forall2 sameButPlugins (docs s2) (docs s3)).
  { destruct (o_updateEnabledPlugins options); cbn [when].
    - destruct (updateEnabledPlugins_total extensionNames getPluginSchemas schemaSource
                  doc false s2) as [s3 H3].
      exists s3. split; [assumption|].
      now apply (@updateEnabledPlugins_sameButPlugins _ _ _ _ _ _ _ _ H3).
    - exists s2. split; [reflexivity|]. split; [reflexivity|].
      apply Forall2_refl. apply sameButPlugins_refl. }
  destruct Hep as (s3 & Hep & Hnext3 & F23).
  exists s3. split; [|split; [|split]].
  - unfold insert. rewrite Ec, Eg. cbn [negb andb].
    unfold bind at 1. unfold bind at 1. unfold find at 1. cbv beta iota.
    destruct (filter (by_id (_parentId data)) (docs s)) eqn:Ef.
    { exfalso. eapply filter_by_id_present; eassumption. }
    unfold ret at 1. cbv beta iota.
    unfold bind at 1. unfold super_insert. rewrite Hv. cbv beta iota zeta.
    fold doc. fold s1. unfold bind at 1. unfold both. rewrite Hso, Hep. reflexivity.
  - rewrite Hnext3, Hnext2. reflexivity.
  - change (docs s ++ [doc]) with (docs s1). rewrite <- Hdocs2. exact F23.
  - apply (@WF_ids s1); [assumption | | rewrite Hnext3, Hnext2; lia].
    rewrite (Forall2_sameButPlugins_ids F23), Hdocs2, map_map.
    apply map_ext. intro. apply numbered_id.
Qed.

End InsertRun.

(** ** Positions in a contiguous group *)

Lemma filter_by_id_unique l x :
  NoDup (map _id l) -> In x l -> filter (by_id (_id x)) l = [x].
Proof.
  induction l as [|a l IH]; simpl; intros ND Hin; [contradiction|].
  inversion ND as [|? ? Ha ND']; subst. unfold by_id at 1.
  destruct Hin as [->|Hin].
  - rewrite oid_eqb_refl. f_equal.
    destruct (filter (by_id (_id x)) l) as [|y r] eqn:E; [reflexivity|].
    exfalso. assert (Hy : In y (filter (by_id (_id x)) l)) by (rewrite E; now left).
    apply filter_In in Hy. destruct Hy as [Hy Ey]. apply oid_eqb_eq in Ey.
    apply Ha. rewrite <- Ey. now apply in_map.
  - destruct (oid_eqb (_id a) (_id x)) eqn:E; [|auto].
    apply oid_eqb_eq in E. exfalso. apply Ha. rewrite E. now apply in_map.
Qed.

Lemma Forall2_In_l {A B} (R : A -> B -> Prop) l l' x :
  Forall2 R l l' -> In x l -> exists y, In y l' /\ R x y.
Proof.
  induction 1 as [|a b l l' Hab F IH]; simpl; [contradiction|].
  intros [<-|Hx]; [eauto|]. destruct (IH Hx) as [y [Hy HR]]. eauto.
Qed.


Lemma sorted_keys sibs : forall a N,
  sorted soLe sibs ->
  Permutation (map _sortOrder sibs) (map (fun k => Some (Z.of_nat k)) (seq a N)) ->
  map _sortOrder sibs = map (fun k => Some (Z.of_nat k)) (seq a N).
Proof.
  induction sibs as [|x sibs IH]; intros a N HS HP.
  - apply Permutation_nil in HP. now rewrite HP.
  - destruct N as [|N]; [apply Permutation_sym, Permutation_nil in HP; discriminate|].
    inversion HS as [|? ? Hx HS']; subst. cbn [seq map] in *.
    assert (Ex : _sortOrder x = Some (Z.of_nat a)).
    { assert (Ha : In (Some (Z.of_nat a)) (_sortOrder x :: map _sortOrder sibs)).
      { eapply Permutation_in; [symmetry; exact HP | now left]. }
      destruct Ha as [Ha|Ha]; [assumption|].
      apply in_map_iff in Ha. destruct Ha as (y & Ey & Hy).
      rewrite Forall_forall in Hx. specialize (Hx y Hy). unfold soLe in Hx.
      rewrite Ey in Hx.
      assert (Hxin : In (_sortOrder x)
                       (Some (Z.of_nat a) :: map (fun k => Some (Z.of_nat k)) (seq (S a) N))).
      { eapply Permutation_in; [exact HP | now left]. }
      destruct Hxin as [Hxin|Hxin]; [congruence|].
      apply in_map_iff in Hxin. destruct Hxin as (z & Ez & Hz).
      apply in_seq in Hz. rewrite <- Ez in Hx. simpl in Hx.
      apply Z.leb_le in Hx. lia. }
    rewrite Ex in *. f_equal. apply IH; [assumption|].
    eapply Permutation_cons_inv; eassumption.
Qed.

Lemma splice_nth_before {A} i (x : A) l j :
  (j < i)%nat -> (i <= length l)%nat -> nth_error (splice i x l) j = nth_error l j.
Proof.
  intros Hj Hi. unfold splice. rewrite nth_error_app1.
  - rewrite nth_error_firstn. apply Nat.ltb_lt in Hj. now rewrite Hj.
  - rewrite length_firstn. lia.
Qed.

Lemma filter_siblings_fresh l doc p :
  ~ In (_id doc) (map _id l) ->
  filter (qand (by_parent p) (qnot (by_id (_id doc)))) (l ++ [doc])
  = filter (by_parent p) l.
Proof.
  intro Hf. rewrite filter_app. cbn [filter].
  assert (E : qand (by_parent p) (qnot (by_id (_id doc))) doc = false).
  { unfold qand, qnot, by_id. rewrite oid_eqb_refl. apply andb_false_r. }
  rewrite E, app_nil_r. apply filter_ext_in. intros n Hn.
  unfold qand, qnot, by_id.
  destruct (oid_eqb (_id n) (_id doc)) eqn:En; [|apply andb_true_r].
  apply oid_eqb_eq in En. exfalso. apply Hf. rewrite <- En. now apply in_map.
Qed.

(** Inserting [doc] with sort order [k + 1] into a contiguous group puts it
    right after the sibling [b] of order [k], which keeps its order. *)
Lemma insert_after_positions l b doc aid k :
  NoDup (map _id (l ++ [doc])) ->
  ~ In (_id doc) (map _id l) ->
  In b l -> _parentId b = Some aid -> _sortOrder b = Some k ->
  contiguous l (Some aid) ->
  _parentId doc = Some aid -> _sortOrder doc = Some (k + 1) ->
  _sortOrder (numbered 0 (upsertOrder doc (l ++ [doc])) doc) = Some (k + 1)
  /\ _sortOrder (numbered 0 (upsertOrder doc (l ++ [doc])) b) = Some k.
Proof.
  intros ND Hf Hb Hbp Hbk Hc Hdp Hdk.
  pose proof (upsertOrder_NoDup doc (l ++ [doc]) ND) as NDL.
  unfold upsertOrder in *. rewrite Hdp, Hdk in *.
  rewrite filter_siblings_fresh in * by assumption.
  set (G := filter (by_parent (Some aid)) l) in *.
  set (sibs := sortBy so_leb G) in *.
  assert (Hkeys : map _sortOrder sibs
                  = map (fun j => Some (Z.of_nat j)) (seq 1 (length G))).
  { apply sorted_keys; [apply sortBy_sorted|].
    unfold sibs. rewrite (Permutation_map _sortOrder (sortBy_perm so_leb G)).
    exact Hc. }
  assert (HbS : In b sibs).
  { apply (Permutation_in _ (Permutation_sym (sortBy_perm so_leb G))).
    apply filter_In. split; [assumption|]. unfold by_parent. now apply oid_eqb_eq. }
  apply In_nth_error in HbS. destruct HbS as [j Hj].
  assert (Hjk : k = Z.of_nat j + 1 /\ (j < length sibs)%nat).
  { assert (Hlt : (j < length sibs)%nat) by (apply nth_error_Some; congruence).
    split; [|assumption].
    assert (E : nth_error (map _sortOrder sibs) j = Some (Some k))
      by (rewrite nth_error_map, Hj; simpl; now rewrite Hbk).
    rewrite Hkeys, nth_error_map, nth_error_seq in E.
    unfold sibs in Hlt. rewrite sortBy_length in Hlt.
    apply Nat.ltb_lt in Hlt. rewrite Hlt in E. simpl in E. inversion E. lia. }
  destruct Hjk as [-> Hlt].
  replace (Z.of_nat j + 1 + 1 - 1 >? -1) with true in *
    by (symmetry; apply Z.gtb_lt; lia).
  replace (Z.to_nat (Z.of_nat j + 1 + 1 - 1)) with (S j) in * by lia.
  split.
  - rewrite (@numbered_nth_sortOrder _ 0 (S j) doc NDL).
    + f_equal. lia.
    + apply splice_nth_le. lia.
  - rewrite (@numbered_nth_sortOrder _ 0 j b NDL).
    + f_equal.
    + rewrite splice_nth_before by lia. assumption.
Qed.

(** ** appendToBlock *)

Section AppendToBlock.

Variable validate : ContentNode -> bool.
Variable extensionNames : list plugin.
Variable getPluginSchemas : plugin -> list string.
Variable schemaSource : string -> option string.
Variable translate : option string -> string -> string.
Variable defaultLanguage : option string.


Lemma sameButPlugins_tracks L n n' :
  sameButPlugins (numbered 0 L n) n' -> tracks L n n'.
Proof.
  unfold sameButPlugins, tracks. intros ->.
  cbn [assign _id _type _parentId _layout _sortOrder dEnabledPlugins orElse
       d_type d_parentId d_layout d_sortOrder].
  rewrite numbered_id, numbered_type, numbered_parentId, numbered_layout.
  repeat split.
Qed.

Lemma track_forward L l l' n :
  Forall2 sameButPlugins (map (numbered 0 L) l) l' -> In n l ->
  exists n', In n' l' /\ tracks L n n'.
Proof.
  intros F Hn.
  destruct (@Forall2_In_l _ _ _ _ _ (numbered 0 L n) F (in_map _ _ _ Hn))
    as (n' & Hn' & E).
  exists n'. split; [assumption | now apply sameButPlugins_tracks].
Qed.

Lemma track_backward L l l' n' :
  Forall2 sameButPlugins (map (numbered 0 L) l) l' -> In n' l' ->
  exists n, In n l /\ tracks L n n'.
Proof.
  intros F Hn'.
  destruct (@Forall2_In_r _ _ _ _ _ n' F Hn') as (x & Hx & E).
  apply in_map_iff in Hx. destruct Hx as (n & <- & Hn).
  exists n. split; [assumption | now apply sameButPlugins_tracks].
Qed.

End AppendToBlock.

(** ** What a non-cutting clone leaves alone *)


Section Grows.

Variable rel : ContentNode -> ContentNode -> Prop.
Hypothesis rel_refl : forall n, rel n n.
Hypothesis rel_trans : forall a b c, rel a b -> rel b c -> rel a c.
Hypothesis rel_sortOrder : forall n k, rel n (assign n (dSortOrder k)).
Hypothesis rel_enabledPlugins :
  forall n ps, _type n = config -> rel n (assign n (dEnabledPlugins ps)).

Variable b : Id.





















Section Engine.

Variable validate : ContentNode -> bool.
Variable extensionNames : list plugin.
Variable getPluginSchemas : plugin -> list string.
Variable schemaSource : string -> option string.
Variable translate : option string -> string -> string.
Variable defaultLanguage : option string.










End Engine.

End Grows.






(** * Further properties *)

(** ** Walking up and down the tree *)

Lemma ascendToType_state fuel : forall node type s,
  snd (ascendToType fuel node type s) = s.
Proof.
  induction fuel as [|f IH]; intros node type s; cbn [ascendToType]; [reflexivity|].
  unfold bind, find. cbv beta iota.
  destruct (rev _) as [|parent ?]; [reflexivity|].
  destruct (otype_eqb _ _); [reflexivity | apply IH].
Qed.

(** The parent of a descendant is the root or one of its descendants. *)
Lemma descendant_parent l r c :
  descendant l r c ->
  _parentId c = _id r
  \/ exists p, In p l /\ _id p = _parentId c /\ descendant l r p.
Proof.
  induction 1 as [r c Hc Hp | r m c Hm Hmp Hd IH].
  - now left.
  - right. destruct IH as [E | (p & Hp & Ep & Dp)].
    + exists m. split; [assumption|]. split; [now rewrite E|]. now apply desc_child.
    + exists p. split; [assumption|]. split; [assumption|].
      now apply desc_step with m.
Qed.

Lemma descendant_snoc l r p c :
  descendant l r p -> In c l -> _parentId c = _id p -> descendant l r c.
Proof.
  induction 1 as [r p Hp Ep | r m p Hm Em Hd IH]; intros Hc Ec.
  - apply desc_step with p; [assumption..|]. now apply desc_child.
  - apply desc_step with m; [assumption..|]. now apply IH.
Qed.

Lemma filter_by_id_absent i l :
  ~ In i (map _id l) -> filter (by_id i) l = [].
Proof.
  induction l as [|x l IH]; simpl; intro H; [reflexivity|].
  unfold by_id at 1. destruct (oid_eqb (_id x) i) eqn:E.
  - apply oid_eqb_eq in E. exfalso. apply H. now left.
  - apply IH. intro. apply H. now right.
Qed.

Lemma descendant_In l r c : descendant l r c -> In c l.
Proof. induction 1; assumption. Qed.

Lemma ascendToType_spec rk B l :
  NoDup (map _id l) -> ranked rk B l ->
  forall fuel node type s, docs s = l -> In node l -> (rk (_id node) < fuel)%nat ->
    (exists p, fst (ascendToType fuel node type s) = Ok p
       /\ In p l /\ descendant l p node /\ otype_eqb (_type p) type = true
       /\ forall m, descendant l m node -> descendant l p m ->
                    otype_eqb (_type m) type = false)
    \/ (fst (ascendToType fuel node type s) = Throw INVALID_PARENT
        /\ forall m, In m l -> descendant l m node -> otype_eqb (_type m) type = false).
Proof.
  intros ND R. induction fuel as [|f IH]; intros node type s Hs Hn Hr; [lia|].
  cbn [ascendToType]. unfold bind, find. cbv beta iota. rewrite Hs.
  destruct (filter (by_id (_parentId node)) l) as [|p rest] eqn:Ef.
  - right. split; [reflexivity|]. intros m Hm Dm. exfalso.
    assert (Hin : In (_parentId node) (map _id l)).
    { destruct (descendant_parent Dm) as [E | (q & Hq & Eq & _)].
      - rewrite E. now apply in_map.
      - rewrite <- Eq. now apply in_map. }
    now apply filter_by_id_present in Hin.
  - assert (Hp : In p l /\ by_id (_parentId node) p = true).
    { apply filter_In. rewrite Ef. now left. }
    destruct Hp as [Hp Ep]. apply oid_eqb_eq in Ep.
    rewrite <- Ep, (@filter_by_id_unique _ _ ND Hp) in Ef. inversion Ef; subst rest.
    cbn [rev app].
    assert (Dp : descendant l p node) by (apply desc_child; [assumption | now symmetry]).
    assert (Hup : forall m, In m l -> descendant l m node -> m = p \/ descendant l m p).
    { intros m Hm Dm. destruct (descendant_parent Dm) as [E | (q & Hq & Eq & Dq)].
      - left. apply (@ids_inj _ _ _ ND); congruence.
      - right. assert (q = p) by (apply (@ids_inj _ _ _ ND); congruence). now subst. }
    assert (Hlt : (rk (_id p) < rk (_id node))%nat).
    { rewrite Ep. now apply (R node). }
    destruct (otype_eqb (_type p) type) eqn:Et.
    + left. exists p. repeat split; try assumption.
      intros m Dm Dpm. exfalso.
      pose proof (descendant_In Dpm) as Hm.
      pose proof (@descendant_rank _ _ _ _ _ R Dpm) as L1.
      destruct (Hup m Hm Dm) as [->|Dmp]; [lia|].
      pose proof (@descendant_rank _ _ _ _ _ R Dmp). lia.
    + destruct (IH p type s Hs Hp ltac:(lia)) as [(q & Eq & Hq & Dq & Tq & Nq) | [Eq Nq]].
      * left. exists q. split; [exact Eq|]. split; [assumption|].
        split; [now apply descendant_snoc with p|]. split; [assumption|].
        intros m Dm Dqm. pose proof (descendant_In Dqm) as Hm.
        destruct (Hup m Hm Dm) as [->|Dmp]; [assumption | now apply Nq].
      * right. split; [exact Eq|]. intros m Hm Dm.
        destruct (Hup m Hm Dm) as [->|Dmp]; [assumption | now apply Nq].
Qed.

Lemma lodash_leb_total a b : lodash_leb a b = false -> lodash_leb b a = true.
Proof.
  destruct a as [x|], b as [y|]; simpl; try congruence.
  rewrite Z.leb_gt, Z.leb_le. lia.
Qed.

Lemma lodash_leb_trans a b c :
  lodash_leb a b = true -> lodash_leb b c = true -> lodash_leb a c = true.
Proof.
  destruct a as [x|], b as [y|], c as [z|]; simpl; try congruence.
  rewrite !Z.leb_le. lia.
Qed.

Lemma lodash_leb_refl a : lodash_leb a a = true.
Proof. destruct a; simpl; [apply Z.leb_refl | reflexivity]. Qed.

Lemma insertBy_lodash_sorted x l :
  sorted loLe l -> sorted loLe (insertBy lodash_leb x l).
Proof.
  induction 1 as [|y l Hy Hl IH]; simpl.
  - constructor; constructor.
  - destruct (lodash_leb (_sortOrder x) (_sortOrder y)) eqn:E.
    + constructor; [|now constructor].
      constructor; [exact E|].
      eapply Forall_impl; [|exact Hy]. intros z Hz. unfold loLe in *.
      eapply lodash_leb_trans; eassumption.
    + constructor; [|assumption].
      apply Forall_forall. intros z Hz.
      apply (Permutation_in _ (insertBy_perm lodash_leb x l)) in Hz.
      destruct Hz as [<-|Hz].
      * now apply lodash_leb_total.
      * rewrite Forall_forall in Hy. now apply Hy.
Qed.

Lemma sortBy_lodash_sorted l : sorted loLe (sortBy lodash_leb l).
Proof.
  induction l as [|x l IH]; simpl; [constructor | now apply insertBy_lodash_sorted].
Qed.

Lemma sorted_last l : sorted loLe l ->
  forall c rest, rev l = c :: rest -> forall y, In y l -> loLe y c.
Proof.
  induction 1 as [|x l Hx Hl IH]; intros c rest E y Hy; [contradiction|].
  cbn [rev] in E. destruct (rev l) as [|c' rest'] eqn:Er.
  - cbn in E. inversion E; subst c rest.
    assert (l = []) by (apply (f_equal (@rev _)) in Er; now rewrite rev_involutive in Er).
    subst l. destruct Hy as [<-|[]]. apply lodash_leb_refl.
  - cbn in E. inversion E; subst c' rest.
    destruct Hy as [<-|Hy].
    + rewrite Forall_forall in Hx. apply Hx. apply in_rev. rewrite Er. now left.
    + now apply (IH c rest').
Qed.

(** The last element of the lodash sort is a greatest one. *)
Lemma sortBy_lodash_last l c rest :
  rev (sortBy lodash_leb l) = c :: rest ->
  In c l /\ forall y, In y l -> lodash_leb (_sortOrder y) (_sortOrder c) = true.
Proof.
  intro E. split.
  - apply (Permutation_in _ (sortBy_perm lodash_leb l)). apply in_rev. rewrite E. now left.
  - intros y Hy. apply (sorted_last (sortBy_lodash_sorted l) E).
    apply (Permutation_in _ (Permutation_sym (sortBy_perm lodash_leb l))). exact Hy.
Qed.

Lemma descendToType_state fuel : forall node type s,
  snd (descendToType fuel node type s) = s.
Proof.
  induction fuel as [|f IH]; intros node type s; cbn [descendToType]; [reflexivity|].
  unfold bind, find. cbv beta iota.
  destruct (rev _) as [|lastChild ?]; [reflexivity|].
  destruct (otype_eqb _ _); [reflexivity | apply IH].
Qed.

Lemma descendToType_spec rk B l :
  ranked rk B l ->
  forall fuel node type s, docs s = l -> (rk (_id node) <= B)%nat ->
    (B < fuel + rk (_id node))%nat ->
    exists r, fst (descendToType fuel node type s) = Ok r
      /\ lastLine l node r
      /\ (filter (by_parent (_id r)) l = []
          \/ otype_eqb (_type r) type = true /\ descendant l node r).
Proof.
  intros R. induction fuel as [|f IH]; intros node type s Hs Hb Hf; [lia|].
  cbn [descendToType]. unfold bind, find. cbv beta iota. rewrite Hs.
  destruct (rev (sortBy lodash_leb (filter (by_parent (_id node)) l)))
    as [|c rest] eqn:E.
  - exists node. split; [reflexivity|]. split; [constructor|]. left.
    apply (f_equal (@rev _)) in E. rewrite rev_involutive in E. cbn in E.
    apply (f_equal (@length _)) in E. rewrite sortBy_length in E.
    now apply length_zero_iff_nil.
  - destruct (sortBy_lodash_last _ E) as [Hc Hmax].
    apply filter_In in Hc. destruct Hc as [Hc Ec]. apply oid_eqb_eq in Ec.
    assert (LC : lastChildOf l node c).
    { split; [assumption|]. split; [assumption|]. intros c' Hc' Ec'.
      apply Hmax. apply filter_In. split; [assumption|]. now apply oid_eqb_eq. }
    destruct (R c Hc) as (_ & Hlt & Hle). rewrite Ec in Hlt.
    destruct (otype_eqb (_type c) type) eqn:Et.
    + exists c. split; [reflexivity|]. split; [apply last_down with c; [assumption | constructor]|].
      right. split; [assumption|]. now apply desc_child.
    + destruct (IH c type s Hs Hle ltac:(lia)) as (r & Er & Lr & Pr).
      exists r. split; [exact Er|]. split; [now apply last_down with c|].
      destruct Pr as [Pr | [Tr Dr]]; [now left|]. right. split; [assumption|].
      now apply desc_step with c.
Qed.

(** X6: [ascendToType] reads only.  On an acyclic store with unique identifiers
    it returns the nearest strict ancestor of the required type, and throws
    [INVALID_PARENT] exactly when no stored ancestor has that type. *)
Theorem ascendToType_nearest_ancestor :
  forall rk B fuel node type s,
    NoDup (map _id (docs s)) ->
    ranked rk B (docs s) ->
    In node (docs s) ->
    (B < fuel)%nat ->
    snd (ascendToType fuel node type s) = s
    /\ ((exists p, fst (ascendToType fuel node type s) = Ok p
           /\ In p (docs s) /\ descendant (docs s) p node
           /\ otype_eqb (_type p) type = true
           /\ forall m, descendant (docs s) m node -> descendant (docs s) p m ->
                        otype_eqb (_type m) type = false)
        \/ (fst (ascendToType fuel node type s) = Throw INVALID_PARENT
            /\ forall m, In m (docs s) -> descendant (docs s) m node ->
                         otype_eqb (_type m) type = false)).
Proof.
  intros rk B fuel node type s ND R Hn HB.
  split; [apply ascendToType_state|].
  apply (@ascendToType_spec rk B (docs s) ND R fuel node type s eq_refl Hn).
  destruct (R node Hn) as (_ & _ & Hle). lia.
Qed.

Lemma ascendToType_nearest_ancestor_witness :
  snd (ascendToType 7 x_component (Some article) c5_store) = c5_store
  /\ ((exists p, fst (ascendToType 7 x_component (Some article) c5_store) = Ok p
         /\ In p (docs c5_store) /\ descendant (docs c5_store) p x_component
         /\ otype_eqb (_type p) (Some article) = true
         /\ forall m, descendant (docs c5_store) m x_component ->
                      descendant (docs c5_store) p m ->
                      otype_eqb (_type m) (Some article) = false)
      \/ (fst (ascendToType 7 x_component (Some article) c5_store) = Throw INVALID_PARENT
          /\ forall m, In m (docs c5_store) -> descendant (docs c5_store) m x_component ->
                       otype_eqb (_type m) (Some article) = false)).
Proof.
  apply (@ascendToType_nearest_ancestor idRank 6%nat 7%nat x_component (Some article)
           c5_store).
  - nodup_ids.
  - intros c Hc. simpl in Hc.
    repeat (destruct Hc as [<-|Hc]; [simpl; repeat split; (discriminate || lia)|]).
    contradiction.
  - simpl. tauto.
  - lia.
Defined.

(** X7: [descendToType] reads only.  On an acyclic store it follows last-sorted
    children from the node and returns the first one of the required type,
    or the childless document the line ends in; the node itself is returned
    only when it has no children, also when it has the required type. *)
Theorem descendToType_last_line :
  forall rk B fuel node type s,
    ranked rk B (docs s) ->
    In node (docs s) ->
    (B < fuel)%nat ->
    exists r,
      descendToType fuel node type s = (Ok r, s)
      /\ lastLine (docs s) node r
      /\ (filter (by_parent (_id r)) (docs s) = []
          \/ otype_eqb (_type r) type = true /\ descendant (docs s) node r).
Proof.
  intros rk B fuel node type s R Hn HB.
  destruct (R node Hn) as (_ & _ & Hle).
  destruct (@descendToType_spec rk B (docs s) R fuel node type s eq_refl Hle)
    as (r & E & L & P); [lia|].
  exists r. split; [|tauto].
  pose proof (descendToType_state fuel node type s) as Hs.
  destruct (descendToType fuel node type s) as [o s']. cbn in *. now subst.
Qed.

Lemma descendToType_last_line_witness :
  exists r,
    descendToType 7 x_course (Some block) c5_store = (Ok r, c5_store)
    /\ lastLine (docs c5_store) x_course r
    /\ (filter (by_parent (_id r)) (docs c5_store) = []
        \/ otype_eqb (_type r) (Some block) = true
           /\ descendant (docs c5_store) x_course r).
Proof.
  apply (@descendToType_last_line idRank 6%nat 7%nat x_course (Some block) c5_store).
  - intros c Hc. simpl in Hc.
    repeat (destruct Hc as [<-|Hc]; [simpl; repeat split; (discriminate || lia)|]).
    contradiction.
  - simpl. tauto.
  - lia.
Defined.

(** ** insert, type by type *)

Lemma fresh_forallb s :
  WF s -> forallb (fun n => negb (by_id (Some (nextId s)) n)) (docs s) = true.
Proof.
  intros [_ Wid]. apply forallb_forall. intros n Hn.
  destruct (Wid n Hn) as (i & Hi & Hlt). unfold by_id. rewrite Hi.
  apply negb_true_iff. simpl. apply Nat.eqb_neq. lia.
Qed.

Section InsertRun2.

Variable validate : ContentNode -> bool.
Variable extensionNames : list plugin.
Variable getPluginSchemas : plugin -> list string.
Variable schemaSource : string -> option string.

(** A config is stored without a parent check and is never numbered. *)
Lemma insert_config_run data options s :
  WF s ->
  validate data = true ->
  _type data = config ->
  let doc := set_id (Some (nextId s)) data in
  exists s',
    insert validate extensionNames getPluginSchemas schemaSource data options s
    = (Ok doc, s')
    /\ nextId s' = S (nextId s)
    /\ Forall2 sameButPlugins (docs s ++ [doc]) (docs s')
    /\ WF s'.
Proof.
  intros W Hv Ht doc.
  set (s1 := mkStore (docs s ++ [doc]) (S (nextId s)) (writes s ++ [WInsert doc])).
  assert (W1 : WF s1) by (apply WF_after_insert; assumption).
  assert (Hso : when (o_updateSortOrder options) (updateSortOrder doc true) s1 = (Ok tt, s1)).
  { destruct (o_updateSortOrder options); cbn [when]; [|reflexivity].
    apply updateSortOrder_skip. unfold needsOrder, doc. cbn. now rewrite Ht. }
  assert (Hep : exists s3,
            when (o_updateEnabledPlugins options)
                 (updateEnabledPlugins extensionNames getPluginSchemas schemaSource
                    doc false) s1 = (Ok tt, s3)
            /\ nextId s3 = nextId s1 /\ Forall2 sameButPlugins (docs s1) (docs s3)).
  { destruct (o_updateEnabledPlugins options); cbn [when].
    - destruct (updateEnabledPlugins_total extensionNames getPluginSchemas schemaSource
                  doc false s1) as [s3 H3].
      exists s3. split; [assumption|].
      now apply (@updateEnabledPlugins_sameButPlugins _ _ _ _ _ _ _ _ H3).
    - exists s1. split; [reflexivity|]. split; [reflexivity|].
      apply Forall2_refl. apply sameButPlugins_refl. }
  destruct Hep as (s3 & Hep & Hnext3 & F13).
  exists s3. split; [|split; [|split]].
  - unfold insert. rewrite Ht. cbn [ctype_eqb negb andb].
    unfold bind at 1. unfold ret at 1. cbv beta iota.
    unfold bind at 1. unfold super_insert. rewrite Hv. cbv beta iota zeta.
    fold doc. fold s1. unfold bind at 1. unfold both. rewrite Hso, Hep. reflexivity.
  - rewrite Hnext3. reflexivity.
  - exact F13.
  - apply (@WF_ids s1); [assumption | | rewrite Hnext3; lia].
    apply (Forall2_sameButPlugins_ids F13).
Qed.

(** A course is stored and at once given its own [_id] as [_courseId]. *)
Lemma insert_course_run data options s :
  WF s ->
  validate data = true ->
  _type data = course ->
  let doc := assign (set_id (Some (nextId s)) data) (dCourseId (Some (nextId s))) in
  exists s',
    insert validate extensionNames getPluginSchemas schemaSource data options s
    = (Ok doc, s')
    /\ nextId s' = S (nextId s)
    /\ Forall2 sameButPlugins (docs s ++ [doc]) (docs s')
    /\ WF s'.
Proof.
  intros W Hv Ht doc.
  set (doc0 := set_id (Some (nextId s)) data).
  set (s1 := mkStore (docs s ++ [doc0]) (S (nextId s)) (writes s ++ [WInsert doc0])).
  set (s2 := mkStore (docs s ++ [doc]) (S (nextId s))
               (writes s1 ++ [WUpdate (Some (nextId s)) (dCourseId (Some (nextId s)))])).
  assert (W2 : WF s2).
  { apply (@WF_ids s1); [apply WF_after_insert; assumption | | cbn; lia].
    cbn [docs s1 s2]. rewrite !map_app. reflexivity. }
  assert (Hup : super_update (by_id (Some (nextId s))) (dCourseId (Some (nextId s))) s1
                = (Ok doc, s2)).
  { unfold super_update. cbn [docs s1].
    rewrite (@replaceFirst_app_fresh _ (fun n => assign n (dCourseId (Some (nextId s))))
               _ doc0 (fresh_forallb W)).
    - reflexivity.
    - unfold by_id, doc0. cbn. apply Nat.eqb_refl. }
  assert (Hso : updateSortOrder doc true s2 = (Ok tt, s2)).
  { apply updateSortOrder_skip. unfold needsOrder, doc. cbn. now rewrite Ht. }
  destruct (updateEnabledPlugins_total extensionNames getPluginSchemas schemaSource
              doc false s2) as [s3 H3].
  destruct (@updateEnabledPlugins_sameButPlugins _ _ _ _ _ _ _ _ H3) as [Hnext3 F23].
  exists s3. split; [|split; [|split]].
  - unfold insert. rewrite Ht. cbn [ctype_eqb negb andb].
    unfold bind at 1. unfold ret at 1. cbv beta iota.
    unfold bind at 1. unfold super_insert. rewrite Hv. cbv beta iota zeta.
    fold doc0. fold s1. unfold update. unfold bind at 1.
    change (_id doc0) with (Some (nextId s)). rewrite Hup.
    unfold bind at 1. unfold both. rewrite Hso.
    change (isSome (d_enabledPlugins (dCourseId (Some (nextId s))))) with false.
    rewrite H3. reflexivity.
  - rewrite Hnext3. reflexivity.
  - exact F23.
  - apply (@WF_ids s2); [assumption | | rewrite Hnext3; lia].
    apply (Forall2_sameButPlugins_ids F23).
Qed.

(** Whatever its type, an accepted payload whose parent is stored (or that
    needs none) is stored under the next identifier. *)
Lemma insert_any_run data options s :
  WF s ->
  validate data = true ->
  _type data = course \/ _type data = config \/ In (_parentId data) (map _id (docs s)) ->
  exists doc s',
    insert validate extensionNames getPluginSchemas schemaSource data options s
    = (Ok doc, s')
    /\ doc = (if ctype_eqb (_type data) course
              then assign (set_id (Some (nextId s)) data) (dCourseId (Some (nextId s)))
              else set_id (Some (nextId s)) data)
    /\ nextId s' = S (nextId s)
    /\ map _id (docs s') = map _id (docs s) ++ [Some (nextId s)]
    /\ WF s'.
Proof.
  intros W Hv H.
  destruct (ctype_eqb (_type data) course) eqn:Ec.
  - apply ctype_eqb_eq in Ec.
    destruct (@insert_course_run data options s W Hv Ec) as (s' & E & N & F & W').
    eexists; exists s'. split; [exact E|]. split; [reflexivity|]. split; [assumption|].
    split; [|assumption].
    rewrite (Forall2_sameButPlugins_ids F), map_app. reflexivity.
  - destruct (ctype_eqb (_type data) config) eqn:Eg.
    + apply ctype_eqb_eq in Eg.
      destruct (@insert_config_run data options s W Hv Eg) as (s' & E & N & F & W').
      eexists; exists s'. split; [exact E|]. split; [reflexivity|]. split; [assumption|].
      split; [|assumption].
      rewrite (Forall2_sameButPlugins_ids F), map_app. reflexivity.
    + assert (Hc : _type data <> course).
      { intro X. apply ctype_eqb_eq in X. congruence. }
      assert (Hg : _type data <> config).
      { intro X. apply ctype_eqb_eq in X. congruence. }
      destruct H as [H|[H|H]]; [contradiction..|].
      destruct (@insert_run validate extensionNames getPluginSchemas schemaSource
                  data options s W Hv Hc Hg H) as (s' & E & N & F & W').
      eexists; exists s'. split; [exact E|]. split; [reflexivity|]. split; [assumption|].
      split; [|assumption].
      rewrite (Forall2_sameButPlugins_ids F), map_map.
      rewrite (map_ext _ _id) by (intro; apply numbered_id).
      rewrite map_app. reflexivity.
Qed.

End InsertRun2.

Lemma splice_nth_after {A} i (x : A) l j :
  (i <= j)%nat -> (i <= length l)%nat ->
  nth_error (splice i x l) (S j) = nth_error l j.
Proof.
  intros Hj Hi. unfold splice. rewrite nth_error_app2; rewrite length_firstn; [|lia].
  replace (S j - Nat.min i (length l))%nat with (S (j - i)) by lia.
  cbn [nth_error]. rewrite nth_error_skipn. f_equal. lia.
Qed.

Lemma upsert_positions l doc p :
  NoDup (map _id (l ++ [doc])) ->
  ~ In (_id doc) (map _id l) ->
  contiguous l (Some p) ->
  _parentId doc = Some p ->
  let e := landing (_sortOrder doc) (length (filter (by_parent (Some p)) l)) in
  let L := upsertOrder doc (l ++ [doc]) in
  _sortOrder (numbered 0 L doc) = Some (Z.of_nat e + 1)
  /\ forall b j, In b l -> _parentId b = Some p -> _sortOrder b = Some j ->
       _sortOrder (numbered 0 L b) = Some (if j <=? Z.of_nat e then j else j + 1).
Proof.
  intros ND Hf Hc Hdp e L.
  pose proof (upsertOrder_NoDup doc (l ++ [doc]) ND) as NDL. fold L in NDL.
  unfold L, upsertOrder in *. rewrite Hdp in *.
  rewrite filter_siblings_fresh in * by assumption.
  set (G := filter (by_parent (Some p)) l) in *.
  set (sibs := sortBy so_leb G) in *.
  assert (Hlen : length sibs = length G) by apply sortBy_length.
  rewrite Hlen in *.
  rewrite <- splice_min in *. rewrite Hlen in *. fold (landing (_sortOrder doc) (length G)) in *.
  fold e in NDL |- *.
  assert (He : (e <= length sibs)%nat) by (unfold e, landing; lia).
  assert (Hkeys : map _sortOrder sibs
                  = map (fun j => Some (Z.of_nat j)) (seq 1 (length G))).
  { apply sorted_keys; [apply sortBy_sorted|].
    unfold sibs. rewrite (Permutation_map _sortOrder (sortBy_perm so_leb G)).
    exact Hc. }
  split.
  - rewrite (@numbered_nth_sortOrder _ 0 e doc NDL); [reflexivity|].
    now apply splice_nth_le.
  - intros b j Hb Hbp Hbj.
    assert (HbS : In b sibs).
    { apply (Permutation_in _ (Permutation_sym (sortBy_perm so_leb G))).
      apply filter_In. split; [assumption|]. unfold by_parent. now apply oid_eqb_eq. }
    apply In_nth_error in HbS. destruct HbS as [i Hi].
    assert (Hlt : (i < length sibs)%nat) by (apply nth_error_Some; congruence).
    assert (Hj : j = Z.of_nat i + 1).
    { assert (E : nth_error (map _sortOrder sibs) i = Some (Some j))
        by (rewrite nth_error_map, Hi; simpl; now rewrite Hbj).
      rewrite Hkeys, nth_error_map, nth_error_seq in E.
      rewrite Hlen in Hlt. apply Nat.ltb_lt in Hlt. rewrite Hlt in E.
      simpl in E. inversion E. lia. }
    subst j. destruct (Z.of_nat i + 1 <=? Z.of_nat e) eqn:Ele.
    + apply Z.leb_le in Ele.
      rewrite (@numbered_nth_sortOrder _ 0 i b NDL); [reflexivity|].
      rewrite splice_nth_before by lia. assumption.
    + apply Z.leb_gt in Ele.
      rewrite (@numbered_nth_sortOrder _ 0 (S i) b NDL); [f_equal; lia|].
      rewrite splice_nth_after by lia. assumption.
Qed.

(** X1: an accepted course payload is stored under the next identifier and at
    once given that identifier as its [_courseId], whatever [_courseId] the
    payload carried; it is not numbered, and no stored document changes its
    [_id] or [_sortOrder]. *)
Theorem insert_course_roots_itself :
  forall validate extensionNames getPluginSchemas schemaSource data options s,
    WF s ->
    validate data = true ->
    _type data = course ->
    exists doc s',
      insert validate extensionNames getPluginSchemas schemaSource data options s
      = (Ok doc, s')
      /\ _id doc = Some (nextId s)
      /\ _courseId doc = Some (nextId s)
      /\ (exists d, In d (docs s') /\ _id d = Some (nextId s)
                    /\ _courseId d = Some (nextId s) /\ _sortOrder d = _sortOrder data)
      /\ map _id (docs s') = map _id (docs s) ++ [Some (nextId s)]
      /\ map _sortOrder (docs s') = map _sortOrder (docs s) ++ [_sortOrder data].
Proof.
  intros validate ext gps src data options s W Hv Ht.
  destruct (@insert_course_run validate ext gps src data options s W Hv Ht)
    as (s' & E & N & F & W').
  eexists _, s'. split; [exact E|]. split; [reflexivity|]. split; [reflexivity|].
  assert (Hs : forall l l', Forall2 sameButPlugins l l' ->
                 map _sortOrder l' = map _sortOrder l /\ map _courseId l' = map _courseId l).
  { induction 1 as [|x y l l' Exy _ [IH1 IH2]]; [split; reflexivity|].
    cbn [map]. rewrite IH1, IH2, Exy. split; reflexivity. }
  split; [|split].
  - pose proof (Forall2_sameButPlugins_ids F) as Hi.
    destruct (Hs _ _ F) as [Hso Hco].
    assert (Hlast : exists d, In d (docs s')
              /\ sameButPlugins (assign (set_id (Some (nextId s)) data)
                                   (dCourseId (Some (nextId s)))) d).
    { apply Forall2_app_inv_l in F. destruct F as (l1 & l2 & _ & F2 & ->).
      inversion F2 as [|? d ? ? Ed F3]; subst. exists d.
      split; [apply in_or_app; right; now left | exact Ed]. }
    destruct Hlast as (d & Hd & Ed). exists d. split; [assumption|].
    rewrite Ed. repeat split.
  - rewrite (Forall2_sameButPlugins_ids F), map_app. reflexivity.
  - destruct (Hs _ _ F) as [Hso _]. rewrite Hso, map_app. reflexivity.
Qed.

Lemma insert_course_roots_itself_witness :
  exists doc s',
    insert (fun _ => true) [] (fun _ => []) (fun _ => None) (blank course) noOptions
      c7_store = (Ok doc, s')
    /\ _id doc = Some (nextId c7_store)
    /\ _courseId doc = Some (nextId c7_store)
    /\ (exists d, In d (docs s') /\ _id d = Some (nextId c7_store)
                  /\ _courseId d = Some (nextId c7_store)
                  /\ _sortOrder d = _sortOrder (blank course))
    /\ map _id (docs s') = map _id (docs c7_store) ++ [Some (nextId c7_store)]
    /\ map _sortOrder (docs s')
       = map _sortOrder (docs c7_store) ++ [_sortOrder (blank course)].
Proof.
  apply (@insert_course_roots_itself (fun _ => true) [] (fun _ => []) (fun _ => None)
           (blank course) noOptions c7_store).
  - wf_store.
  - reflexivity.
  - reflexivity.
Defined.

(** X2: inserting into a contiguous sibling group puts the new document at
    position [_sortOrder] when that lies between 1 and N+1, and last (N+1)
    when it is absent, below 1 or beyond; siblings at or after that position
    move up by one, the others keep theirs.  The document returned still
    carries the [_sortOrder] of the payload. *)
Theorem insert_places_document :
  forall validate extensionNames getPluginSchemas schemaSource data options s pid,
    WF s ->
    validate data = true ->
    _type data <> course -> _type data <> config ->
    _parentId data = Some pid -> In (Some pid) (map _id (docs s)) ->
    o_updateSortOrder options = true ->
    contiguous (docs s) (Some pid) ->
    let e := Z.of_nat (landing (_sortOrder data)
                         (length (filter (by_parent (Some pid)) (docs s)))) in
    exists doc s',
      insert validate extensionNames getPluginSchemas schemaSource data options s
      = (Ok doc, s')
      /\ _id doc = Some (nextId s)
      /\ _sortOrder doc = _sortOrder data
      /\ (exists d, In d (docs s') /\ _id d = Some (nextId s)
                    /\ _parentId d = Some pid /\ _sortOrder d = Some (e + 1))
      /\ (forall b j, In b (docs s) -> _parentId b = Some pid -> _sortOrder b = Some j ->
            exists b', In b' (docs s') /\ _id b' = _id b /\ _parentId b' = Some pid
                       /\ _sortOrder b' = Some (if j <=? e then j else j + 1)).
Proof.
  intros validate ext gps src data options s pid W Hv Hc Hg Hp Hin Ho Hcont e.
  assert (Hin' : In (_parentId data) (map _id (docs s))) by now rewrite Hp.
  destruct (@insert_run validate ext gps src data options s W Hv Hc Hg Hin')
    as (s' & E & N & F & W').
  rewrite Ho in F.
  set (doc := set_id (Some (nextId s)) data) in *.
  assert (ND : NoDup (map _id (docs s ++ [doc]))) by (now apply WF_insert).
  assert (Hfresh : ~ In (_id doc) (map _id (docs s))) by (now apply WF_fresh).
  destruct (@upsert_positions (docs s) doc pid ND Hfresh Hcont Hp) as [Pd Pb].
  exists doc, s'. split; [exact E|]. split; [reflexivity|]. split; [reflexivity|].
  split.
  - destruct (@track_forward _ _ _ doc F) as (d & Hd & T).
    { apply in_or_app. right. now left. }
    destruct T as (Ti & _ & Tp & _ & Ts).
    exists d. split; [assumption|]. split; [exact Ti|]. split; [now rewrite Tp|].
    rewrite Ts. exact Pd.
  - intros b j Hb Hbp Hbj.
    destruct (@track_forward _ _ _ b F) as (b' & Hb' & T).
    { apply in_or_app. now left. }
    destruct T as (Ti & _ & Tp & _ & Ts).
    exists b'. split; [assumption|]. split; [exact Ti|]. split; [now rewrite Tp|].
    rewrite Ts. now apply Pb.
Qed.

Lemma insert_places_document_witness :
  exists doc s',
    insert (fun _ => true) [] (fun _ => []) (fun _ => None) x_block noOptions c4_store
    = (Ok doc, s')
    /\ _id doc = Some (nextId c4_store)
    /\ _sortOrder doc = _sortOrder x_block
    /\ (exists d, In d (docs s') /\ _id d = Some (nextId c4_store)
                  /\ _parentId d = Some 1%nat
                  /\ _sortOrder d
                     = Some (Z.of_nat (landing (_sortOrder x_block)
                                         (length (filter (by_parent (Some 1%nat))
                                                    (docs c4_store)))) + 1))
    /\ (forall b j, In b (docs c4_store) -> _parentId b = Some 1%nat ->
          _sortOrder b = Some j ->
          exists b', In b' (docs s') /\ _id b' = _id b /\ _parentId b' = Some 1%nat
                     /\ _sortOrder b'
                        = Some (if j <=? Z.of_nat (landing (_sortOrder x_block)
                                                     (length (filter (by_parent (Some 1%nat))
                                                                (docs c4_store))))
                                then j else j + 1)).
Proof.
  apply (@insert_places_document (fun _ => true) [] (fun _ => []) (fun _ => None)
           x_block noOptions c4_store 1%nat).
  - wf_store.
  - reflexivity.
  - discriminate.
  - discriminate.
  - reflexivity.
  - simpl. tauto.
  - reflexivity.
  - unfold contiguous. simpl. reflexivity.
Defined.

(** X3: with [options.updateSortOrder] false, an insert renumbers nobody: the
    new document keeps the [_sortOrder] of its payload and every stored
    document keeps its own. *)
Theorem insert_unordered :
  forall validate extensionNames getPluginSchemas schemaSource data options s,
    WF s ->
    validate data = true ->
    _type data <> course -> _type data <> config ->
    In (_parentId data) (map _id (docs s)) ->
    o_updateSortOrder options = false ->
    exists s',
      insert validate extensionNames getPluginSchemas schemaSource data options s
      = (Ok (set_id (Some (nextId s)) data), s')
      /\ map _id (docs s') = map _id (docs s) ++ [Some (nextId s)]
      /\ map _sortOrder (docs s') = map _sortOrder (docs s) ++ [_sortOrder data].
Proof.
  intros validate ext gps src data options s W Hv Hc Hg Hp Ho.
  destruct (@insert_run validate ext gps src data options s W Hv Hc Hg Hp)
    as (s' & E & N & F & W').
  rewrite Ho in F. cbn [numbered] in F. rewrite map_id in F.
  exists s'. split; [exact E|].
  assert (Hs : forall l l', Forall2 sameButPlugins l l' ->
                 map _sortOrder l' = map _sortOrder l).
  { induction 1 as [|x y l l' Exy _ IH]; [reflexivity|].
    cbn [map]. rewrite IH, Exy. reflexivity. }
  split.
  - rewrite (Forall2_sameButPlugins_ids F), map_app. reflexivity.
  - rewrite (Hs _ _ F), map_app. reflexivity.
Qed.

Lemma insert_unordered_witness :
  exists s',
    insert (fun _ => true) [] (fun _ => []) (fun _ => None) x_block
      (mkOptions false true None) c4_store
    = (Ok (set_id (Some (nextId c4_store)) x_block), s')
    /\ map _id (docs s') = map _id (docs c4_store) ++ [Some (nextId c4_store)]
    /\ map _sortOrder (docs s') = map _sortOrder (docs c4_store) ++ [_sortOrder x_block].
Proof.
  apply (@insert_unordered (fun _ => true) [] (fun _ => []) (fun _ => None) x_block
           (mkOptions false true None) c4_store).
  - wf_store.
  - reflexivity.
  - discriminate.
  - discriminate.
  - simpl. tauto.
  - reflexivity.
Defined.

(** ** Chains of new documents *)

Section InsertChain.

Variable validate : ContentNode -> bool.
Variable extensionNames : list plugin.
Variable getPluginSchemas : plugin -> list string.
Variable schemaSource : string -> option string.
Variable translate : option string -> string -> string.
Variable defaultLanguage : option string.
Hypothesis accepts : forall n, validate n = true.

Lemma insertChain_run ts : forall parent pid cid createdBy' cd options acc s,
  WF s ->
  _id parent = Some pid -> _courseId parent = Some cid ->
  In (Some pid) (map _id (docs s)) ->
  (forall t, d_type cd = Some t -> hd_error ts = Some t) ->
  d_parentId cd = None -> d_courseId cd = None ->
  exists items s',
    insertChain validate extensionNames getPluginSchemas schemaSource translate
      defaultLanguage ts (Some parent) createdBy' cd options acc s
    = (Ok (acc ++ items), s')
    /\ map _type items = ts
    /\ linked parent items
    /\ map _id items = map Some (seq (nextId s) (length ts))
    /\ map _id (docs s') = map _id (docs s) ++ map _id items
    /\ nextId s' = (nextId s + length ts)%nat
    /\ WF s'.
Proof.
  induction ts as [|t rest IH];
    intros parent pid cid createdBy' cd options acc s W Hid Hcid Hin Hty Hpa Hco.
  - exists [], s. cbn. rewrite !app_nil_r, Nat.add_0_r.
    repeat (split; [reflexivity|]). exact W.
  - cbn [insertChain]. cbv zeta. rewrite Hid, Hcid.
    match goal with
    | |- context [bind (insert _ _ _ _ ?d _) _] => set (data := d)
    end.
    assert (Ht : _type data = t).
    { unfold data. destruct (d_type cd) as [t'|] eqn:Ed.
      - specialize (Hty t' eq_refl). inversion Hty; subst t'.
        destruct t; cbn; rewrite Ed; reflexivity.
      - destruct t; cbn; rewrite Ed; reflexivity. }
    assert (Hp : _parentId data = Some pid).
    { unfold data. destruct t; cbn; rewrite Hpa; reflexivity. }
    assert (Hc : _courseId data = Some cid).
    { unfold data. destruct t; cbn; rewrite Hco; reflexivity. }
    destruct (@insert_any_run validate extensionNames getPluginSchemas schemaSource
                data options s W (accepts data)) as (doc & s1 & E & Ed & N1 & I1 & W1).
    { right. right. now rewrite Hp. }
    unfold bind at 1. rewrite E.
    assert (Dt : _type doc = t).
    { rewrite Ed. destruct (ctype_eqb (_type data) course); cbn; exact Ht. }
    assert (Di : _id doc = Some (nextId s)).
    { rewrite Ed. destruct (ctype_eqb (_type data) course); reflexivity. }
    assert (Dp : _parentId doc = Some pid).
    { rewrite Ed. destruct (ctype_eqb (_type data) course); cbn; exact Hp. }
    assert (Dc : _courseId doc = if ctype_eqb t course then Some (nextId s) else Some cid).
    { rewrite Ed, Ht. destruct (ctype_eqb t course); cbn; [reflexivity | exact Hc]. }
    set (parent' := if ctype_eqb t config then parent else doc).
    assert (exists pid' cid', _id parent' = Some pid' /\ _courseId parent' = Some cid'
                              /\ In (Some pid') (map _id (docs s1))) as (pid' & cid' & Hid' & Hcid' & Hin').
    { unfold parent'. destruct (ctype_eqb t config).
      - exists pid, cid. repeat split; try assumption.
        rewrite I1. apply in_or_app. now left.
      - exists (nextId s). destruct (ctype_eqb t course);
          eexists; (split; [exact Di|]); (split; [exact Dc|]);
          rewrite I1; apply in_or_app; right; now left. }
    destruct (IH parent' pid' cid' createdBy' emptyDelta options (acc ++ [doc]) s1
                W1 Hid' Hcid' Hin') as (items & s' & E' & Ts & Lk & Ids & Ds & N' & W');
      [discriminate | reflexivity | reflexivity |].
    exists (doc :: items), s'.
    replace (if ctype_eqb t config then Some parent else Some doc) with (Some parent')
      by (unfold parent'; now destruct (ctype_eqb t config)).
    split; [rewrite E'; now rewrite <- app_assoc|].
    split; [cbn; now rewrite Dt, Ts|].
    split; [cbn [linked]; rewrite Dt, Dp, Dc, Di, Hid, Hcid;
            repeat split; try (now destruct (ctype_eqb t course)); exact Lk|].
    split; [cbn [map length seq]; now rewrite Di, Ids, N1|].
    split; [cbn [map]; rewrite Ds, I1, Di, <- app_assoc; reflexivity|].
    split; [cbn [length]; rewrite N', N1; lia | exact W'].
Qed.

End InsertChain.

(** X8: without a root, [insertRecursive] creates a course and, under it, a
    config, a page, an article, a block and a component, whatever
    [childTypes] and [isMenu] say: six documents with consecutive
    identifiers, each hanging under the one before it (config and page both
    under the course), all in the new course. *)
Theorem insertRecursive_new_course :
  forall validate extensionNames getPluginSchemas schemaSource translate defaultLanguage
         createdBy' customData isMenu childTypes options s,
    WF s ->
    (forall n, validate n = true) ->
    d_type customData = None ->
    exists c items s',
      insertRecursive validate extensionNames getPluginSchemas schemaSource translate
        defaultLanguage None createdBy' customData isMenu childTypes options s
      = (Ok (c :: items), s')
      /\ _type c = course /\ _id c = Some (nextId s) /\ _courseId c = _id c
      /\ map _type items = [config; page; article; block; component]
      /\ linked c items
      /\ map _id (docs s') = map _id (docs s) ++ map _id (c :: items)
      /\ map _id (c :: items) = map Some (seq (nextId s) 6).
Proof.
  intros validate ext gps src tr dl u cd isMenu childTypes options s W Hv Hty.
  unfold insertRecursive.
  set (data := assign (assign (blank course) (dCreatedBy u)) cd).
  assert (Ht : _type data = course) by (unfold data; cbn; now rewrite Hty).
  destruct (@insert_any_run validate ext gps src data noOptions s W (Hv data))
    as (c & s1 & E & Ec & N1 & I1 & W1); [now left|].
  rewrite Ht in Ec. cbn [ctype_eqb] in Ec.
  assert (Ci : _id c = Some (nextId s)) by (now rewrite Ec).
  assert (Cc : _courseId c = Some (nextId s)) by (now rewrite Ec).
  assert (Ct : _type c = course) by (rewrite Ec; exact Ht).
  destruct (@insertChain_run validate ext gps src tr dl Hv
              [config; page; article; block; component] c (nextId s) (nextId s) u
              emptyDelta options [c] s1 W1 Ci Cc)
    as (items & s' & E' & Ts & Lk & Ids & Ds & N' & W');
    [rewrite I1; apply in_or_app; right; now left | discriminate | reflexivity
    | reflexivity |].
  exists c, items, s'. unfold bind at 1. rewrite E.
  split; [exact E'|]. split; [assumption|]. split; [assumption|].
  split; [now rewrite Cc, Ci|]. split; [assumption|]. split; [assumption|].
  split.
  - cbn [map]. rewrite Ds, I1, Ci, <- app_assoc. reflexivity.
  - cbn [map]. rewrite Ci, Ids, N1. reflexivity.
Qed.

Lemma insertRecursive_new_course_witness :
  exists c items s',
    insertRecursive (fun _ => true) [] (fun _ => []) (fun _ => None) (fun _ key => key)
      None None (Some "user1"%string) emptyDelta false None noOptions c7_store
    = (Ok (c :: items), s')
    /\ _type c = course /\ _id c = Some (nextId c7_store) /\ _courseId c = _id c
    /\ map _type items = [config; page; article; block; component]
    /\ linked c items
    /\ map _id (docs s') = map _id (docs c7_store) ++ map _id (c :: items)
    /\ map _id (c :: items) = map Some (seq (nextId c7_store) 6).
Proof.
  apply (@insertRecursive_new_course (fun _ => true) [] (fun _ => []) (fun _ => None)
           (fun _ key => key) None (Some "user1"%string) emptyDelta false None noOptions
           c7_store).
  - wf_store.
  - reflexivity.
  - reflexivity.
Defined.

(** X9: under a stored root and without [childTypes], [insertRecursive]
    creates the levels below the root's type (a menu first when [isMenu]),
    each document hanging under the one before it.  A config root is not in
    the hierarchy, so the chain then starts with a course. *)
Theorem insertRecursive_inferred_chain :
  forall validate extensionNames getPluginSchemas schemaSource translate defaultLanguage
         root cid createdBy' customData isMenu options s,
    WF s ->
    (forall n, validate n = true) ->
    In root (docs s) -> _courseId root = Some cid ->
    d_type customData = None \/ (isMenu = true /\ d_type customData = Some menu) ->
    d_parentId customData = None -> d_courseId customData = None ->
    exists items s',
      insertRecursive validate extensionNames getPluginSchemas schemaSource translate
        defaultLanguage (_id root) createdBy' customData isMenu None options s
      = (Ok items, s')
      /\ map _type items
         = (if isMenu then [menu; page; article; block; component]
            else inferredTypes (_type root))
      /\ linked root items
      /\ map _id (docs s') = map _id (docs s) ++ map _id items
      /\ map _id items = map Some (seq (nextId s) (length items)).
Proof.
  intros validate ext gps src tr dl root cid u cd isMenu options s W Hv Hr Hc Hty Hpa Hco.
  pose proof W as [ND Wid]. destruct (Wid root Hr) as (pid & Hid & _).
  unfold insertRecursive. rewrite Hid.
  unfold bind at 1. unfold find at 1. cbv beta iota.
  rewrite <- Hid, (@filter_by_id_unique _ _ ND Hr). cbn [hd_error].
  assert (Hins : In (Some pid) (map _id (docs s))) by (rewrite <- Hid; now apply in_map).
  set (ts := if isMenu then [menu; page; article; block; component]
             else inferredTypes (_type root)).
  assert (Hty' : forall t, d_type cd = Some t -> hd_error ts = Some t).
  { intros t Et. destruct Hty as [Hn | [-> Hm]]; [congruence|].
    unfold ts. cbn. congruence. }
  destruct (@insertChain_run validate ext gps src tr dl Hv ts root pid cid u cd options
              [] s W Hid Hc Hins Hty' Hpa Hco)
    as (items & s' & E' & Ts & Lk & Ids & Ds & N' & W').
  exists items, s'.
  assert (Hlen : length items = length ts) by (rewrite <- Ts; now rewrite length_map).
  split; [|split; [assumption|split; [assumption|split; [assumption|now rewrite Hlen]]]].
  unfold ts in E'. destruct isMenu; [exact E'|].
  destruct (_type root); exact E'.
Qed.

Lemma insertRecursive_inferred_chain_witness :
  exists items s',
    insertRecursive (fun _ => true) [] (fun _ => []) (fun _ => None) (fun _ key => key)
      None (_id x_page) (Some "user1"%string) emptyDelta false None noOptions c5_store
    = (Ok items, s')
    /\ map _type items
       = (if false then [menu; page; article; block; component]
          else inferredTypes (_type x_page))
    /\ linked x_page items
    /\ map _id (docs s') = map _id (docs c5_store) ++ map _id items
    /\ map _id items = map Some (seq (nextId c5_store) (length items)).
Proof.
  apply (@insertRecursive_inferred_chain (fun _ => true) [] (fun _ => []) (fun _ => None)
           (fun _ key => key) None x_page 1%nat (Some "user1"%string) emptyDelta false
           noOptions c5_store).
  - wf_store.
  - reflexivity.
  - simpl. tauto.
  - reflexivity.
  - left. reflexivity.
  - reflexivity.
  - reflexivity.
Defined.

(** X10: a [rootId] that names no stored document makes [insertRecursive]
    throw a [TypeError] before any write, unless [childTypes] is the empty
    list, in which case it returns the empty list. *)
Theorem insertRecursive_unknown_root :
  forall validate extensionNames getPluginSchemas schemaSource translate defaultLanguage
         rootId createdBy' customData isMenu childTypes options s,
    ~ In (Some rootId) (map _id (docs s)) ->
    insertRecursive validate extensionNames getPluginSchemas schemaSource translate
      defaultLanguage (Some rootId) createdBy' customData isMenu childTypes options s
    = (match childTypes with
       | Some [] => Ok []
       | _ => Throw TypeError
       end, s).
Proof.
  intros validate ext gps src tr dl rootId u cd isMenu childTypes options s Hout.
  unfold insertRecursive. unfold bind at 1. unfold find at 1. cbv beta iota.
  rewrite (filter_by_id_absent _ _ Hout). cbn [hd_error].
  destruct childTypes as [[|t ts]|]; [reflexivity | reflexivity |].
  destruct isMenu; reflexivity.
Qed.

Lemma insertRecursive_unknown_root_witness :
  insertRecursive (fun _ => true) [] (fun _ => []) (fun _ => None) (fun _ key => key)
    None (Some 9%nat) (Some "user1"%string) emptyDelta false None noOptions c7_store
  = (Throw TypeError, c7_store).
Proof.
  apply (@insertRecursive_unknown_root (fun _ => true) [] (fun _ => []) (fun _ => None)
           (fun _ key => key) None 9%nat (Some "user1"%string) emptyDelta false None
           noOptions c7_store).
  simpl. intuition discriminate.
Defined.

(** X11: [constructToType] creates, under a stored node, one document for each
    level strictly below the node's and down to [type], each hanging under
    the one before it; when [type] is not deeper it creates nothing and
    leaves the store as it was.  A node type missing from its hierarchy
    (menu, config) counts as above course. *)
Theorem constructToType_chain :
  forall validate extensionNames getPluginSchemas schemaSource translate defaultLanguage
         node type u options s cid,
    WF s ->
    (forall n, validate n = true) ->
    In node (docs s) -> _courseId node = Some cid ->
    let levels := [course; page; article; block; component] in
    exists items s',
      constructToType validate extensionNames getPluginSchemas schemaSource translate
        defaultLanguage node type (Some u) options s = (Ok items, s')
      /\ map _type items
         = filter (fun t => (indexOf (_type node) levels <? indexOf t levels)
                            && (indexOf t levels <=? oindexOf type levels)) levels
      /\ linked node items
      /\ map _id (docs s') = map _id (docs s) ++ map _id items
      /\ (items = [] -> s' = s).
Proof.
  intros validate ext gps src tr dl node type u options s cid W Hv Hn Hc levels.
  pose proof W as [ND Wid]. destruct (Wid node Hn) as (pid & Hid & _).
  unfold constructToType. cbv zeta. fold levels.
  set (ts := slice (indexOf (_type node) levels + 1) (oindexOf type levels + 1) levels).
  assert (Hts : ts = filter (fun t => (indexOf (_type node) levels <? indexOf t levels)
                                      && (indexOf t levels <=? oindexOf type levels))
                       levels).
  { unfold ts, levels. destruct (_type node); destruct type as [[]|]; reflexivity. }
  unfold bind at 1. cbn [toString]. unfold ret at 1. cbv beta iota.
  unfold insertRecursive. rewrite Hid.
  unfold bind at 1. unfold find at 1. cbv beta iota.
  rewrite <- Hid, (@filter_by_id_unique _ _ ND Hn). cbn [hd_error].
  rewrite <- Hts.
  destruct ts as [|t ts'] eqn:Ets.
  - exists [], s. cbn. rewrite app_nil_r. repeat split; reflexivity.
  - assert (Hins : In (Some pid) (map _id (docs s))) by (rewrite <- Hid; now apply in_map).
    destruct (@insertChain_run validate ext gps src tr dl Hv (t :: ts') node pid cid
                (Some u) emptyDelta options [] s W Hid Hc Hins)
      as (items & s' & E' & Ts & Lk & Ids & Ds & N' & W');
      [discriminate | reflexivity | reflexivity |].
    exists items, s'. split; [exact E'|]. split; [assumption|]. split; [assumption|].
    split; [assumption|]. intros ->. discriminate.
Qed.

Lemma constructToType_chain_witness :
  exists items s',
    constructToType (fun _ => true) [] (fun _ => []) (fun _ => None) (fun _ key => key)
      None x_page (Some block) (Some "user1"%string) noOptions c5_store = (Ok items, s')
    /\ map _type items = [article; block]
    /\ linked x_page items
    /\ map _id (docs s') = map _id (docs c5_store) ++ map _id items
    /\ (items = [] -> s' = c5_store).
Proof.
  apply (@constructToType_chain (fun _ => true) [] (fun _ => []) (fun _ => None)
           (fun _ key => key) None x_page (Some block) "user1"%string noOptions c5_store
           1%nat).
  - wf_store.
  - reflexivity.
  - simpl. tauto.
  - reflexivity.
Defined.

(** ** delete at the edges *)

Lemma deleteAll_app l1 : forall l2 s,
  deleteAll (l1 ++ l2) s
  = match deleteAll l1 s with
    | (Ok _, s1) => deleteAll l2 s1
    | (Throw e, s1) => (Throw e, s1)
    end.
Proof.
  induction l1 as [|[d|] l1 IH]; intros l2 s; cbn [app deleteAll].
  - reflexivity.
  - unfold bind. unfold super_delete at 1 2. cbv beta iota. apply IH.
  - reflexivity.
Qed.

(** X4: deleting a course that has no config throws a [TypeError]; by then the
    delete of every descendant has been issued, the course itself is still
    stored and neither maintainer has run. *)
Theorem delete_course_without_config :
  forall extensionNames getPluginSchemas schemaSource rk B fuel query s T rest,
    WF s ->
    filter query (docs s) = T :: rest ->
    _type T = course ->
    ranked rk B (filter (by_course (_courseId T)) (docs s)) ->
    (B < fuel)%nat ->
    (forall c, In c (docs s) -> _courseId c = _courseId T -> _type c <> config) ->
    exists ds s',
      delete extensionNames getPluginSchemas schemaSource fuel query s
      = (Throw TypeError, s')
      /\ (forall n, In n ds <-> descendant (filter (by_course (_courseId T)) (docs s)) T n)
      /\ docs s' = filter (fun n => negb (among ds n)) (docs s)
      /\ writes s' = writes s ++ map (fun d => WDelete (_id d)) ds
      /\ In T (docs s').
Proof.
  intros ext gps src rk B fuel query s T rest [ND Wid] Hq Hty R HB Hnc.
  set (courseItems := filter (by_course (_courseId T)) (docs s)) in *.
  assert (HT : In T (docs s)).
  { assert (H : In T (filter query (docs s))) by (rewrite Hq; now left).
    now apply filter_In in H. }
  assert (HTc : In T courseItems).
  { apply filter_In. split; [assumption | apply oid_eqb_refl]. }
  assert (HTid : _id T <> None) by (apply (R T HTc)).
  destruct (@bfs_total rk B courseItems R fuel 0%nat [T]) as [ds Hbfs]; [lia | lia | |].
  { intros i [<-|[]]. split; [assumption | lia]. }
  assert (Hroot : forall i, In i [T] -> _id i <> None)
    by (intros i [<-|[]]; assumption).
  assert (Hspec : forall n, In n ds <-> descendant courseItems T n).
  { intro n.
    rewrite (@bfs_spec courseItems (fun c Hc => proj1 (R c Hc)) fuel [T] ds Hroot Hbfs n).
    split.
    - intros (i & [<-|[]] & D). exact D.
    - intro D. exists T. split; [now left | exact D]. }
  assert (Hfind : List.find (by_type config) courseItems = None).
  { destruct (List.find _ _) as [c|] eqn:F; [|reflexivity].
    apply find_some in F. destruct F as [Hin Hc].
    apply filter_In in Hin. destruct Hin as [Hin Hcourse].
    unfold by_course in Hcourse. apply oid_eqb_eq in Hcourse.
    unfold by_type in Hc. apply ctype_eqb_eq in Hc.
    exfalso. exact (Hnc c Hin Hcourse Hc). }
  assert (Hget : getDescendants fuel T s = (Ok (map Some ds ++ [None]), s)).
  { unfold getDescendants, bind, find, ret. fold courseItems.
    rewrite Hbfs, Hty, Hfind. reflexivity. }
  set (s1 := mkStore (filter (fun n => negb (among ds n)) (docs s)) (nextId s)
               (writes s ++ map (fun d => WDelete (_id d)) ds)).
  exists ds, s1. split; [|split; [exact Hspec|split; [reflexivity|split; [reflexivity|]]]].
  - unfold delete. unfold bind at 1. unfold find at 1. rewrite Hq. cbv beta iota.
    unfold bind at 1. rewrite Hget. unfold bind at 1.
    rewrite <- app_assoc, deleteAll_app, (deleteAll_spec ds s ND). reflexivity.
  - cbn [docs s1]. apply filter_In. split; [assumption|].
    apply negb_true_iff. apply among_false. intros d Hd E.
    apply Hspec in Hd.
    pose proof (@descendant_rank rk B courseItems _ _ R Hd). rewrite E in H. lia.
Qed.

Lemma delete_course_without_config_witness :
  exists ds s',
    delete [] (fun _ => []) (fun _ => None) 3 (by_id (Some 1%nat)) c10_store
    = (Throw TypeError, s')
    /\ (forall n, In n ds <->
          descendant (filter (by_course (_courseId x_root))
                        (docs c10_store)) x_root n)
    /\ docs s' = filter (fun n => negb (among ds n)) (docs c10_store)
    /\ writes s' = writes c10_store ++ map (fun d => WDelete (_id d)) ds
    /\ In x_root (docs s').
Proof.
  apply (@delete_course_without_config [] (fun _ => []) (fun _ => None) idRank 2%nat
           3%nat (by_id (Some 1%nat)) c10_store x_root []).
  - wf_store.
  - reflexivity.
  - reflexivity.
  - intros c Hc. simpl in Hc.
    repeat (destruct Hc as [<-|Hc]; [simpl; repeat split; (discriminate || lia)|]).
    contradiction.
  - lia.
  - intros c Hc _. simpl in Hc.
    repeat (destruct Hc as [<-|Hc]; [discriminate|]). contradiction.
Defined.

(** X5: deleting a document whose [_parentId] names no stored document removes
    it and its descendants, then throws a [TypeError] from the sort-order
    maintainer. *)
Theorem delete_orphan_throws_after_deleting :
  forall extensionNames getPluginSchemas schemaSource rk B fuel query s T rest,
    WF s ->
    filter query (docs s) = T :: rest ->
    needsOrder T = true ->
    ~ In (_parentId T) (map _id (docs s)) ->
    ranked rk B (filter (by_course (_courseId T)) (docs s)) ->
    (B < fuel)%nat ->
    exists ds s',
      delete extensionNames getPluginSchemas schemaSource fuel query s
      = (Throw TypeError, s')
      /\ (forall n, In n ds <-> descendant (filter (by_course (_courseId T)) (docs s)) T n)
      /\ map _id (docs s')
         = map _id (filter (fun n => negb (among (ds ++ [T]) n)) (docs s))
      /\ ~ In (_id T) (map _id (docs s')).
Proof.
  intros ext gps src rk B fuel query s T rest [ND Wid] Hq Hn Hout R HB.
  set (courseItems := filter (by_course (_courseId T)) (docs s)) in *.
  assert (HT : In T (docs s)).
  { assert (H : In T (filter query (docs s))) by (rewrite Hq; now left).
    now apply filter_In in H. }
  assert (HTc : In T courseItems).
  { apply filter_In. split; [assumption | apply oid_eqb_refl]. }
  assert (HTid : _id T <> None) by (apply (R T HTc)).
  destruct (@bfs_total rk B courseItems R fuel 0%nat [T]) as [ds Hbfs]; [lia | lia | |].
  { intros i [<-|[]]. split; [assumption | lia]. }
  assert (Hroot : forall i, In i [T] -> _id i <> None)
    by (intros i [<-|[]]; assumption).
  assert (Hspec : forall n, In n ds <-> descendant courseItems T n).
  { intro n.
    rewrite (@bfs_spec courseItems (fun c Hc => proj1 (R c Hc)) fuel [T] ds Hroot Hbfs n).
    split.
    - intros (i & [<-|[]] & D). exact D.
    - intro D. exists T. split; [now left | exact D]. }
  assert (Hty : ctype_eqb (_type T) course = false).
  { unfold needsOrder in Hn. apply negb_true_iff in Hn.
    destruct (ctype_eqb (_type T) course); [|reflexivity].
    rewrite orb_true_r in Hn. discriminate. }
  assert (Hget : getDescendants fuel T s = (Ok (map Some ds), s)).
  { unfold getDescendants, bind, find, ret. fold courseItems.
    rewrite Hbfs, Hty. reflexivity. }
  set (s1 := mkStore (filter (fun n => negb (among (ds ++ [T]) n)) (docs s)) (nextId s)
               (writes s ++ map (fun d => WDelete (_id d)) (ds ++ [T]))).
  assert (Hdel : deleteAll (map Some ds ++ [Some T]) s = (Ok tt, s1)).
  { change [Some T] with (map Some [T]). rewrite <- map_app.
    now apply deleteAll_spec. }
  destruct (updateEnabledPlugins_total ext gps src T false s1) as [s2 Hep].
  pose proof (@updateEnabledPlugins_sameButPlugins _ _ _ _ _ _ _ _ Hep) as [_ F12].
  apply Forall2_sameButPlugins_ids in F12.
  assert (Hso : updateSortOrder T false s2 = (Throw TypeError, s2)).
  { apply updateSortOrder_orphan; [assumption|]. apply filter_by_id_absent.
    rewrite F12. cbn [docs s1]. intro Hin. apply Hout.
    apply in_map_iff in Hin. destruct Hin as (n & E & Hin). rewrite <- E.
    apply in_map. apply filter_In in Hin. tauto. }
  exists ds, s2. split; [|split; [exact Hspec|split; [exact F12|]]].
  - unfold delete. unfold bind at 1. unfold find at 1. rewrite Hq. cbv beta iota.
    unfold bind at 1. rewrite Hget. unfold bind at 1. rewrite Hdel.
    unfold bind at 1. unfold both. rewrite Hep, Hso. reflexivity.
  - rewrite F12. cbn [docs s1]. intro Hin.
    apply in_map_iff in Hin. destruct Hin as (n & E & Hin).
    apply filter_In in Hin. destruct Hin as [_ Hq'].
    apply negb_true_iff in Hq'. rewrite among_false in Hq'.
    apply (Hq' T); [apply in_or_app; right; now left | exact E].
Qed.

Lemma delete_orphan_throws_after_deleting_witness :
  exists ds s',
    delete [] (fun _ => []) (fun _ => None) 7 (by_id (Some 5%nat)) x_orphan_store
    = (Throw TypeError, s')
    /\ (forall n, In n ds <->
          descendant (filter (by_course (_courseId x_orphan)) (docs x_orphan_store))
            x_orphan n)
    /\ map _id (docs s')
       = map _id (filter (fun n => negb (among (ds ++ [x_orphan]) n))
                    (docs x_orphan_store))
    /\ ~ In (_id x_orphan) (map _id (docs s')).
Proof.
  apply (@delete_orphan_throws_after_deleting [] (fun _ => []) (fun _ => None) idRank
           6%nat 7%nat (by_id (Some 5%nat)) x_orphan_store x_orphan []).
  - wf_store.
  - reflexivity.
  - reflexivity.
  - simpl. intuition discriminate.
  - intros c Hc. simpl in Hc.
    repeat (destruct Hc as [<-|Hc]; [simpl; repeat split; (discriminate || lia)|]).
    contradiction.
  - lia.
Defined.

(** ** The reconciler settles *)

Lemma candidatePlugins_In ext cfg items p :
  In p (candidatePlugins ext cfg items)
  <-> (In p (_enabledPlugins cfg) /\ In p ext)
      \/ (exists c, In c items /\ _type c = component /\ _component c = p)
      \/ p = _menu cfg \/ p = _theme cfg.
Proof.
  unfold candidatePlugins. rewrite uniq_In, !in_app_iff, filter_In, in_map_iff.
  rewrite (includes_In plugin_eqb plugin_eqb_eq). cbn [In].
  split.
  - intros [[H|[(c & E & Hc)|[H|[H|[]]]]] _]; auto.
    right. left. exists c. apply filter_In in Hc. destruct Hc as [Hc Ht].
    apply ctype_eqb_eq in Ht. auto.
  - intros [H|[(c & Hc & Ht & E)|[H|H]]]; (split; [|tauto]); auto.
    right. left. exists c. split; [assumption|]. apply filter_In.
    split; [assumption|]. now apply ctype_eqb_eq.
Qed.

Lemma sameButPlugins_components c l l' :
  Forall2 sameButPlugins l l' ->
  map _component (filter (by_type component) (filter (by_course c) l'))
  = map _component (filter (by_type component) (filter (by_course c) l)).
Proof.
  induction 1 as [|x y l l' E F IH]; [reflexivity|].
  assert (Hc : by_course c y = by_course c x) by (rewrite E; reflexivity).
  assert (Ht : by_type component y = by_type component x) by (rewrite E; reflexivity).
  assert (Hp : _component y = _component x) by (rewrite E; reflexivity).
  cbn [filter]. rewrite Hc. destruct (by_course c x); [|exact IH].
  cbn [filter]. rewrite Ht. destruct (by_type component x); [|exact IH].
  cbn [map]. now rewrite Hp, IH.
Qed.

Lemma candidatePlugins_components ext cfg items items' :
  map _component (filter (by_type component) items')
  = map _component (filter (by_type component) items) ->
  candidatePlugins ext cfg items' = candidatePlugins ext cfg items.
Proof. unfold candidatePlugins. now intros ->. Qed.

Lemma NoDup_same_length {A} (a b : list A) :
  NoDup a -> NoDup b -> (forall x, In x a <-> In x b) -> length a = length b.
Proof.
  intros Ha Hb H. apply Permutation_length. now apply NoDup_Permutation.
Qed.

(** The candidate of a config that already carries its candidate is that
    same set. *)
Lemma candidatePlugins_settled ext cfg items :
  let c1 := candidatePlugins ext cfg items in
  let c2 := candidatePlugins ext (assign cfg (dEnabledPlugins c1)) items in
  (length c1 =? length c2)%nat && forallb (includes plugin_eqb c2) c1 = true.
Proof.
  intros c1 c2.
  assert (H : forall p, In p c1 <-> In p c2).
  { intro p. unfold c2. rewrite candidatePlugins_In.
    cbn [assign _enabledPlugins _menu _theme dEnabledPlugins d_enabledPlugins d_menu
         d_theme orElse].
    fold c1. unfold c1 at 1. rewrite candidatePlugins_In. fold c1.
    split.
    - intros [[H1 H2]|H]; [|tauto]. left. split; [|assumption].
      unfold c1. apply candidatePlugins_In. auto.
    - intros [[H1 H2]|H]; [|tauto].
      unfold c1 in H1. apply candidatePlugins_In in H1. tauto. }
  apply andb_true_iff. split.
  - apply Nat.eqb_eq. apply NoDup_same_length; [apply uniq_NoDup..|exact H].
  - apply forallb_forall. intros p Hp.
    apply (includes_In plugin_eqb plugin_eqb_eq). now apply H.
Qed.

(** X12: [updateEnabledPlugins] always returns, and an unforced run right
    after any run writes nothing. *)
Theorem updateEnabledPlugins_idempotent :
  forall extensionNames getPluginSchemas schemaSource item force s,
  exists s1,
    updateEnabledPlugins extensionNames getPluginSchemas schemaSource item force s
    = (Ok tt, s1)
    /\ updateEnabledPlugins extensionNames getPluginSchemas schemaSource item false s1
       = (Ok tt, s1).
Proof.
  intros ext gps src item force s.
  set (items := filter (by_course (_courseId item)) (docs s)).
  destruct (List.find (by_type config) items) as [cfg|] eqn:F.
  - set (c1 := candidatePlugins ext cfg items).
    destruct (negb force && (length (_enabledPlugins cfg) =? length c1)%nat
              && forallb (includes plugin_eqb c1) (_enabledPlugins cfg)) eqn:T.
    + assert (force = false) as -> by (destruct force; [discriminate | reflexivity]).
      exists s. cbn [negb andb] in T.
      split; apply (updateEnabledPlugins_match ext gps src item s F T).
    + destruct (updateEnabledPlugins_write ext gps src item force s F T)
        as (docs' & ws & E & F').
      eexists. split; [exact E|].
      pose proof (@updateEnabledPlugins_sameButPlugins _ _ _ _ _ _ _ _ E) as [_ FF].
      cbn [docs] in FF.
      match goal with |- updateEnabledPlugins _ _ _ _ _ ?s1 = _ =>
        apply (updateEnabledPlugins_match ext gps src item s1 F')
      end.
      cbn [docs].
      rewrite (@candidatePlugins_components ext _ items
                 (filter (by_course (_courseId item)) docs')).
      * cbn [assign _enabledPlugins dEnabledPlugins d_enabledPlugins orElse].
        apply candidatePlugins_settled.
      * apply sameButPlugins_components. exact FF.
  - exists s. split; now apply updateEnabledPlugins_no_config.
Qed.

Lemma filter_map_stable (q : Query) (g : ContentNode -> ContentNode) l :
  (forall n, q (g n) = q n) -> filter q (map g l) = map g (filter q l).
Proof.
  intro H. induction l as [|x l IH]; [reflexivity|].
  cbn [map filter]. rewrite H. destruct (q x); cbn [map]; now rewrite IH.
Qed.

Lemma find_map_stable (q : Query) (g : ContentNode -> ContentNode) l :
  (forall n, q (g n) = q n) -> List.find q (map g l) = option_map g (List.find q l).
Proof.
  intro H. induction l as [|x l IH]; [reflexivity|].
  cbn [map List.find]. rewrite H. destruct (q x); [reflexivity | exact IH].
Qed.

(** X13: an update of a config that supplies [_enabledPlugins] returns the
    document with the supplied list, but what the store keeps is the
    reconciled one: no duplicates; a supplied name stays only if it is an
    installed extension; every plugin of a component of the course, the menu
    and the theme are there. *)
Theorem update_enabledPlugins_reconciled :
  forall extensionNames getPluginSchemas schemaSource s cfg requested,
    NoDup (map _id (docs s)) ->
    List.find (by_type config) (filter (by_course (_courseId cfg)) (docs s)) = Some cfg ->
    exists doc s' cfg',
      update extensionNames getPluginSchemas schemaSource (by_id (_id cfg))
        (dEnabledPlugins requested) s = (Ok doc, s')
      /\ _enabledPlugins doc = requested
      /\ List.find (by_type config) (filter (by_course (_courseId cfg)) (docs s'))
         = Some cfg'
      /\ _id cfg' = _id cfg
      /\ NoDup (_enabledPlugins cfg')
      /\ forall p, In p (_enabledPlugins cfg')
           <-> (In p requested /\ In p extensionNames)
               \/ (exists c, In c (docs s) /\ _courseId c = _courseId cfg
                             /\ _type c = component /\ _component c = p)
               \/ p = _menu cfg \/ p = _theme cfg.
Proof.
  intros ext gps src s cfg X ND F.
  assert (Hcfg : In cfg (docs s) /\ _type cfg = config).
  { apply find_some in F. destruct F as [Hin Ht]. apply filter_In in Hin.
    split; [tauto | now apply ctype_eqb_eq]. }
  destruct Hcfg as [Hin Hty].
  set (f := fun n => assign n (dEnabledPlugins X)).
  set (g := onId (_id cfg) f).
  set (s1 := mkStore (map g (docs s)) (nextId s)
               (writes s ++ [WUpdate (_id (f cfg)) (dEnabledPlugins X)])).
  assert (Hup : super_update (by_id (_id cfg)) (dEnabledPlugins X) s = (Ok (f cfg), s1)).
  { unfold super_update. fold f. rewrite (@replaceFirst_by_id f _ _ ND Hin). reflexivity. }
  assert (Hg : forall q : Query, (forall n, q (f n) = q n) -> forall n, q (g n) = q n).
  { intros q Hq n. unfold g, onId. destruct (oid_eqb _ _); [apply Hq | reflexivity]. }
  assert (F1 : List.find (by_type config) (filter (by_course (_courseId (f cfg))) (docs s1))
               = Some (f cfg)).
  { cbn [docs s1]. change (_courseId (f cfg)) with (_courseId cfg).
    rewrite filter_map_stable by (apply Hg; reflexivity).
    rewrite find_map_stable by (apply Hg; reflexivity).
    rewrite F. cbn [option_map]. unfold g, onId. now rewrite oid_eqb_refl. }
  destruct (updateEnabledPlugins_write ext gps src (f cfg) true s1 F1 eq_refl)
    as (docs' & ws & E & F').
  assert (Hso : updateSortOrder (f cfg) true s1 = (Ok tt, s1)).
  { apply updateSortOrder_skip. unfold needsOrder. cbn. now rewrite Hty. }
  set (cand := candidatePlugins ext (f cfg) (filter (by_course (_courseId (f cfg)))
                                               (docs s1))) in *.
  exists (f cfg),
         (mkStore docs' (nextId s1)
            (writes s1 ++ WUpdate (_id (f cfg)) (dEnabledPlugins cand) :: ws)),
         (assign (f cfg) (dEnabledPlugins cand)).
  split; [|split; [reflexivity|split; [exact F'|split;
    [reflexivity|split; [apply uniq_NoDup|]]]]].
  - unfold update. unfold bind at 1. rewrite Hup. unfold bind at 1. unfold both.
    rewrite Hso. change (isSome (d_enabledPlugins (dEnabledPlugins X))) with true.
    rewrite E. reflexivity.
  - intro p.
    cbn [assign _enabledPlugins dEnabledPlugins d_enabledPlugins orElse].
    unfold cand. rewrite candidatePlugins_In.
    cbn [f assign _enabledPlugins _menu _theme dEnabledPlugins d_enabledPlugins d_menu
         d_theme orElse].
    assert (Hc : (exists c, In c (filter (by_course (_courseId cfg)) (docs s1))
                            /\ _type c = component /\ _component c = p)
                 <-> (exists c, In c (docs s) /\ _courseId c = _courseId cfg
                                /\ _type c = component /\ _component c = p)).
    { cbn [docs s1]. split.
      - intros (c & Hc & Ht & Ep). apply filter_In in Hc. destruct Hc as [Hc Hco].
        apply in_map_iff in Hc. destruct Hc as (c0 & <- & Hc0).
        exists c0. unfold g, onId in *.
        destruct (oid_eqb (_id c0) (_id cfg)); cbn in *;
          (split; [assumption|]); (split; [now apply oid_eqb_eq|]); tauto.
      - intros (c & Hc & Hco & Ht & Ep). exists (g c). split.
        + apply filter_In. split; [now apply in_map|].
          rewrite (Hg (by_course (_courseId cfg))) by reflexivity.
          apply oid_eqb_eq. exact Hco.
        + unfold g, onId. destruct (oid_eqb (_id c) (_id cfg)); cbn; tauto. }
    change (_courseId (f cfg)) with (_courseId cfg). rewrite Hc. reflexivity.
Qed.

Lemma update_enabledPlugins_reconciled_witness :
  exists doc s' cfg',
    update c6_ext (fun _ => []) (fun _ => None)
      (by_id (Some 1%nat)) (dEnabledPlugins [Some "adapt-contrib-unknown"%string])
      c6_ok_store = (Ok doc, s')
    /\ _enabledPlugins doc = [Some "adapt-contrib-unknown"%string]
    /\ List.find (by_type config) (filter (by_course (Some 2%nat)) (docs s')) = Some cfg'
    /\ _id cfg' = Some 1%nat
    /\ NoDup (_enabledPlugins cfg')
    /\ forall p, In p (_enabledPlugins cfg')
         <-> (In p [Some "adapt-contrib-unknown"%string] /\ In p c6_ext)
             \/ (exists c, In c (docs c6_ok_store) /\ _courseId c = Some 2%nat
                           /\ _type c = component /\ _component c = p)
             \/ p = Some "adapt-contrib-boxMenu"%string
             \/ p = Some "adapt-contrib-vanilla"%string.
Proof.
  apply (@update_enabledPlugins_reconciled c6_ext (fun _ => []) (fun _ => None)
           c6_ok_store
           (cfgNode 1 (Some 2%nat) [Some "adapt-contrib-trickle"%string]
              (Some "adapt-contrib-boxMenu"%string)
              (Some "adapt-contrib-vanilla"%string))
           [Some "adapt-contrib-unknown"%string]).
  - nodup_ids.
  - reflexivity.
Defined.

(** ** Pasting *)

Lemma Forall2_numbered_types L l : forall l',
  Forall2 sameButPlugins (map (numbered 0 L) l) l' -> map _type l' = map _type l.
Proof.
  induction l as [|x l IH]; intros l' F; inversion F; subst; [reflexivity|].
  cbn [map]. rewrite (IH _ H3). f_equal.
  match goal with H : sameButPlugins _ _ |- _ => apply sameButPlugins_tracks in H;
    destruct H as (_ & T & _) end.
  exact T.
Qed.

(** X14: when the block is empty, or has a [left] child and no [right] one (or
    the reverse), [appendToBlock] creates no block: the component is stored
    in that same block, on the vacant side if there is one, in the block's
    course. *)
Theorem appendToBlock_same_block :
  forall validate extensionNames getPluginSchemas schemaSource translate defaultLanguage
         b comp userId options s,
    WF s ->
    (forall n, validate n = true) ->
    In b (docs s) ->
    _type comp <> course -> _type comp <> config ->
    let children := filter (by_parent (_id b)) (docs s) in
    let leftChild := List.find (hasLayout Lleft) children in
    let rightChild := List.find (hasLayout Lright) children in
    children = [] \/ isSome leftChild <> isSome rightChild ->
    exists doc s',
      appendToBlock validate extensionNames getPluginSchemas schemaSource translate
        defaultLanguage b comp userId false options s = (Ok doc, s')
      /\ _id doc = Some (nextId s)
      /\ _parentId doc = _id b
      /\ _courseId doc = _courseId b
      /\ _layout doc = match leftChild, rightChild with
                       | Some _, None => Some Lright
                       | None, Some _ => Some Lleft
                       | _, _ => _layout comp
                       end
      /\ map _id (docs s') = map _id (docs s) ++ [Some (nextId s)]
      /\ map _type (docs s') = map _type (docs s) ++ [_type comp].
Proof.
  intros validate ext gps sch tr dl b comp u options s W Hv Hb Hc Hg
         children leftChild rightChild Hvac.
  pose proof W as [ND Wid]. destruct (Wid b Hb) as (bid & Hbid & _).
  set (comp' := if isSome leftChild && negb (isSome rightChild)
                then assign comp (dLayout Lright)
                else if negb (isSome leftChild) && isSome rightChild
                     then assign comp (dLayout Lleft) else comp).
  set (data := assign comp' (dAppend b)).
  assert (Ht : _type data = _type comp).
  { unfold data, comp'.
    destruct (_ && _); [reflexivity|]. destruct (_ && _); reflexivity. }
  assert (Hp : _parentId data = _id b).
  { unfold data, comp'.
    destruct (_ && _); [reflexivity|]. destruct (_ && _); reflexivity. }
  assert (Hin : In (_parentId data) (map _id (docs s))) by (rewrite Hp; now apply in_map).
  destruct (@insert_run validate ext gps sch data options s W (Hv data))
    as (s' & E & N & F & W'); [now rewrite Ht | now rewrite Ht | assumption |].
  exists (set_id (Some (nextId s)) data), s'.
  split; [|split; [reflexivity|split; [exact Hp|split; [|split; [|split]]]]].
  - unfold appendToBlock. unfold bind at 1. unfold find at 1. cbv beta iota zeta.
    fold children. fold leftChild. fold rightChild. rewrite <- E. unfold data, comp'.
    destruct Hvac as [He|Hne].
    + unfold leftChild, rightChild. rewrite He. cbn. reflexivity.
    + destruct (isSome leftChild), (isSome rightChild);
        try congruence; cbn [andb negb]; unfold bind at 1, ret at 1; reflexivity.
  - unfold data, comp'.
    destruct (_ && _); [reflexivity|]. destruct (_ && _); reflexivity.
  - unfold data, comp'.
    destruct leftChild, rightChild; reflexivity.
  - rewrite (Forall2_sameButPlugins_ids F), map_map.
    rewrite (map_ext _ _id) by (intro; apply numbered_id).
    rewrite map_app. reflexivity.
  - rewrite (Forall2_numbered_types _ _ F), map_app. cbn [map _type set_id].
    now rewrite Ht.
Qed.

Lemma appendToBlock_same_block_witness :
  exists doc s',
    appendToBlock (fun _ => true) [] (fun _ => []) (fun _ => None) (fun _ key => key)
      None c3_block c3_comp None false noOptions c3_left_store = (Ok doc, s')
    /\ _id doc = Some (nextId c3_left_store)
    /\ _parentId doc = _id c3_block
    /\ _courseId doc = _courseId c3_block
    /\ _layout doc = Some Lright
    /\ map _id (docs s') = map _id (docs c3_left_store) ++ [Some (nextId c3_left_store)]
    /\ map _type (docs s') = map _type (docs c3_left_store) ++ [_type c3_comp].
Proof.
  apply (@appendToBlock_same_block (fun _ => true) [] (fun _ => []) (fun _ => None)
           (fun _ key => key) None c3_block c3_comp None noOptions c3_left_store).
  - wf_store.
  - reflexivity.
  - simpl. tauto.
  - discriminate.
  - discriminate.
  - right. simpl. discriminate.
Defined.

(** X15: [clone] of an identifier that names no stored document throws
    [NOT_FOUND] and writes nothing. *)
Theorem clone_unknown_source :
  forall validate extensionNames getPluginSchemas schemaSource translate defaultLanguage
         fuel userId id parentId customData globalData isCut options s,
    ~ In id (map _id (docs s)) ->
    clone validate extensionNames getPluginSchemas schemaSource translate
      defaultLanguage (S fuel) userId id parentId customData globalData isCut options s
    = (Throw NOT_FOUND, s).
Proof.
  intros validate ext gps sch tr dl fuel u id parentId cd gd isCut options s Hout.
  cbn [clone]. unfold bind at 1. unfold find at 1. cbv beta iota.
  now rewrite (filter_by_id_absent _ _ Hout).
Qed.

Lemma clone_unknown_source_witness :
  clone (fun _ => true) [] (fun _ => []) (fun _ => None) (fun _ key => key) None 1
    (Some "user1"%string) (Some 99%nat) (Some 4%nat) emptyDelta emptyDelta false
    noOptions c8_store
  = (Throw NOT_FOUND, c8_store).
Proof.
  apply (@clone_unknown_source (fun _ => true) [] (fun _ => []) (fun _ => None)
           (fun _ key => key) None 0%nat (Some "user1"%string) (Some 99%nat)
           (Some 4%nat) emptyDelta emptyDelta false noOptions c8_store).
  simpl. intuition discriminate.
Defined.

(** X16: [clone] of a document that is neither a course nor a config, with no
    parent given or with one that names no stored document, throws
    [INVALID_PARENT] and writes nothing. *)
Theorem clone_unknown_parent :
  forall validate extensionNames getPluginSchemas schemaSource translate defaultLanguage
         fuel userId src parentId customData globalData isCut options s,
    NoDup (map _id (docs s)) ->
    In src (docs s) ->
    _type src <> course -> _type src <> config ->
    parentId = None \/ ~ In parentId (map _id (docs s)) ->
    clone validate extensionNames getPluginSchemas schemaSource translate
      defaultLanguage (S fuel) userId (_id src) parentId customData globalData isCut
      options s
    = (Throw INVALID_PARENT, s).
Proof.
  intros validate ext gps sch tr dl fuel u src parentId cd gd isCut options s
         ND Hsrc Hc Hg Hp.
  cbn [clone]. unfold bind at 1. unfold find at 1. cbv beta iota.
  rewrite (@filter_by_id_unique _ _ ND Hsrc).
  assert (Hpar : (if isSome parentId then find (by_id parentId) else ret []) s
                 = (Ok [], s)).
  { destruct Hp as [->|Hout]; [reflexivity|].
    destruct (isSome parentId); [|reflexivity].
    unfold find. now rewrite (filter_by_id_absent _ _ Hout). }
  unfold bind at 1. rewrite Hpar. cbv beta iota.
  assert (Ec : ctype_eqb (_type src) course = false).
  { destruct (ctype_eqb (_type src) course) eqn:E; [|reflexivity].
    apply ctype_eqb_eq in E. contradiction. }
  assert (Eg : ctype_eqb (_type src) config = false).
  { destruct (ctype_eqb (_type src) config) eqn:E; [|reflexivity].
    apply ctype_eqb_eq in E. contradiction. }
  unfold bind at 1. rewrite Ec, Eg. reflexivity.
Qed.

Lemma clone_unknown_parent_witness :
  clone (fun _ => true) [] (fun _ => []) (fun _ => None) (fun _ key => key) None 1
    (Some "user1"%string) (_id c8_block) None emptyDelta emptyDelta false noOptions
    c8_store
  = (Throw INVALID_PARENT, c8_store).
Proof.
  apply (@clone_unknown_parent (fun _ => true) [] (fun _ => []) (fun _ => None)
           (fun _ key => key) None 0%nat (Some "user1"%string) c8_block None emptyDelta
           emptyDelta false noOptions c8_store).
  - nodup_ids.
  - simpl. tauto.
  - discriminate.
  - discriminate.
  - left. reflexivity.
Defined.

(** X17: with [isCut], pasting a menu, page, article or block into a parent of
    the expected type is exactly one [update] of the source, setting
    [_parentId] and [_sortOrder]: nothing is copied, and no other key of
    [customData] or [globalData] is applied. *)
Theorem clone_cut_is_update :
  forall validate extensionNames getPluginSchemas schemaSource translate defaultLanguage
         fuel userId src parent pid customData globalData options s,
    NoDup (map _id (docs s)) ->
    In src (docs s) -> In parent (docs s) -> _id parent = Some pid ->
    In (_type src, _type parent)
       [(menu, course); (menu, menu); (page, course); (page, menu); (article, page);
        (block, article)] ->
    clone validate extensionNames getPluginSchemas schemaSource translate
      defaultLanguage (S fuel) userId (_id src) (Some pid) customData globalData true
      options s
    = update extensionNames getPluginSchemas schemaSource (by_id (_id src))
        (dCut (Some pid)
           (orElse (d_sortOrder globalData)
              (orElse (d_sortOrder customData) (_sortOrder src)))) s.
Proof.
  intros validate ext gps sch tr dl fuel u src parent pid cd gd options s
         ND Hsrc Hpar Hpid Hty.
  cbn [clone]. unfold bind at 1. unfold find at 1. cbv beta iota.
  rewrite (@filter_by_id_unique _ _ ND Hsrc).
  unfold bind at 1. cbn [isSome]. unfold find at 1. cbv beta iota.
  rewrite <- Hpid, (@filter_by_id_unique _ _ ND Hpar).
  cbv zeta.
  assert (Hcomp : ctype_eqb (_type src) component = false).
  { cbn in Hty. repeat (destruct Hty as [Hty|Hty]; [injection Hty as E1 E2;
      rewrite <- E1; reflexivity|]). contradiction. }
  rewrite Hcomp.
  assert (Hs1 : (indexOf (_type src) fullHierarchy =? indexOf menu fullHierarchy)
                && (indexOf (_type parent) fullHierarchy =? indexOf menu fullHierarchy)
                || (indexOf (_type src) fullHierarchy =? indexOf page fullHierarchy)
                   && (indexOf (_type parent) fullHierarchy <? indexOf page fullHierarchy)
                || (indexOf (_type parent) fullHierarchy
                    =? indexOf (_type src) fullHierarchy - 1) = true).
  { cbn in Hty. repeat (destruct Hty as [Hty|Hty]; [injection Hty as E1 E2;
      rewrite <- E1, <- E2; reflexivity|]). contradiction. }
  rewrite Hs1.
  unfold append, cut. rewrite Hpid.
  unfold bind at 1.
  match goal with |- match ?m s with _ => _ end = _ =>
    replace (m s) with
      (update ext gps sch (by_id (_id src))
         (dCut (Some pid) (orElse (d_sortOrder gd) (orElse (d_sortOrder cd) (_sortOrder src))))
         s)
  end.
  - destruct (update _ _ _ _ _ s) as [[a|e] s']; reflexivity.
  - reflexivity.
Qed.

Lemma clone_cut_is_update_witness :
  clone (fun _ => true) [] (fun _ => []) (fun _ => None) (fun _ key => key) None 1
    (Some "user1"%string) (_id c8_block) (Some 4%nat) emptyDelta emptyDelta true
    noOptions c8_store
  = update [] (fun _ => []) (fun _ => None) (by_id (_id c8_block))
      (dCut (Some 4%nat)
         (orElse (d_sortOrder emptyDelta)
            (orElse (d_sortOrder emptyDelta) (_sortOrder c8_block)))) c8_store.
Proof.
  apply (@clone_cut_is_update (fun _ => true) [] (fun _ => []) (fun _ => None)
           (fun _ key => key) None 0%nat (Some "user1"%string) c8_block x_article 4%nat
           emptyDelta emptyDelta noOptions c8_store).
  - nodup_ids.
  - simpl. tauto.
  - simpl. tauto.
  - reflexivity.
  - simpl. tauto.
Defined.

(** ** Moving across courses *)

Lemma keepsWF_ret {A} (a : A) : keepsWF (ret a).
Proof. intros s _ W. exact W. Qed.

Lemma keepsWF_throw {A} e : keepsWF (@throw A e).
Proof. intros s _ W. exact W. Qed.

Lemma keepsWF_find q : keepsWF (find q).
Proof. intros s _ W. exact W. Qed.

Lemma keepsWF_toString u : keepsWF (toString u).
Proof. destruct u; [apply keepsWF_ret | apply keepsWF_throw]. Qed.

Lemma keepsWF_bind {A B} (m : M A) (k : A -> M B) :
  keepsWF m -> (forall a, keepsWF (k a)) -> keepsWF (bind m k).
Proof. apply holds_bind; auto. Qed.

Lemma keepsWF_both (x y : M unit) : keepsWF x -> keepsWF y -> keepsWF (both x y).
Proof. apply holds_both; auto. Qed.

Lemma keepsWF_when c (m : M unit) : keepsWF m -> keepsWF (when c m).
Proof. destruct c; [auto | intros; apply keepsWF_ret]. Qed.

Lemma keepsWF_ids {A} (m : M A) :
  (forall s, map _id (docs (snd (m s))) = map _id (docs s)
             /\ (nextId s <= nextId (snd (m s)))%nat) ->
  keepsWF m.
Proof. intros H s _ W. destruct (H s) as [E N]. now apply (@WF_ids s). Qed.

Lemma keepsWF_updateSortOrder item updateData : keepsWF (updateSortOrder item updateData).
Proof.
  apply keepsWF_ids. intro s.
  assert (R : revises sameId s (snd (updateSortOrder item updateData s))).
  { apply (@revising_updateSortOrder sameId); unfold sameId;
      [reflexivity | congruence | reflexivity | exact I]. }
  destruct R as [N R]. split; [now apply Forall2_sameId | lia].
Qed.

Lemma keepsWF_updateEnabledPlugins ext gps src item force :
  keepsWF (updateEnabledPlugins ext gps src item force).
Proof.
  apply keepsWF_ids. intro s.
  destruct (updateEnabledPlugins ext gps src item force s) as [r s'] eqn:E.
  destruct (@updateEnabledPlugins_sameButPlugins _ _ _ _ _ _ _ _ E) as [N F].
  cbn [snd]. split; [now apply Forall2_sameButPlugins_ids | lia].
Qed.

Lemma keepsWF_super_update q d : keepsWF (super_update q d).
Proof.
  apply keepsWF_ids. intro s. unfold super_update.
  destruct (replaceFirst _ _ (docs s)) as [[y l']|] eqn:E; cbn [snd docs nextId];
    [|split; [reflexivity | lia]].
  apply replaceFirst_ids in E. split; [tauto | lia].
Qed.

Lemma keepsWF_super_insert validate data : keepsWF (super_insert validate data).
Proof.
  intros s _ W. unfold super_insert. destruct (validate data); [|exact W].
  cbn [snd]. now apply WF_after_insert.
Qed.

Lemma keepsWF_update ext gps src q d : keepsWF (update ext gps src q d).
Proof.
  unfold update. apply keepsWF_bind; [apply keepsWF_super_update|]. intro doc.
  apply keepsWF_bind; [|intro; apply keepsWF_ret].
  apply keepsWF_both; [apply keepsWF_updateSortOrder | apply keepsWF_updateEnabledPlugins].
Qed.

Lemma keepsWF_insert validate ext gps src data options :
  keepsWF (insert validate ext gps src data options).
Proof.
  unfold insert. apply keepsWF_bind.
  - destruct (_ && _); [|apply keepsWF_ret].
    apply keepsWF_bind; [apply keepsWF_find|].
    intros [|? ?]; [apply keepsWF_throw | apply keepsWF_ret].
  - intros _. apply keepsWF_bind; [apply keepsWF_super_insert|]. intro doc.
    destruct (ctype_eqb (_type data) course); [apply keepsWF_update|].
    apply keepsWF_bind; [|intro; apply keepsWF_ret].
    apply keepsWF_both; apply keepsWF_when;
      [apply keepsWF_updateSortOrder | apply keepsWF_updateEnabledPlugins].
Qed.

Section KeepsWF.

Variable validate : ContentNode -> bool.
Variable extensionNames : list plugin.
Variable getPluginSchemas : plugin -> list string.
Variable schemaSource : string -> option string.
Variable translate : option string -> string -> string.
Variable defaultLanguage : option string.

Lemma keepsWF_insertChain childTypes : forall parent createdBy' customData options acc,
  keepsWF (insertChain validate extensionNames getPluginSchemas schemaSource translate
             defaultLanguage childTypes parent createdBy' customData options acc).
Proof.
  induction childTypes as [|t rest IH]; intros parent u cd o acc; cbn [insertChain].
  - apply keepsWF_ret.
  - destruct parent as [p|]; [|apply keepsWF_throw].
    destruct (_id p); [|apply keepsWF_throw].
    destruct (_courseId p); [|apply keepsWF_throw].
    apply keepsWF_bind; [apply keepsWF_insert|]. intro item. apply IH.
Qed.

Lemma keepsWF_insertRecursive rootId createdBy' customData isMenu childTypes options :
  keepsWF (insertRecursive validate extensionNames getPluginSchemas schemaSource
             translate defaultLanguage rootId createdBy' customData isMenu childTypes
             options).
Proof.
  unfold insertRecursive. destruct rootId as [r|].
  - apply keepsWF_bind; [apply keepsWF_find|]. intro found.
    destruct childTypes as [ts|]; [apply keepsWF_insertChain|].
    destruct isMenu; [apply keepsWF_insertChain|].
    destruct (hd_error found); [apply keepsWF_insertChain | apply keepsWF_throw].
  - apply keepsWF_bind; [apply keepsWF_insert|]. intro parent.
    apply keepsWF_insertChain.
Qed.

Lemma keepsWF_constructToType node type userId options :
  keepsWF (constructToType validate extensionNames getPluginSchemas schemaSource
             translate defaultLanguage node type userId options).
Proof.
  unfold constructToType. cbv zeta.
  apply keepsWF_bind; [apply keepsWF_toString | intro; apply keepsWF_insertRecursive].
Qed.

Lemma keepsWF_cut parent child sortOrder :
  keepsWF (cut extensionNames getPluginSchemas schemaSource parent child sortOrder).
Proof. unfold cut. destruct (_id parent); [apply keepsWF_update | apply keepsWF_throw]. Qed.

Lemma keepsWF_append parent child isCut options :
  keepsWF (append validate extensionNames getPluginSchemas schemaSource parent child
             isCut options).
Proof.
  unfold append. destruct parent; [|apply keepsWF_throw].
  destruct isCut; [apply keepsWF_cut | apply keepsWF_insert].
Qed.

Lemma keepsWF_appendToBlock block' component' userId isCut options :
  keepsWF (appendToBlock validate extensionNames getPluginSchemas schemaSource
             translate defaultLanguage block' component' userId isCut options).
Proof.
  unfold appendToBlock. apply keepsWF_bind; [apply keepsWF_find|]. intro children.
  cbv zeta. apply keepsWF_bind.
  - destruct (_ && _); [apply keepsWF_ret|].
    destruct (_ && _); [apply keepsWF_ret|].
    destruct (_ <? _)%nat; [|apply keepsWF_ret].
    apply keepsWF_bind; [apply keepsWF_toString|]. intro.
    apply keepsWF_bind; [apply keepsWF_insertRecursive|]. intro. apply keepsWF_ret.
  - intros [target comp]. destruct isCut; [|apply keepsWF_append].
    destruct target; [apply keepsWF_cut | apply keepsWF_throw].
Qed.

Lemma keepsWF_state {A} (m : M A) : (forall s, snd (m s) = s) -> keepsWF m.
Proof. intros H s _ W. now rewrite H. Qed.

Ltac wf_step :=
  first
    [ apply keepsWF_ret | apply keepsWF_throw | apply keepsWF_find
    | apply keepsWF_toString
    | apply keepsWF_insert | apply keepsWF_append | apply keepsWF_appendToBlock
    | apply keepsWF_insertRecursive | apply keepsWF_constructToType
    | apply keepsWF_state; intro; apply descendToType_state
    | apply keepsWF_state; intro; apply ascendToType_state
    | apply keepsWF_bind; [|intro]
    | match goal with
      | |- keepsWF (if ?c then _ else _) => destruct c
      | |- keepsWF (match ?x with _ => _ end) => destruct x
      end ].

Lemma keepsWF_clone fuel : forall userId id parentId customData globalData isCut options,
  keepsWF (clone validate extensionNames getPluginSchemas schemaSource translate
             defaultLanguage fuel userId id parentId customData globalData isCut
             options).
Proof.
  induction fuel as [|f IH]; intros userId id parentId cd gd isCut options; cbn [clone];
    [apply keepsWF_throw|].
  apply keepsWF_bind; [apply keepsWF_find|]. intros [|originalDoc rest];
    [apply keepsWF_throw|].
  apply keepsWF_bind; [destruct (isSome parentId); wf_step|]. intro parents.
  apply keepsWF_bind.
  - cbv beta iota zeta. repeat wf_step.
  - intro newData. cbv beta iota. destruct isCut; [apply keepsWF_ret|].
    apply keepsWF_bind; [apply keepsWF_find|]. intro children.
    apply keepsWF_bind; [|intro; apply keepsWF_ret].
    generalize (filter (fun i => negb (oid_eqb (_id i) (_id newData))) children).
    intro l. induction l as [|c l IHl]; [apply keepsWF_ret|].
    apply keepsWF_bind; [apply IH | intro; exact IHl].
Qed.

End KeepsWF.

Lemma deleteAll_removes l : forall s s',
  deleteAll l s = (Ok tt, s') ->
  NoDup (map _id (docs s)) ->
  (forall i, In i (map _id (docs s')) -> In i (map _id (docs s)))
  /\ forall d, In (Some d) l -> ~ In (_id d) (map _id (docs s')).
Proof.
  induction l as [|[d|] l IH]; intros s s' H ND; cbn [deleteAll] in H.
  - inversion H; subst. split; [auto | intros d []].
  - unfold bind, super_delete in H. cbv beta iota in H.
    set (s1 := mkStore (removeFirst (by_id (_id d)) (docs s)) (nextId s)
                 (writes s ++ [WDelete (_id d)])) in H.
    assert (ND1 : NoDup (map _id (docs s1))) by (now apply removeFirst_NoDup).
    destruct (IH s1 s' H ND1) as [Sub Gone].
    assert (Sub1 : forall i, In i (map _id (docs s1)) -> In i (map _id (docs s))).
    { cbn [docs s1]. rewrite (@removeFirst_by_id _ _ ND). intros i Hi.
      apply in_map_iff in Hi. destruct Hi as (n & <- & Hn).
      apply filter_In in Hn. apply in_map. tauto. }
    split; [auto|]. intros d' [E|Hd']; [|now apply Gone].
    inversion E; subst d'. intro Hin. apply Sub in Hin.
    cbn [docs s1] in Hin. rewrite (@removeFirst_by_id _ _ ND) in Hin.
    apply in_map_iff in Hin. destruct Hin as (n & En & Hn).
    apply filter_In in Hn. destruct Hn as [_ Hq].
    unfold by_id in Hq. rewrite En, oid_eqb_refl in Hq. discriminate.
  - discriminate.
Qed.

Lemma delete_removes_target ext gps src fuel id s r s' :
  NoDup (map _id (docs s)) ->
  delete ext gps src fuel (by_id id) s = (Ok r, s') ->
  ~ In id (map _id (docs s')).
Proof.
  intros ND H. unfold delete in H.
  apply bind_Ok in H. destruct H as (found & s0 & Hf & H).
  apply find_Ok in Hf. destruct Hf as [-> ->].
  destruct (filter (by_id id) (docs s)) as [|T rest] eqn:Ef; [discriminate|].
  assert (HT : _id T = id).
  { assert (Hin : In T (filter (by_id id) (docs s))) by (rewrite Ef; now left).
    apply filter_In in Hin. destruct Hin as [_ Hq]. now apply oid_eqb_eq. }
  apply bind_Ok in H. destruct H as (ds & s1 & Hg & H).
  pose proof (@getDescendants_state _ _ _ _ _ Hg) as ->.
  apply bind_Ok in H. destruct H as ([] & s2 & Hd & H).
  apply bind_Ok in H. destruct H as ([] & s3 & Hb & H).
  apply ret_Ok in H. destruct H as [_ <-].
  destruct (@deleteAll_removes _ _ _ Hd ND) as [_ Gone].
  specialize (Gone T). rewrite HT in Gone.
  apply both_Ok in Hb. destruct Hb as (s2' & Hep & Hso).
  apply updateEnabledPlugins_sameButPlugins in Hep. destruct Hep as [_ F].
  apply Forall2_sameButPlugins_ids in F.
  apply updateSortOrder_ids in Hso. rewrite Hso, F. apply Gone.
  apply in_or_app. right. now left.
Qed.

(** X18: after a [crossCourseCut] that returns, no stored document carries the
    source's [_id]. *)
Theorem crossCourseCut_removes_source :
  forall validate extensionNames getPluginSchemas schemaSource translate defaultLanguage
         fuel userId id parentId customData s newData s',
    WF s ->
    crossCourseCut validate extensionNames getPluginSchemas schemaSource translate
      defaultLanguage fuel userId id parentId customData s = (Ok newData, s') ->
    ~ In id (map _id (docs s')).
Proof.
  intros validate ext gps src tr dl fuel u id pid cd s newData s' W H.
  unfold crossCourseCut in H.
  apply bind_Ok in H. destruct H as (nd & s1 & Hc & H).
  apply bind_Ok in H. destruct H as (r & s2 & Hd & H).
  apply ret_Ok in H. destruct H as [_ <-].
  assert (W1 : WF s1).
  { pose proof (@keepsWF_clone validate ext gps src tr dl fuel u id pid cd emptyDelta
                  false noOptions s I W) as X. now rewrite Hc in X. }
  apply (@delete_removes_target _ _ _ _ _ _ _ _ (proj1 W1) Hd).
Qed.

Lemma crossCourseCut_removes_source_witness :
  ~ In (Some 4%nat)
      (map _id (docs (snd (crossCourseCut (fun _ => true) [] (fun _ => [])
                             (fun _ => None) (fun _ key => key) None 10
                             (Some "user1"%string) (Some 4%nat) (Some 13%nat) emptyDelta
                             c2_store)))).
Proof.
  eapply (@crossCourseCut_removes_source (fun _ => true) [] (fun _ => [])
            (fun _ => None) (fun _ key => key) None 10%nat (Some "user1"%string)
            (Some 4%nat) (Some 13%nat) emptyDelta c2_store).
  - wf_store.
  - vm_compute. reflexivity.
Defined.

(** ** Schema names *)

(** X19: for a payload that names a stored document by [_id] and lacks
    [_type] or [_component], the stored document decides the schema name,
    whatever [_type] or [_component] the payload carries: contentobject for
    a page or menu, the plugin's target for a component, the type otherwise. *)
Theorem getSchemaName_stored_record_decides :
  forall superSchemaName pluginTarget data item s,
    NoDup (map _id (docs s)) ->
    In item (docs s) ->
    s_id data = _id item -> _id item <> None ->
    s_type data = None \/ truthy (s_component data) = false ->
    getSchemaName superSchemaName pluginTarget data s
    = (Ok (match _type item with
           | component =>
               match pluginTarget (_component item) with
               | Some targetAttribute =>
                   Some (slice1 targetAttribute ++ "-component")%string
               | None => Some (superSchemaName data)
               end
           | page | menu => Some "contentobject"%string
           | t => Some (type_name t)
           end), s).
Proof.
  intros sup tgt data item s ND Hin Hid Hsome Hlook.
  unfold getSchemaName. cbv zeta.
  assert (Hc : isSome (s_id data)
               && (negb (isSome (s_type data)) || negb (truthy (s_component data)))
               = true).
  { rewrite Hid. destruct (_id item); [|congruence]. cbn.
    destruct Hlook as [-> | ->]; [reflexivity | apply orb_true_r]. }
  rewrite Hc. unfold bind at 1. unfold bind at 1. unfold find at 1. cbv beta iota.
  rewrite Hid, (@filter_by_id_unique _ _ ND Hin). unfold ret at 1. cbv beta iota.
  destruct (_type item); reflexivity.
Qed.

Lemma getSchemaName_stored_record_decides_witness :
  getSchemaName (fun _ => "content"%string) (fun _ => None)
    (mkSchemaData (Some 3%nat) (Some article) None None) c5_store
  = (Ok (Some "contentobject"%string), c5_store).
Proof.
  apply (@getSchemaName_stored_record_decides (fun _ => "content"%string) (fun _ => None)
           (mkSchemaData (Some 3%nat) (Some article) None None) x_page c5_store).
  - nodup_ids.
  - simpl. tauto.
  - reflexivity.
  - discriminate.
  - right. reflexivity.
Defined.

(** X20: for a payload with a [_courseId], [getSchema] reads only, and its
    extension filter lets every non-plugin schema through and a plugin
    schema exactly when a plugin enabled in the course's first config
    registers it; with no config no plugin schema passes. *)
Theorem getSchema_extension_filter :
  forall superSchemaName pluginTarget getPluginSchemas isPluginSchema schemaName data s c,
    s_courseId data = Some c ->
    exists name f,
      getSchema superSchemaName pluginTarget getPluginSchemas isPluginSchema
        schemaName data s = (Ok (name, f), s)
      /\ forall x, f x = true
           <-> isPluginSchema x = false
               \/ exists cfg p,
                    hd_error (filter (qand (by_type config) (by_course (Some c))) (docs s))
                    = Some cfg
                    /\ In p (_enabledPlugins cfg) /\ In x (getPluginSchemas p).
Proof.
  intros sup tgt gps isP schemaName data s c Hc.
  assert (Hname : exists name, attempt (getSchemaName sup tgt data) schemaName s
                               = (Ok name, s)).
  { unfold attempt, getSchemaName. cbv zeta. unfold bind at 1.
    destruct (isSome (s_id data) && _).
    - unfold bind at 1. unfold find at 1. cbv beta iota.
      destruct (filter _ _) as [|item ?]; unfold ret at 1; cbv beta iota;
        repeat match goal with
               | |- context [if ?b then _ else _] => destruct b
               end; eexists; reflexivity.
    - unfold ret at 1. cbv beta iota.
      repeat match goal with
             | |- context [if ?b then _ else _] => destruct b
             end; eexists; reflexivity. }
  destruct Hname as [name Hname].
  unfold getSchema. unfold bind at 1. rewrite Hname. rewrite Hc.
  unfold bind at 1. unfold ret at 1. cbv beta iota. cbn [isSome].
  unfold bind at 1. unfold attempt at 1. unfold bind at 1. unfold find at 1.
  cbv beta iota.
  destruct (filter (qand (by_type config) (by_course (Some c))) (docs s))
    as [|cfg rest] eqn:Ef.
  - unfold throw, ret. eexists _, _. split; [reflexivity|].
    intro x. cbv beta. destruct (isP x).
    + cbn. split; [discriminate|]. intros [H|(cfg & p & H & _)]; discriminate.
    + split; auto.
  - unfold ret. eexists _, _. split; [reflexivity|].
    intro x. cbv beta. destruct (isP x).
    + rewrite (@includes_In _ String.eqb String.eqb_eq), in_flat_map. split.
      * intros (p & Hp & Hx). right. exists cfg, p. auto.
      * intros [H|(cfg' & p & H & Hp & Hx)]; [discriminate|].
        cbn in H. inversion H; subst cfg'. exists p. auto.
    + split; auto.
Qed.

Lemma getSchema_extension_filter_witness :
  exists name f,
    getSchema (fun _ => "content"%string) (fun _ => None)
      (fun p => match p with Some n => [n] | None => [] end)
      (fun _ => true) None (mkSchemaData None (Some page) None (Some 2%nat)) c6_ok_store
    = (Ok (name, f), c6_ok_store)
    /\ forall x, f x = true
         <-> (fun _ : string => true) x = false
             \/ exists cfg p,
                  hd_error (filter (qand (by_type config) (by_course (Some 2%nat)))
                              (docs c6_ok_store)) = Some cfg
                  /\ In p (_enabledPlugins cfg)
                  /\ In x ((fun p => match p with Some n => [n] | None => [] end) p).
Proof.
  apply (@getSchema_extension_filter (fun _ => "content"%string) (fun _ => None)
           (fun p => match p with Some n => [n] | None => [] end)
           (fun _ => true) None (mkSchemaData None (Some page) None (Some 2%nat))
           c6_ok_store 2%nat).
  reflexivity.
Defined.

(** ** Renumbering keeps the order *)

Lemma sorted_nth r l : sorted r l ->
  forall i j a b, (i < j)%nat -> nth_error l i = Some a -> nth_error l j = Some b -> r a b.
Proof.
  induction 1 as [|x l Hx Hl IH]; intros i j a b Hij Ha Hb.
  - destruct i; discriminate.
  - destruct j as [|j]; [lia|]. cbn in Hb. destruct i as [|i].
    + cbn in Ha. inversion Ha; subst. rewrite Forall_forall in Hx.
      apply Hx. eapply nth_error_In; eassumption.
    + cbn in Ha. apply (IH i j); [lia | assumption..].
Qed.

(** In a list sorted by [_sortOrder], a strictly smaller key sits earlier. *)
Lemma sorted_index_lt l i j a b x y :
  sorted soLe l ->
  nth_error l i = Some a -> nth_error l j = Some b ->
  _sortOrder a = Some x -> _sortOrder b = Some y -> x < y ->
  (i < j)%nat.
Proof.
  intros Hs Ha Hb Ea Eb Hxy.
  destruct (Nat.lt_trichotomy i j) as [H|[H|H]]; [assumption | exfalso | exfalso].
  - subst j. rewrite Ha in Hb. inversion Hb; subst. rewrite Ea in Eb. inversion Eb. lia.
  - pose proof (@sorted_nth _ _ Hs _ _ _ _ H Hb Ha) as R. unfold soLe in R.
    rewrite Ea, Eb in R. cbn in R. apply Z.leb_le in R. lia.
Qed.

Lemma splice_nth_shift {A} e (x : A) l i a :
  (e <= length l)%nat -> nth_error l i = Some a ->
  nth_error (splice e x l) (if (i <? e)%nat then i else S i) = Some a.
Proof.
  intros He Hi. destruct (i <? e)%nat eqn:E.
  - apply Nat.ltb_lt in E. now rewrite splice_nth_before.
  - apply Nat.ltb_ge in E. unfold splice.
    rewrite nth_error_app2; rewrite length_firstn; [|lia].
    replace (S i - Nat.min e (length l))%nat with (S (i - e)) by lia.
    cbn [nth_error]. rewrite nth_error_skipn. rewrite <- Hi. f_equal. lia.
Qed.

(** X21: the renumbering never swaps siblings: of two documents under the
    item's parent (other than the item itself on insert or update), the one
    with the smaller [_sortOrder] before the call has the smaller one after
    it, whether or not the group was contiguous. *)
Theorem updateSortOrder_keeps_relative_order :
  forall item (updateData : bool) s a b x y,
    needsOrder item = true ->
    NoDup (map _id (docs s)) ->
    (if updateData then In (_id item) (map _id (docs s)) /\ _id item <> None
                        /\ _id a <> _id item /\ _id b <> _id item
     else filter (by_id (_parentId item)) (docs s) <> []) ->
    In a (docs s) -> In b (docs s) ->
    _parentId a = _parentId item -> _parentId b = _parentId item ->
    _sortOrder a = Some x -> _sortOrder b = Some y -> x < y ->
    exists s' a' b' x' y',
      updateSortOrder item updateData s = (Ok tt, s')
      /\ In a' (docs s') /\ _id a' = _id a /\ _sortOrder a' = Some x'
      /\ In b' (docs s') /\ _id b' = _id b /\ _sortOrder b' = Some y'
      /\ x' < y'.
Proof.
  intros item updateData s a b x y Hn ND Hpre Ha Hb Pa Pb Ea Eb Hxy.
  set (L := orderOf item updateData (docs s)).
  assert (NDL : NoDup (map _id L)) by (now apply orderOf_NoDup).
  assert (Hrun : updateSortOrder item updateData s
                 = (Ok tt, mkStore (map (numbered 0 L) (docs s)) (nextId s)
                             (writes s ++ renumberWrites 0 L))).
  { apply updateSortOrder_run; [assumption..|].
    destruct updateData; [tauto | assumption]. }
  assert (Hpos : exists i j, (i < j)%nat /\ nth_error L i = Some a /\ nth_error L j = Some b).
  { unfold L, orderOf. destruct updateData.
    - destruct Hpre as (_ & _ & Na & Nb). unfold upsertOrder.
      set (sibs := sortBy so_leb (filter (qand (by_parent (_parentId item))
                                         (qnot (by_id (_id item)))) (docs s))).
      assert (Hin : forall n, In n (docs s) -> _parentId n = _parentId item ->
                      _id n <> _id item -> In n sibs).
      { intros n Hin Hp Hi.
        apply (Permutation_in _ (Permutation_sym (sortBy_perm so_leb _))).
        apply filter_In. split; [assumption|]. unfold qand, qnot, by_parent, by_id.
        apply andb_true_iff. split; [now apply oid_eqb_eq|].
        apply negb_true_iff. destruct (oid_eqb (_id n) (_id item)) eqn:X; [|reflexivity].
        apply oid_eqb_eq in X. contradiction. }
      destruct (In_nth_error _ _ (Hin a Ha Pa Na)) as [i Hi].
      destruct (In_nth_error _ _ (Hin b Hb Pb Nb)) as [j Hj].
      pose proof (@sorted_index_lt _ _ _ _ _ _ _ (sortBy_sorted _) Hi Hj Ea Eb Hxy) as Hij.
      rewrite <- splice_min.
      set (e := Nat.min _ (length sibs)).
      assert (He : (e <= length sibs)%nat) by (unfold e; lia).
      exists (if (i <? e)%nat then i else S i),
             (if (j <? e)%nat then j else S j).
      split; [|split; now apply splice_nth_shift].
      destruct (i <? e)%nat eqn:Ei, (j <? e)%nat eqn:Ej; try lia.
      apply Nat.ltb_lt in Ej. apply Nat.ltb_ge in Ei. lia.
    - unfold deleteOrder.
      set (sibs := sortBy so_leb (filter (by_parent (_parentId item)) (docs s))).
      assert (Hin : forall n, In n (docs s) -> _parentId n = _parentId item -> In n sibs).
      { intros n Hin Hp.
        apply (Permutation_in _ (Permutation_sym (sortBy_perm so_leb _))).
        apply filter_In. split; [assumption|]. now apply oid_eqb_eq. }
      destruct (In_nth_error _ _ (Hin a Ha Pa)) as [i Hi].
      destruct (In_nth_error _ _ (Hin b Hb Pb)) as [j Hj].
      exists i, j. split; [|tauto].
      apply (@sorted_index_lt _ _ _ _ _ _ _ (sortBy_sorted _) Hi Hj Ea Eb Hxy). }
  destruct Hpos as (i & j & Hij & Hi & Hj).
  eexists _, (numbered 0 L a), (numbered 0 L b), _, _. split; [exact Hrun|].
  cbn [docs].
  split; [now apply in_map|]. split; [apply numbered_id|].
  split; [apply (@numbered_nth_sortOrder _ 0 i a NDL Hi)|].
  split; [now apply in_map|]. split; [apply numbered_id|].
  split; [apply (@numbered_nth_sortOrder _ 0 j b NDL Hj)|].
  lia.
Qed.

Lemma updateSortOrder_keeps_relative_order_witness :
  exists s' a' b' x' y',
    updateSortOrder x_deleted false c9_store = (Ok tt, s')
    /\ In a' (docs s') /\ _id a' = _id x_c9_block /\ _sortOrder a' = Some x'
    /\ In b' (docs s') /\ _id b' = _id c9_item /\ _sortOrder b' = Some y'
    /\ x' < y'.
Proof.
  apply (@updateSortOrder_keeps_relative_order x_deleted false c9_store x_c9_block
           c9_item 2 4).
  - reflexivity.
  - nodup_ids.
  - simpl. discriminate.
  - simpl. tauto.
  - simpl. tauto.
  - reflexivity.
  - reflexivity.
  - reflexivity.
  - reflexivity.
  - lia.
Defined.

(** ** Copies and same-level pastes *)

Lemma filter_nil_iff {A} (q : A -> bool) l :
  filter q l = [] <-> forall x, In x l -> q x = false.
Proof.
  induction l as [|y l IH]; cbn [filter]; [split; [intros _ x []|reflexivity]|].
  destruct (q y) eqn:E; split.
  - discriminate.
  - intro H. rewrite (H y (or_introl eq_refl)) in E. discriminate.
  - intros H x [<-|Hx]; [assumption | now apply IH].
  - intro H. apply IH. intros x Hx. apply H. now right.
Qed.

(** X22: copying a childless menu, page, article or block into a stored parent
    of the expected type adds exactly one document: the source with
    [_trackingId] cleared, [createdBy] set to the user, then [customData],
    then [globalData] applied, under the next identifier, with the parent's
    [_id] as [_parentId] and the parent's [_courseId] as [_courseId]. *)
Theorem clone_leaf_is_one_insert :
  forall validate extensionNames getPluginSchemas schemaSource translate defaultLanguage
         fuel userId src parent pid customData globalData options s,
    WF s ->
    (forall n, validate n = true) ->
    In src (docs s) -> In parent (docs s) -> _id parent = Some pid ->
    In (_type src, _type parent)
       [(menu, course); (menu, menu); (page, course); (page, menu); (article, page);
        (block, article)] ->
    d_type customData = None -> d_type globalData = None ->
    (forall n, In n (docs s) -> _parentId n <> _id src) ->
    exists copy s',
      clone validate extensionNames getPluginSchemas schemaSource translate
        defaultLanguage (S fuel) userId (_id src) (Some pid) customData globalData false
        options s = (Ok copy, s')
      /\ copy = set_id (Some (nextId s))
                  (assign (assign (assign (assign src (dCloneBase userId)) customData)
                             globalData) (dAppend parent))
      /\ _type copy = _type src
      /\ _parentId copy = Some pid
      /\ _courseId copy = _courseId parent
      /\ map _id (docs s') = map _id (docs s) ++ [Some (nextId s)].
Proof.
  intros validate ext gps sch tr dl fuel u src parent pid cd gd options s
         W Hv Hsrc Hpar Hpid Hty Hcd Hgd Hleaf.
  pose proof W as [ND Wid].
  set (data := assign (set_id None (assign (assign (assign src (dCloneBase u)) cd) gd))
                 (dAppend parent)).
  assert (Ht : _type data = _type src).
  { unfold data. cbn. now rewrite Hcd, Hgd. }
  assert (Hnc : _type src <> course /\ _type src <> config /\ _type src <> component).
  { cbn in Hty. repeat (destruct Hty as [Hty|Hty]; [injection Hty as E1 E2;
      rewrite <- E1; repeat split; discriminate|]). contradiction. }
  destruct Hnc as (Hc & Hg & Hk).
  assert (Hp : _parentId data = Some pid) by (unfold data; cbn; exact Hpid).
  assert (Hin : In (_parentId data) (map _id (docs s))).
  { rewrite Hp, <- Hpid. now apply in_map. }
  destruct (@insert_run validate ext gps sch data options s W (Hv data))
    as (s' & E & N & F & W'); [now rewrite Ht | now rewrite Ht | assumption |].
  exists (set_id (Some (nextId s)) data), s'.
  split; [|split; [reflexivity|split; [exact Ht|split; [exact Hp|split;
    [reflexivity|]]]]].
  - cbn [clone]. unfold bind at 1. unfold find at 1. cbv beta iota.
    rewrite (@filter_by_id_unique _ _ ND Hsrc).
    unfold bind at 1. cbn [isSome]. unfold find at 1. cbv beta iota.
    rewrite <- Hpid, (@filter_by_id_unique _ _ ND Hpar).
    cbv zeta.
    assert (Hcomp : ctype_eqb (_type src) component = false).
    { destruct (ctype_eqb (_type src) component) eqn:X; [|reflexivity].
      apply ctype_eqb_eq in X. contradiction. }
    rewrite Hcomp.
    assert (Hs1 : (indexOf (_type src) fullHierarchy =? indexOf menu fullHierarchy)
                  && (indexOf (_type parent) fullHierarchy =? indexOf menu fullHierarchy)
                  || (indexOf (_type src) fullHierarchy =? indexOf page fullHierarchy)
                     && (indexOf (_type parent) fullHierarchy <? indexOf page fullHierarchy)
                  || (indexOf (_type parent) fullHierarchy
                      =? indexOf (_type src) fullHierarchy - 1) = true).
    { cbn in Hty. repeat (destruct Hty as [Hty|Hty]; [injection Hty as E1 E2;
        rewrite <- E1, <- E2; reflexivity|]). contradiction. }
    rewrite Hs1. unfold append.
    unfold bind at 1.
    change (insert validate ext gps sch
              (assign (set_id None (assign (assign (assign src (dCloneBase u)) cd) gd))
                 (mkDelta None (Some (_id parent)) (Some (_courseId parent)) None None
                    None None None None None None None None None None)) options s)
      with (insert validate ext gps sch data options s).
    rewrite E. cbv beta iota.
    unfold bind at 1. unfold find at 1. cbv beta iota.
    match goal with |- context [filter ?q (filter ?p (docs s'))] =>
      assert (Hnil : filter q (filter p (docs s')) = [])
    end.
    { apply filter_nil_iff. intros n' Hn'. apply filter_In in Hn'.
      destruct Hn' as [Hn' Hq]. unfold by_parent in Hq. apply oid_eqb_eq in Hq.
      destruct (@track_backward _ _ _ n' F Hn') as (n & Hn & T).
      destruct T as (Ti & _ & Tp & _).
      apply in_app_or in Hn. destruct Hn as [Hn|[<-|[]]].
      - exfalso. apply (Hleaf n Hn). congruence.
      - apply negb_false_iff. rewrite Ti. apply oid_eqb_refl. }
    rewrite Hnil. cbv beta iota. reflexivity.
  - rewrite (Forall2_sameButPlugins_ids F), map_map.
    rewrite (map_ext _ _id) by (intro; apply numbered_id).
    rewrite map_app. reflexivity.
Qed.

Lemma clone_leaf_is_one_insert_witness :
  exists copy s',
    clone (fun _ => true) [] (fun _ => []) (fun _ => None) (fun _ key => key) None 1
      (Some "user1"%string) (_id x_c4_block) (Some 1%nat) emptyDelta emptyDelta false
      noOptions c4_store = (Ok copy, s')
    /\ copy = set_id (Some (nextId c4_store))
                (assign (assign (assign (assign x_c4_block
                                           (dCloneBase (Some "user1"%string)))
                                   emptyDelta) emptyDelta) (dAppend x_c4_article))
    /\ _type copy = _type x_c4_block
    /\ _parentId copy = Some 1%nat
    /\ _courseId copy = _courseId x_c4_article
    /\ map _id (docs s') = map _id (docs c4_store) ++ [Some (nextId c4_store)].
Proof.
  apply (@clone_leaf_is_one_insert (fun _ => true) [] (fun _ => []) (fun _ => None)
           (fun _ key => key) None 0%nat (Some "user1"%string) x_c4_block x_c4_article
           1%nat emptyDelta emptyDelta noOptions c4_store).
  - wf_store.
  - reflexivity.
  - simpl. tauto.
  - simpl. tauto.
  - reflexivity.
  - simpl. tauto.
  - reflexivity.
  - reflexivity.
  - intros n Hn. simpl in Hn.
    repeat (destruct Hn as [<-|Hn]; [discriminate|]). contradiction.
Defined.

(** X23: pasting a page, article, block or component onto a target of its own
    type throws [INVALID_PARENT] and writes nothing, unless a strict
    ancestor of the target has that type: [ascendToType] starts above the
    target. *)
Theorem clone_onto_same_type_fails :
  forall validate extensionNames getPluginSchemas schemaSource translate defaultLanguage
         rk B fuel userId src parent pid customData globalData isCut options s,
    NoDup (map _id (docs s)) ->
    ranked rk B (docs s) ->
    (B < fuel)%nat ->
    In src (docs s) -> In parent (docs s) -> _id parent = Some pid ->
    _type parent = _type src ->
    In (_type src) [page; article; block; component] ->
    (forall m, In m (docs s) -> descendant (docs s) m parent -> _type m <> _type src) ->
    clone validate extensionNames getPluginSchemas schemaSource translate
      defaultLanguage (S fuel) userId (_id src) (Some pid) customData globalData isCut
      options s
    = (Throw INVALID_PARENT, s).
Proof.
  intros validate ext gps sch tr dl rk B fuel u src parent pid cd gd isCut options s
         ND R HB Hsrc Hpar Hpid Hsame Hty Hnone.
  cbn [clone]. unfold bind at 1. unfold find at 1. cbv beta iota.
  rewrite (@filter_by_id_unique _ _ ND Hsrc).
  unfold bind at 1. cbn [isSome]. unfold find at 1. cbv beta iota.
  rewrite <- Hpid, (@filter_by_id_unique _ _ ND Hpar).
  cbv zeta. rewrite Hsame.
  assert (Hasc : ascendToType fuel parent (Some (_type src)) s = (Throw INVALID_PARENT, s)).
  { pose proof (ascendToType_state fuel parent (Some (_type src)) s) as Hst.
    destruct (R parent Hpar) as (_ & _ & Hle).
    destruct (@ascendToType_spec rk B (docs s) ND R fuel parent (Some (_type src)) s
                eq_refl Hpar ltac:(lia)) as [(p & E & Hp & D & T & _) | [E _]].
    - exfalso. apply (Hnone p Hp D). cbn in T. now apply ctype_eqb_eq in T.
    - destruct (ascendToType fuel parent (Some (_type src)) s) as [o s'].
      cbn in *. now subst. }
  cbn in Hty.
  destruct Hty as [E|[E|[E|[E|[]]]]]; rewrite <- E in *; cbn;
    unfold bind at 1; unfold bind at 1; rewrite Hasc; reflexivity.
Qed.

Lemma clone_onto_same_type_fails_witness :
  clone (fun _ => true) [] (fun _ => []) (fun _ => None) (fun _ key => key) None 8
    (Some "user1"%string) (_id c8_block) (Some 5%nat) emptyDelta emptyDelta false
    noOptions c8_store
  = (Throw INVALID_PARENT, c8_store).
Proof.
  assert (R : ranked idRank 6 (docs c8_store)).
  { intros c Hc. simpl in Hc.
    repeat (destruct Hc as [<-|Hc]; [simpl; repeat split; (discriminate || lia)|]).
    contradiction. }
  apply (@clone_onto_same_type_fails (fun _ => true) [] (fun _ => []) (fun _ => None)
           (fun _ key => key) None idRank 6%nat 7%nat (Some "user1"%string) c8_block
           c8_block 5%nat emptyDelta emptyDelta false noOptions c8_store).
  - nodup_ids.
  - exact R.
  - lia.
  - simpl. tauto.
  - simpl. tauto.
  - reflexivity.
  - reflexivity.
  - simpl. tauto.
  - intros m Hm D. pose proof (@descendant_rank _ _ _ _ _ R D) as Hlt.
    simpl in Hm.
    repeat (destruct Hm as [<-|Hm]; [first [discriminate | simpl in Hlt; lia]|]).
    contradiction.
Defined.

(** ** Pastes above and below the expected level *)

Lemma no_children_after_insert L l l' src doc :
  Forall2 sameButPlugins (map (numbered 0 L) (l ++ [doc])) l' ->
  (forall n, In n l -> _parentId n <> _id src) ->
  filter (fun i => negb (oid_eqb (_id i) (_id doc))) (filter (by_parent (_id src)) l') = [].
Proof.
  intros F Hleaf. apply filter_nil_iff. intros n' Hn'. apply filter_In in Hn'.
  destruct Hn' as [Hn' Hq]. unfold by_parent in Hq. apply oid_eqb_eq in Hq.
  destruct (@track_backward _ _ _ n' F Hn') as (n & Hn & T).
  destruct T as (Ti & _ & Tp & _).
  apply in_app_or in Hn. destruct Hn as [Hn|[<-|[]]].
  - exfalso. apply (Hleaf n Hn). congruence.
  - apply negb_false_iff. rewrite Ti. apply oid_eqb_refl.
Qed.

(** X24: pasting a childless block onto a component (a target below the
    source's level) stores one copy under the article that holds the
    component's block, in the article's course, placed right after that
    block, which keeps its own position. *)
Theorem clone_block_onto_component :
  forall validate extensionNames getPluginSchemas schemaSource translate defaultLanguage
         fuel userId src target pid blk art aid k customData globalData options s,
    WF s ->
    (forall n, validate n = true) ->
    In src (docs s) -> _type src = block ->
    (forall n, In n (docs s) -> _parentId n <> _id src) ->
    In target (docs s) -> _id target = Some pid -> _type target = component ->
    In blk (docs s) -> _id blk = _parentId target -> _type blk = block ->
    _sortOrder blk = Some k ->
    In art (docs s) -> _id art = Some aid -> _parentId blk = Some aid ->
    _type art = article ->
    contiguous (docs s) (Some aid) ->
    d_type customData = None -> d_type globalData = None ->
    (2 <= fuel)%nat ->
    exists copy s',
      clone validate extensionNames getPluginSchemas schemaSource translate
        defaultLanguage (S fuel) userId (_id src) (Some pid) customData
        globalData false options s = (Ok copy, s')
      /\ _id copy = Some (nextId s) /\ _type copy = block
      /\ _parentId copy = Some aid /\ _courseId copy = _courseId art
      /\ map _id (docs s') = map _id (docs s) ++ [Some (nextId s)]
      /\ (exists c', In c' (docs s') /\ _id c' = Some (nextId s)
                     /\ _parentId c' = Some aid /\ _sortOrder c' = Some (k + 1))
      /\ (exists b', In b' (docs s') /\ _id b' = _id blk /\ _sortOrder b' = Some k).
Proof.
  intros validate ext gps sch tr dl fuel u src target pid blk art aid k cd gd options s
         W Hv Hsrc Tsrc Hleaf Htg Htid Ttg Hblk Hbid Tblk Hbk Hart Haid Hbp Tart Hcont
         Hcd Hgd Hfuel.
  pose proof W as [ND Wid].
  set (proposed := set_id None (assign (assign (assign src (dCloneBase u)) cd) gd)).
  set (data := assign (assign proposed (dSortOrder (Some (k + 1)))) (dAppend art)).
  assert (Ht : _type data = block).
  { unfold data, proposed. cbn. now rewrite Hcd, Hgd. }
  assert (Hp : _parentId data = Some aid) by (unfold data; cbn; exact Haid).
  assert (Hin : In (_parentId data) (map _id (docs s))).
  { rewrite Hp, <- Haid. now apply in_map. }
  destruct (@insert_run validate ext gps sch data options s W (Hv data))
    as (s' & E & N & F & W');
    [rewrite Ht; discriminate | rewrite Ht; discriminate | assumption |].
  set (doc := set_id (Some (nextId s)) data) in *.
  exists doc, s'.
  assert (Hrun : clone validate ext gps sch tr dl (S fuel) u (_id src) (Some pid)
                   cd gd false options s = (Ok doc, s')).
  { cbn [clone]. unfold bind at 1. unfold find at 1. cbv beta iota.
    rewrite (@filter_by_id_unique _ _ ND Hsrc).
    unfold bind at 1. cbn [isSome]. unfold find at 1. cbv beta iota.
    rewrite <- Htid, (@filter_by_id_unique _ _ ND Htg).
    cbv zeta. rewrite Tsrc, Ttg.
    assert (Hs1 : (indexOf block fullHierarchy =? indexOf menu fullHierarchy)
                  && (indexOf component fullHierarchy =? indexOf menu fullHierarchy)
                  || (indexOf block fullHierarchy =? indexOf page fullHierarchy)
                     && (indexOf component fullHierarchy <? indexOf page fullHierarchy)
                  || (indexOf component fullHierarchy
                      =? indexOf block fullHierarchy - 1) = false) by reflexivity.
    assert (Hs2 : (indexOf component fullHierarchy <? indexOf block fullHierarchy - 1)
                  = false) by reflexivity.
    rewrite Hs1, Hs2.
    change (at_index fullHierarchy (indexOf block fullHierarchy - 1)) with (Some article).
    change (ctype_eqb block component) with false. cbv iota.
    assert (A1 : ascendToType fuel target (Some block) s = (Ok blk, s)).
    { destruct fuel as [|[|f]]; [lia | lia |]. cbn [ascendToType]. unfold bind, find. cbv beta iota.
      rewrite <- Hbid, (@filter_by_id_unique _ _ ND Hblk). cbn [rev app].
      rewrite Tblk. reflexivity. }
    assert (A2 : ascendToType fuel target (Some article) s = (Ok art, s)).
    { destruct fuel as [|[|f]]; [lia | lia |]. cbn [ascendToType]. unfold bind at 1. unfold find at 1. cbv beta iota.
      rewrite <- Hbid, (@filter_by_id_unique _ _ ND Hblk). cbn [rev app].
      rewrite Tblk. cbn [otype_eqb ctype_eqb].
      unfold bind, find. cbv beta iota.
      rewrite Hbp, <- Haid, (@filter_by_id_unique _ _ ND Hart). cbn [rev app].
      rewrite Tart. reflexivity. }
    unfold bind at 1. unfold bind at 1. rewrite A1. cbv beta iota.
    unfold bind at 1. rewrite A2. cbv beta iota.
    rewrite Hbk. cbn [option_map]. unfold append.
    match goal with |- context [insert validate ext gps sch ?d options s] =>
      change d with data
    end.
    rewrite E. cbv beta iota.
    unfold bind at 1. unfold find at 1. cbv beta iota.
    rewrite (@no_children_after_insert _ _ _ src doc F Hleaf).
    reflexivity. }
  split; [exact Hrun|].
  split; [reflexivity|]. split; [exact Ht|]. split; [exact Hp|].
  split; [reflexivity|].
  assert (NDd : NoDup (map _id (docs s ++ [doc]))) by (now apply WF_insert).
  assert (Hfresh : ~ In (_id doc) (map _id (docs s))) by (now apply WF_fresh).
  split.
  { rewrite (Forall2_sameButPlugins_ids F), map_map.
    rewrite (map_ext _ _id) by (intro; apply numbered_id).
    rewrite map_app. reflexivity. }
  destruct (o_updateSortOrder options) eqn:Ho.
  - destruct (@insert_after_positions (docs s) blk doc aid k NDd Hfresh Hblk Hbp Hbk
                Hcont Hp eq_refl) as [Pd Pb].
    split.
    + destruct (@track_forward _ _ _ doc F) as (d & Hd & T).
      { apply in_or_app. right. now left. }
      destruct T as (Ti & _ & Tp & _ & Ts).
      exists d. split; [assumption|]. split; [exact Ti|]. split; [now rewrite Tp|].
      rewrite Ts. exact Pd.
    + destruct (@track_forward _ _ _ blk F) as (b' & Hb' & T).
      { apply in_or_app. now left. }
      destruct T as (Ti & _ & _ & _ & Ts).
      exists b'. split; [assumption|]. split; [exact Ti|]. rewrite Ts. exact Pb.
  - split.
    + destruct (@track_forward _ _ _ doc F) as (d & Hd & T).
      { apply in_or_app. right. now left. }
      destruct T as (Ti & _ & Tp & _ & Ts).
      exists d. split; [assumption|]. split; [exact Ti|]. split; [now rewrite Tp|].
      rewrite Ts. reflexivity.
    + destruct (@track_forward _ _ _ blk F) as (b' & Hb' & T).
      { apply in_or_app. now left. }
      destruct T as (Ti & _ & _ & _ & Ts).
      exists b'. split; [assumption|]. split; [exact Ti|]. rewrite Ts. exact Hbk.
Qed.

Lemma clone_block_onto_component_witness :
  exists copy s',
    clone (fun _ => true) [] (fun _ => []) (fun _ => None) (fun _ key => key) None 3
      (Some "user1"%string) (_id x_leaf_block) (Some 3%nat) emptyDelta emptyDelta false
      noOptions x_paste_store = (Ok copy, s')
    /\ _id copy = Some (nextId x_paste_store) /\ _type copy = block
    /\ _parentId copy = Some 1%nat /\ _courseId copy = _courseId c3_article
    /\ map _id (docs s') = map _id (docs x_paste_store) ++ [Some (nextId x_paste_store)]
    /\ (exists c', In c' (docs s') /\ _id c' = Some (nextId x_paste_store)
                   /\ _parentId c' = Some 1%nat /\ _sortOrder c' = Some (1 + 1))
    /\ (exists b', In b' (docs s') /\ _id b' = _id c3_block /\ _sortOrder b' = Some 1).
Proof.
  apply (@clone_block_onto_component (fun _ => true) [] (fun _ => []) (fun _ => None)
           (fun _ key => key) None 2%nat (Some "user1"%string) x_leaf_block x_target
           3%nat c3_block c3_article 1%nat 1 emptyDelta emptyDelta noOptions
           x_paste_store).
  - wf_store.
  - reflexivity.
  - simpl. tauto.
  - reflexivity.
  - intros n Hn. simpl in Hn.
    repeat (destruct Hn as [<-|Hn]; [discriminate|]). contradiction.
  - simpl. tauto.
  - reflexivity.
  - reflexivity.
  - simpl. tauto.
  - reflexivity.
  - reflexivity.
  - reflexivity.
  - simpl. tauto.
  - reflexivity.
  - reflexivity.
  - reflexivity.
  - unfold contiguous. simpl. apply Permutation_refl.
  - reflexivity.
  - reflexivity.
  - lia.
Defined.

Lemma Forall2_numbered_parents L l : forall l',
  Forall2 sameButPlugins (map (numbered 0 L) l) l' -> map _parentId l' = map _parentId l.
Proof.
  induction l as [|x l IH]; intros l' F; inversion F as [|a b la lb Hab Hrest]; subst;
    [reflexivity|].
  cbn [map]. rewrite (IH _ Hrest). f_equal.
  apply sameButPlugins_tracks in Hab. destruct Hab as (_ & _ & T & _).
  exact T.
Qed.

(** X25: pasting a childless component, on behalf of a given user and with no
    [_sortOrder] in [customData], into an article that has no children
    creates one block under the article and stores the copy in that block:
    two documents are added, in that order, and the copy carries the
    article's course. *)
Theorem clone_component_into_empty_article :
  forall validate extensionNames getPluginSchemas schemaSource translate defaultLanguage
         fuel u src art aid cid customData globalData options s,
    WF s ->
    (forall n, validate n = true) ->
    In src (docs s) -> _type src = component ->
    (forall n, In n (docs s) -> _parentId n <> _id src) ->
    In art (docs s) -> _id art = Some aid -> _type art = article ->
    _courseId art = Some cid ->
    (forall n, In n (docs s) -> _parentId n <> Some aid) ->
    d_sortOrder customData = None ->
    d_type customData = None -> d_type globalData = None ->
    (1 <= fuel)%nat ->
    exists copy s',
      clone validate extensionNames getPluginSchemas schemaSource translate
        defaultLanguage (S fuel) (Some u) (_id src) (Some aid) customData globalData
        false options s = (Ok copy, s')
      /\ _id copy = Some (S (nextId s)) /\ _type copy = component
      /\ _parentId copy = Some (nextId s) /\ _courseId copy = Some cid
      /\ map _id (docs s') = map _id (docs s) ++ [Some (nextId s); Some (S (nextId s))]
      /\ map _type (docs s') = map _type (docs s) ++ [block; component]
      /\ map _parentId (docs s')
         = map _parentId (docs s) ++ [Some aid; Some (nextId s)].
Proof.
  intros validate ext gps sch tr dl fuel u src art aid cid cd gd options s
         W Hv Hsrc Tsrc Hleaf Hart Haid Tart Hcid Hempty Hso Hcd Hgd Hfuel.
  pose proof W as [ND Wid].
  set (loc := match o_stringLocalisation options with
              | Some l => Some l
              | None => dl
              end).
  set (bdata := assign (assign (assign (assign (blank block) (dCreatedBy (Some u)))
                                  (defaultData tr loc block))
                          (dPlace (Some aid) (Some cid) (_lang art)))
                  emptyDelta).
  assert (Hbin : In (_parentId bdata) (map _id (docs s))).
  { unfold bdata. cbn. rewrite <- Haid. now apply in_map. }
  destruct (@insert_run validate ext gps sch bdata options s W (Hv bdata))
    as (s1 & E1 & N1 & F1 & W1); [discriminate | discriminate | assumption |].
  set (blk := set_id (Some (nextId s)) bdata) in *.
  set (proposed := set_id None (assign (assign (assign src (dCloneBase (Some u))) cd) gd)).
  set (data := assign proposed (dAppend blk)).
  assert (Ht : _type data = component).
  { unfold data, proposed. cbn. now rewrite Hcd, Hgd. }
  assert (Hids1 : map _id (docs s1) = map _id (docs s) ++ [Some (nextId s)]).
  { rewrite (Forall2_sameButPlugins_ids F1), map_map.
    rewrite (map_ext _ _id) by (intro; apply numbered_id).
    rewrite map_app. reflexivity. }
  assert (Hin : In (_parentId data) (map _id (docs s1))).
  { unfold data. cbn. rewrite Hids1. apply in_or_app. right. now left. }
  destruct (@insert_run validate ext gps sch data options s1 W1 (Hv data))
    as (s2 & E2 & N2 & F2 & W2);
    [rewrite Ht; discriminate | rewrite Ht; discriminate | assumption |].
  rewrite N1 in E2, F2.
  set (doc := set_id (@Some Id (S (nextId s))) data) in *.
  exists doc, s2.
  assert (Hsa : _id src <> Some aid).
  { intro Ex. rewrite <- Haid in Ex.
    assert (src = art) by (apply (@ids_inj _ _ _ ND Hsrc Hart Ex)).
    subst art. rewrite Tsrc in Tart. discriminate. }
  assert (Hsn : _id src <> Some (nextId s)).
  { intro Ex. apply (WF_fresh W). rewrite <- Ex. now apply in_map. }
  assert (Hleaf2 : filter (fun i => negb (oid_eqb (_id i) (_id doc)))
                     (filter (by_parent (_id src)) (docs s2)) = []).
  { apply filter_nil_iff. intros n2 Hn2. exfalso.
    apply filter_In in Hn2. destruct Hn2 as [Hn2 Hq].
    unfold by_parent in Hq. apply oid_eqb_eq in Hq.
    destruct (@track_backward _ _ _ n2 F2 Hn2) as (n1 & Hn1 & T2).
    destruct T2 as (_ & _ & Tp2 & _).
    apply in_app_or in Hn1. destruct Hn1 as [Hn1|[<-|[]]].
    - destruct (@track_backward _ _ _ n1 F1 Hn1) as (n0 & Hn0 & T1).
      destruct T1 as (_ & _ & Tp1 & _).
      apply in_app_or in Hn0. destruct Hn0 as [Hn0|[<-|[]]].
      + apply (Hleaf n0 Hn0). congruence.
      + apply Hsa. rewrite <- Hq, Tp2, Tp1. reflexivity.
    - apply Hsn. rewrite <- Hq, Tp2. reflexivity. }
  assert (Hf : filter (by_id (Some aid)) (docs s) = [art]).
  { rewrite <- Haid. apply (@filter_by_id_unique _ _ ND Hart). }
  split.
  { cbn [clone]. unfold bind at 1. unfold find at 1. cbv beta iota.
    rewrite (@filter_by_id_unique _ _ ND Hsrc).
    unfold bind at 1. cbn [isSome]. unfold find at 1. cbv beta iota.
    rewrite Hf.
    cbv zeta. rewrite Tsrc, Tart.
    assert (Hs1 : (indexOf component fullHierarchy =? indexOf menu fullHierarchy)
                  && (indexOf article fullHierarchy =? indexOf menu fullHierarchy)
                  || (indexOf component fullHierarchy =? indexOf page fullHierarchy)
                     && (indexOf article fullHierarchy <? indexOf page fullHierarchy)
                  || (indexOf article fullHierarchy
                      =? indexOf component fullHierarchy - 1) = false) by reflexivity.
    assert (Hs2 : (indexOf article fullHierarchy <? indexOf component fullHierarchy - 1)
                  = true) by reflexivity.
    rewrite Hs1, Hs2.
    change (at_index fullHierarchy (indexOf component fullHierarchy - 1))
      with (Some block).
    rewrite Hso. cbn [orElse truthyNum]. cbv iota.
    assert (D : descendToType fuel art (Some block) s = (Ok art, s)).
    { destruct fuel as [|f]; [lia|]. cbn [descendToType]. unfold bind, find.
      cbv beta iota.
      replace (filter (by_parent (_id art)) (docs s)) with (@nil ContentNode);
        [reflexivity|].
      symmetry. apply filter_nil_iff. intros n Hn.
      destruct (by_parent (_id art) n) eqn:Eq; [|reflexivity].
      unfold by_parent in Eq. apply oid_eqb_eq in Eq. exfalso.
      apply (Hempty n Hn). now rewrite Eq. }
    unfold bind at 1. unfold bind at 1. unfold bind at 1. rewrite D. cbv beta iota.
    unfold ret at 1. cbv beta iota.
    rewrite Tart. cbn [otype_eqb ctype_eqb negb].
    unfold bind at 1. unfold constructToType. rewrite Tart.
    change (slice (indexOf article [course; page; article; block; component] + 1)
              (oindexOf (Some block) [course; page; article; block; component] + 1)
              [course; page; article; block; component]) with [block].
    cbn [toString]. unfold bind at 1. unfold ret at 1. cbv beta iota.
    unfold insertRecursive. rewrite Haid.
    unfold bind at 1. unfold find at 1. cbv beta iota.
    rewrite Hf. cbn [hd_error].
    cbn [insertChain]. rewrite Haid, Hcid. cbn [ctype_eqb]. cbv iota.
    fold loc.
    fold bdata.
    unfold bind at 1. rewrite E1. cbv beta iota.
    unfold ret at 1. cbn [app rev hd_error]. unfold append.
    match goal with |- context [insert validate ext gps sch ?d options s1] =>
      change d with data
    end.
    rewrite E2. cbv beta iota.
    unfold bind at 1. unfold find at 1. cbv beta iota.
    rewrite Hleaf2. reflexivity. }
  split; [reflexivity|]. split; [exact Ht|].
  split; [reflexivity|]. split; [reflexivity|].
  assert (Hids2 : map _id (docs s2)
                  = map _id (docs s) ++ [Some (nextId s); Some (S (nextId s))]).
  { rewrite (Forall2_sameButPlugins_ids F2), map_map.
    rewrite (map_ext _ _id) by (intro; apply numbered_id).
    rewrite map_app, Hids1, <- app_assoc. reflexivity. }
  split; [exact Hids2|].
  split.
  - rewrite (Forall2_numbered_types _ _ F2), map_app, (Forall2_numbered_types _ _ F1),
      map_app, <- app_assoc. cbn [map app].
    change (_type doc) with (_type data). rewrite Ht. reflexivity.
  - rewrite (Forall2_numbered_parents _ _ F2), map_app, (Forall2_numbered_parents _ _ F1),
      map_app, <- app_assoc. reflexivity.
Qed.

Lemma clone_component_into_empty_article_witness :
  exists copy s',
    clone (fun _ => true) [] (fun _ => []) (fun _ => None) (fun _ key => key) None 2
      (Some "user1"%string) (_id x_target) (Some 5%nat) emptyDelta emptyDelta false
      noOptions x_paste_store = (Ok copy, s')
    /\ _id copy = Some (S (nextId x_paste_store)) /\ _type copy = component
    /\ _parentId copy = Some (nextId x_paste_store) /\ _courseId copy = Some 8%nat
    /\ map _id (docs s')
       = map _id (docs x_paste_store)
         ++ [Some (nextId x_paste_store); Some (S (nextId x_paste_store))]
    /\ map _type (docs s') = map _type (docs x_paste_store) ++ [block; component]
    /\ map _parentId (docs s')
       = map _parentId (docs x_paste_store)
         ++ [Some 5%nat; Some (nextId x_paste_store)].
Proof.
  apply (@clone_component_into_empty_article (fun _ => true) [] (fun _ => [])
           (fun _ => None) (fun _ key => key) None 1%nat "user1"%string x_target
           x_empty_article 5%nat 8%nat emptyDelta emptyDelta noOptions x_paste_store).
  - wf_store.
  - reflexivity.
  - simpl. tauto.
  - reflexivity.
  - intros n Hn. simpl in Hn.
    repeat (destruct Hn as [<-|Hn]; [discriminate|]). contradiction.
  - simpl. tauto.
  - reflexivity.
  - reflexivity.
  - reflexivity.
  - intros n Hn. simpl in Hn.
    repeat (destruct Hn as [<-|Hn]; [discriminate|]). contradiction.
  - reflexivity.
  - reflexivity.
  - reflexivity.
  - lia.
Defined.

(** * Sibling groups *)

(** ** The numbered list, told from the store *)

Lemma orderOf_siblingList item updateData l :
  siblingList item updateData l (orderOf item updateData l).
Proof.
  unfold siblingList, orderOf. destruct updateData.
  - unfold upsertOrder.
    set (sibs := sortBy so_leb _).
    set (i := match _sortOrder item with
              | Some k => if k - 1 >? -1 then Z.to_nat (k - 1) else length sibs
              | None => length sibs
              end).
    exists (firstn i sibs), (skipn i sibs). rewrite firstn_skipn.
    split; [reflexivity|]. split; [apply sortBy_perm|].
    split; [apply sortBy_sorted|].
    rewrite length_firstn. reflexivity.
  - split; [apply sortBy_perm | apply sortBy_sorted].
Qed.

Lemma assign_own_sortOrder n : assign n (dSortOrder (_sortOrder n)) = n.
Proof. destruct n; reflexivity. Qed.

Lemma numbered_only_sortOrder sibs : forall k n,
  numbered k sibs n = assign n (dSortOrder (_sortOrder (numbered k sibs n))).
Proof.
  induction sibs as [|x rest IH]; intros k n; cbn [numbered].
  - symmetry. apply assign_own_sortOrder.
  - destruct (oid_eqb (_id n) (_id x)); [|apply IH].
    destruct (option_eqb Z.eqb (_sortOrder x) (Some (Z.of_nat k + 1))).
    + symmetry. apply assign_own_sortOrder.
    + destruct n; reflexivity.
Qed.

Lemma orderOf_group item updateData l x :
  (updateData = true -> In item l) ->
  In x (orderOf item updateData l) -> In x l /\ _parentId x = _parentId item.
Proof.
  intros Hitem Hx. unfold orderOf in Hx. destruct updateData.
  - apply (Permutation_in _ (upsertOrder_perm item l)) in Hx.
    destruct Hx as [<-|Hx]; [split; [now apply Hitem | reflexivity]|].
    apply filter_In in Hx. destruct Hx as [Hx Hq]. split; [assumption|].
    unfold qand, by_parent in Hq. apply andb_true_iff in Hq.
    now apply oid_eqb_eq.
  - apply (Permutation_in _ (sortBy_perm _ _)) in Hx.
    apply filter_In in Hx. destruct Hx as [Hx Hq]. split; [assumption|].
    now apply oid_eqb_eq.
Qed.

Lemma orderOf_outside item updateData l n :
  NoDup (map _id l) -> (updateData = true -> In item l) ->
  In n l -> _parentId n <> _parentId item ->
  numbered 0 (orderOf item updateData l) n = n.
Proof.
  intros ND Hitem Hn Hp. apply numbered_absent. intro Hin.
  apply in_map_iff in Hin. destruct Hin as (x & E & Hx).
  destruct (@orderOf_group item updateData l x Hitem Hx) as [Hxl Hxp].
  apply Hp. rewrite <- Hxp. f_equal. symmetry.
  now apply (@ids_inj l x n ND).
Qed.

Lemma Forall2_map_in {A B} (R : A -> B -> Prop) (f : A -> B) l :
  (forall a, In a l -> R a (f a)) -> Forall2 R l (map f l).
Proof.
  induction l as [|a l IH]; intro H; cbn [map]; constructor.
  - apply H. now left.
  - apply IH. intros b Hb. apply H. now right.
Qed.

(** ** A contiguous group is left alone *)

Lemma insertBy_split leb x l :
  exists a b, l = a ++ b /\ insertBy leb x l = a ++ x :: b.
Proof.
  induction l as [|y l (a & b & E & H)]; cbn [insertBy].
  - exists [], []. split; reflexivity.
  - destruct (leb (_sortOrder x) (_sortOrder y)).
    + exists [], (y :: l). split; reflexivity.
    + exists (y :: a), b. cbn [app]. rewrite <- E, H. split; reflexivity.
Qed.

Lemma keys_settled L :
  sorted soLe L ->
  Permutation (map _sortOrder L) (map (fun k => Some (Z.of_nat k)) (seq 1 (length L))) ->
  forall p x, nth_error L p = Some x -> _sortOrder x = Some (Z.of_nat (0 + p) + 1).
Proof.
  intros HS HP p x Hp.
  pose proof (@sorted_keys L 1%nat (length L) HS HP) as K.
  assert (E : nth_error (map _sortOrder L) p = Some (_sortOrder x))
    by (rewrite nth_error_map, Hp; reflexivity).
  rewrite K, nth_error_map, nth_error_seq in E.
  assert (Hlt : (p < length L)%nat) by (apply nth_error_Some; congruence).
  apply Nat.ltb_lt in Hlt. rewrite Hlt in E. cbn in E. inversion E as [E'].
  f_equal. lia.
Qed.

Lemma deleteOrder_settled p l :
  contiguous l p ->
  forall i x, nth_error (deleteOrder p l) i = Some x ->
              _sortOrder x = Some (Z.of_nat (0 + i) + 1).
Proof.
  intro C. apply keys_settled; unfold deleteOrder; [apply sortBy_sorted|].
  rewrite sortBy_length.
  rewrite (Permutation_map _sortOrder (sortBy_perm so_leb _)). exact C.
Qed.

Lemma upsertOrder_settled item l :
  NoDup (map _id l) -> In item l ->
  contiguous l (_parentId item) ->
  forall i x, nth_error (upsertOrder item l) i = Some x ->
              _sortOrder x = Some (Z.of_nat (0 + i) + 1).
Proof.
  intros ND Hin C.
  set (q := qand (by_parent (_parentId item)) (qnot (by_id (_id item)))).
  set (sibs := sortBy so_leb (filter q l)).
  assert (HG : Permutation (filter (by_parent (_parentId item)) l) (item :: sibs)).
  { rewrite (@filter_split_item (by_parent (_parentId item)) l item ND Hin)
      by (unfold by_parent; apply oid_eqb_refl).
    constructor. symmetry. apply sortBy_perm. }
  (* the sorted insertion of the item is settled *)
  destruct (insertBy_split so_leb item sibs) as (a & b & Eab & Eins).
  assert (HS : sorted soLe (a ++ item :: b)).
  { rewrite <- Eins. apply insertBy_sorted, sortBy_sorted. }
  assert (HP : Permutation (a ++ item :: b) (item :: sibs)).
  { rewrite <- Eins. apply insertBy_perm. }
  assert (Hlen : length (a ++ item :: b)
                 = length (filter (by_parent (_parentId item)) l)).
  { rewrite (Permutation_length HP), (Permutation_length HG). reflexivity. }
  assert (K : forall p x, nth_error (a ++ item :: b) p = Some x ->
                          _sortOrder x = Some (Z.of_nat (0 + p) + 1)).
  { apply keys_settled; [assumption|]. rewrite Hlen.
    rewrite (Permutation_map _sortOrder HP), <- (Permutation_map _sortOrder HG).
    exact C. }
  (* so the item sits where its own sort order says *)
  assert (Hk : _sortOrder item = Some (Z.of_nat (length a) + 1)).
  { apply (K (length a) item). rewrite nth_error_app2 by lia.
    now rewrite Nat.sub_diag. }
  assert (E : upsertOrder item l = a ++ item :: b).
  { unfold upsertOrder. fold q. fold sibs. rewrite Hk.
    replace (Z.of_nat (length a) + 1 - 1 >? -1) with true
      by (symmetry; apply Z.gtb_lt; lia).
    replace (Z.to_nat (Z.of_nat (length a) + 1 - 1)) with (length a) by lia.
    unfold splice. rewrite Eab.
    rewrite firstn_app, Nat.sub_diag, firstn_all, firstn_O, app_nil_r.
    rewrite skipn_app, Nat.sub_diag, skipn_all, skipn_O. reflexivity. }
  rewrite E. exact K.
Qed.

Lemma orderOf_settled item updateData l :
  NoDup (map _id l) -> (updateData = true -> In item l) ->
  contiguous l (_parentId item) ->
  forall i x, nth_error (orderOf item updateData l) i = Some x ->
              _sortOrder x = Some (Z.of_nat (0 + i) + 1).
Proof.
  intros ND Hitem C. unfold orderOf. destruct updateData.
  - apply upsertOrder_settled; auto.
  - now apply deleteOrder_settled.
Qed.

(** C9: [updateSortOrder] numbers the stored sibling group of the item's
    parent [1..N] in list order -- the other siblings by ascending
    [_sortOrder], the item at its landing place -- and touches nothing else;
    it writes only the entries whose [_sortOrder] differs from their
    position; on an already contiguous group, and so on a second run, it
    writes nothing. *)
Theorem updateSortOrder_write_minimal_idempotent :
  forall item (updateData : bool) s,
    needsOrder item = true ->
    NoDup (map _id (docs s)) ->
    (if updateData then In item (docs s) /\ _id item <> None
     else filter (by_id (_parentId item)) (docs s) <> []) ->
    exists s' ws L,
      updateSortOrder item updateData s = (Ok tt, s')
      /\ siblingList item updateData (docs s) L
      /\ (forall p x, nth_error L p = Some x ->
            exists n', In n' (docs s') /\ _id n' = _id x
                       /\ _sortOrder n' = Some (Z.of_nat p + 1))
      /\ contiguous (docs s') (_parentId item)
      /\ Forall2 (renumbered (_parentId item)) (docs s) (docs s')
      /\ nextId s' = nextId s
      /\ writes s' = writes s ++ ws
      /\ (forall w, In w ws <->
            exists p x, nth_error L p = Some x
                        /\ _sortOrder x <> Some (Z.of_nat p + 1)
                        /\ w = WUpdate (_id x) (dSortOrder (Some (Z.of_nat p + 1))))
      /\ (contiguous (docs s) (_parentId item) -> s' = s)
      /\ (forall item',
            (if updateData then In item' (docs s') /\ _id item' = _id item
             else item' = item) ->
            updateSortOrder item' updateData s' = (Ok tt, s')).
Proof.
  intros item updateData s Hn ND H.
  set (L := orderOf item updateData (docs s)).
  assert (Hitem : updateData = true -> In item (docs s)).
  { intros ->. apply H. }
  assert (NDL : NoDup (map _id L)) by now apply orderOf_NoDup.
  assert (Hrun : updateSortOrder item updateData s
                 = (Ok tt, mkStore (map (numbered 0 L) (docs s)) (nextId s)
                             (writes s ++ renumberWrites 0 L))).
  { apply updateSortOrder_run; [assumption | assumption |].
    destruct updateData; [|assumption].
    destruct H as [H1 H2]. split; [now apply in_map | assumption]. }
  set (s' := mkStore (map (numbered 0 L) (docs s)) (nextId s)
               (writes s ++ renumberWrites 0 L)) in *.
  assert (HG : Permutation (filter (by_parent (_parentId item)) (docs s)) L).
  { unfold L, orderOf. destruct updateData.
    - rewrite upsertOrder_perm.
      apply (filter_split_item (by_parent (_parentId item))); [assumption | tauto |].
      unfold by_parent. apply oid_eqb_refl.
    - symmetry. apply sortBy_perm. }
  assert (Hsettled : contiguous (docs s) (_parentId item) -> s' = s).
  { intro C. unfold s'.
    pose proof (@orderOf_settled item updateData (docs s) ND Hitem C) as K.
    fold L in K.
    rewrite renumberWrites_settled by exact K.
    rewrite (map_ext _ (fun n => n)) by (intro n; now apply numbered_settled).
    rewrite map_id, app_nil_r. destruct s; reflexivity. }
  assert (HC : contiguous (docs s') (_parentId item)).
  { cbn [docs s']. now apply contiguous_numbered. }
  exists s', (renumberWrites 0 L), L.
  split; [exact Hrun|].
  split; [apply orderOf_siblingList|].
  split.
  { intros p x Hp. exists (numbered 0 L x). cbn [docs s'].
    split; [|split].
    - apply in_map.
      apply (@orderOf_group item updateData (docs s) x Hitem).
      eapply nth_error_In; eassumption.
    - apply numbered_id.
    - exact (@numbered_nth_sortOrder L 0 p x NDL Hp). }
  split; [exact HC|].
  split.
  { cbn [docs s']. apply Forall2_map_in. intros n Hin. split.
    - apply numbered_only_sortOrder.
    - intro Hp. now apply orderOf_outside. }
  split; [reflexivity|].
  split; [reflexivity|].
  split; [intro w; apply renumberWrites_In|].
  split; [exact Hsettled|].
  intros item' Hitem'.
  assert (ND' : NoDup (map _id (docs s'))).
  { cbn [docs s']. rewrite map_map.
    rewrite (map_ext _ _id) by (intro; apply numbered_id). assumption. }
  assert (Hp' : _parentId item' = _parentId item /\ needsOrder item' = true).
  { destruct updateData; [|now subst item'].
    destruct Hitem' as [Hin' Hid']. destruct H as [Hin _].
    cbn [docs s'] in Hin'. apply in_map_iff in Hin'.
    destruct Hin' as (n & <- & Hn'). rewrite numbered_id in Hid'.
    assert (n = item) by (now apply (@ids_inj (docs s) n item ND)). subst n.
    unfold needsOrder. rewrite numbered_parentId, numbered_type.
    split; [reflexivity | exact Hn]. }
  destruct Hp' as [Hp' Hn'].
  assert (Hpre : if updateData then In item' (docs s') /\ _id item' <> None
                 else filter (by_id (_parentId item')) (docs s') <> []).
  { destruct updateData.
    - destruct Hitem' as [Hin' Hid']. split; [assumption|].
      rewrite Hid'. apply H.
    - subst item'. cbn [docs s'].
      rewrite filter_map_same by (intro a; unfold by_id; now rewrite numbered_id).
      destruct (filter (by_id (_parentId item)) (docs s)); [congruence | discriminate]. }
  assert (Hrun' : updateSortOrder item' updateData s'
                  = (Ok tt, mkStore (map (numbered 0 (orderOf item' updateData (docs s')))
                                       (docs s'))
                              (nextId s')
                              (writes s' ++ renumberWrites 0
                                              (orderOf item' updateData (docs s'))))).
  { apply updateSortOrder_run; [assumption | assumption |].
    destruct updateData; [|assumption].
    destruct Hpre as [H1 H2]. split; [now apply in_map | assumption]. }
  rewrite Hrun'.
  assert (K : forall i x, nth_error (orderOf item' updateData (docs s')) i = Some x ->
                          _sortOrder x = Some (Z.of_nat (0 + i) + 1)).
  { apply orderOf_settled; [assumption | |].
    - intros ->. apply Hpre.
    - rewrite Hp'. exact HC. }
  rewrite renumberWrites_settled by exact K.
  rewrite (map_ext _ (fun n => n)) by (intro n; now apply numbered_settled).
  rewrite map_id, app_nil_r. reflexivity.
Qed.

Lemma updateSortOrder_write_minimal_idempotent_witness :
  exists s' ws L,
    updateSortOrder c9_item true c9_store = (Ok tt, s')
    /\ siblingList c9_item true (docs c9_store) L
    /\ (forall p x, nth_error L p = Some x ->
          exists n', In n' (docs s') /\ _id n' = _id x
                     /\ _sortOrder n' = Some (Z.of_nat p + 1))
    /\ contiguous (docs s') (_parentId c9_item)
    /\ Forall2 (renumbered (_parentId c9_item)) (docs c9_store) (docs s')
    /\ nextId s' = nextId c9_store
    /\ writes s' = writes c9_store ++ ws
    /\ (forall w, In w ws <->
          exists p x, nth_error L p = Some x
                      /\ _sortOrder x <> Some (Z.of_nat p + 1)
                      /\ w = WUpdate (_id x) (dSortOrder (Some (Z.of_nat p + 1))))
    /\ (contiguous (docs c9_store) (_parentId c9_item) -> s' = c9_store)
    /\ (forall item',
          In item' (docs s') /\ _id item' = _id c9_item ->
          updateSortOrder item' true s' = (Ok tt, s')).
Proof.
  apply (updateSortOrder_write_minimal_idempotent c9_item true c9_store).
  - reflexivity.
  - nodup_ids.
  - split; [simpl; tauto | discriminate].
Defined.

(** ** Every sibling group after a mutation *)










Section Frames.

Variable validate : ContentNode -> bool.
Variable extensionNames : list plugin.
Variable getPluginSchemas : plugin -> list string.
Variable schemaSource : string -> option string.





End Frames.

(** ** Groups that a mutation does not handle *)














(** The delete of article 4 in [c5_foreign_store] completes; the group of the
    removed article keeps block 6 with its sort order 2. *)
Lemma delete_removed_parent_gap :
  let m := MDelete 10 (by_id (Some 4%nat)) in
  let r := perform (fun _ => true) [] (fun _ => []) (fun _ => None) m c5_foreign_store in
  (forall p, groupOrdered (docs c5_foreign_store) p)
  /\ fst r = Ok c5_article
  /\ vacated m c5_foreign_store (snd r) 4%nat
  /\ map _sortOrder (siblingGroup (docs (snd r)) 4%nat) = [Some 2]
  /\ ~ groupOrdered (docs (snd r)) 4%nat.
Proof.
  cbv zeta.
  assert (Ei : map _id (docs (snd (perform (fun _ => true) [] (fun _ => [])
                                     (fun _ => None)
                                     (MDelete 10 (by_id (Some 4%nat))) c5_foreign_store)))
               = [Some 1%nat; Some 2%nat; Some 3%nat; Some 6%nat])
    by (vm_compute; reflexivity).
  assert (Eg : siblingGroup (docs (snd (perform (fun _ => true) [] (fun _ => [])
                                          (fun _ => None)
                                          (MDelete 10 (by_id (Some 4%nat)))
                                          c5_foreign_store))) 4%nat
               = [c5_foreign]) by (vm_compute; reflexivity).
  split.
  { intro p. unfold groupOrdered, siblingGroup.
    do 8 (destruct p as [|p]; [simpl; reflexivity|]). simpl. reflexivity. }
  split; [vm_compute; reflexivity|].
  split.
  { cbn [vacated]. rewrite Ei, Eg. split; [simpl; tauto|].
    split; [simpl; intuition discriminate | discriminate]. }
  unfold groupOrdered. rewrite Eg. split; [reflexivity|].
  simpl. intro P. apply Permutation_length_1_inv in P. discriminate.
Qed.

(** * Pasting into a block *)

(** ** appendToBlock, both ways *)





